(** * ChessAI: the session protocol of the Raspberry Pi server

    A shallow embedding of [raspberry/chessai_utils.py] and
    [raspberry/raspberry_chessai.py], followed by the properties of the
    specification that concern them and by properties of the rest of the
    two files.

    Conventions of the embedding.
    - A Python [str] is a Rocq [string], each character one code point
      below 256.  A Python [int] is a [Z].  Where Python answers
      differently on a character above 255 than on every character below
      (the capital of a ligature is two letters), a statement says which
      texts it is about, with [is_ascii].
    - The limits of the interpreter are not modelled: the depth of
      recursion, and the 4300 digits beyond which an [int] is not
      converted from or to text.  [json] is modelled as it is within
      them; a statement about every text a caller may send carries
      [within_limits].
    - A Python call that can raise returns a [result]: [Ok v] or
      [Raise e].  [Raise Unmodelled] is not a Python exception: it marks
      what has no counterpart here (a code point above 255, a float), and
      nothing is stated about what Python does there.
    - [self] of a class is a record passed in and returned; a method that
      returns a value returns it beside the record.
    - Logging is left out, and so is what is printed: no method reads
      what it logged or printed.
    - The libraries the program calls are modelled after their
      documentation: [json], and of python-chess the squares, the moves
      and their texts and the starting position.  What the chess library
      decides (legal moves, the position after a move, the end of the
      game) and what the UCI engine answers are operations of the type
      classes [Rules] and [Engine]; the properties hold for every
      instance. *)

From Stdlib Require Import Bool Ascii String ZArith NArith List Lia.
From Stdlib Require Import DecimalString DecimalPos DecimalZ DecimalFacts.
Import ListNotations.
Local Open Scope string_scope.
Local Open Scope Z_scope.

(* ================================================================= *)
(** ** Python values: exceptions, results, characters and strings *)

Module Py.

Inductive exn : Set :=
| IndexError
| ValueError
| OverflowError
| TypeError
| AttributeError
| JSONDecodeError
| InvalidMoveError
| EngineError
| Unmodelled.

(** [except ValueError] also catches the subclasses of [ValueError]:
    [json.JSONDecodeError] and [chess.InvalidMoveError]. *)
Definition is_ValueError (e : exn) : bool :=
  match e with
  | ValueError | JSONDecodeError | InvalidMoveError => true
  | _ => false
  end.

Inductive result (A : Type) : Type :=
| Ok (a : A)
| Raise (e : exn).
Arguments Ok {A} a.
Arguments Raise {A} e.

Definition bind {A B} (r : result A) (k : A -> result B) : result B :=
  match r with
  | Ok a => k a
  | Raise e => Raise e
  end.

(** [ord(c)] *)
Definition ord (c : ascii) : Z := Z.of_N (N_of_ascii c).

(** [chr(n)]: an [OverflowError] outside the range of a C [int], a
    [ValueError] outside [range(0x110000)]. *)
Definition chr (n : Z) : result ascii :=
  if (n <? -2147483648) || (2147483647 <? n) then Raise OverflowError
  else if (n <? 0) || (1114111 <? n) then Raise ValueError
  else if n <? 256 then Ok (ascii_of_N (Z.to_N n))
  else Raise Unmodelled.

Definition in_range (lo hi : Z) (c : ascii) : bool :=
  (lo <=? ord c) && (ord c <=? hi).

(** [c.lower()] on one character: the capital letters of ASCII and of
    Latin-1 (U+00C0..U+00DE without the multiplication sign). *)
Definition lower_char (c : ascii) : ascii :=
  if in_range 65 90 c || (in_range 192 222 c && negb (ord c =? 215))
  then ascii_of_N (N_of_ascii c + 32) else c.

(** [c.upper()] on one character whose capital is one Latin-1 code point.
    The capitals of U+00B5, U+00DF and U+00FF are not; they stay as they
    are here, see [ord_upper] for the code the program computes from them. *)
Definition upper_char (c : ascii) : ascii :=
  if in_range 97 122 c || (in_range 224 254 c && negb (ord c =? 247))
  then ascii_of_N (N_of_ascii c - 32) else c.

Fixpoint lower (s : string) : string :=
  match s with
  | EmptyString => EmptyString
  | String c r => String (lower_char c) (lower r)
  end.

Fixpoint upper (s : string) : string :=
  match s with
  | EmptyString => EmptyString
  | String c r => String (upper_char c) (upper r)
  end.

(** [ord(c.upper())]: [TypeError] for U+00DF, whose capital is two
    characters. *)
Definition ord_upper (c : ascii) : result Z :=
  if ord c =? 223 then Raise TypeError
  else if ord c =? 181 then Ok 924
  else if ord c =? 255 then Ok 376
  else Ok (ord (upper_char c)).

(** [int(c)] for a string of one character: its value when it is a
    decimal digit, a [ValueError] otherwise. *)
Definition int_of_char (c : ascii) : result Z :=
  if in_range 48 57 c then Ok (ord c - 48) else Raise ValueError.

(** [str(n)] for an [int]. *)
Definition str_of_int (n : Z) : string :=
  NilZero.string_of_int (Z.to_int n).

(** [s[i]] for [i >= 0]. *)
Definition index (s : string) (i : nat) : result ascii :=
  match String.get i s with
  | Some c => Ok c
  | None => Raise IndexError
  end.

(** [s[i:j]] for [0 <= i <= j]. *)
Definition slice (s : string) (i j : nat) : string :=
  String.substring i (j - i) s.

(** [c.isspace()] *)
Definition isspace (c : ascii) : bool :=
  in_range 9 13 c || in_range 28 32 c || (ord c =? 133) || (ord c =? 160).

Fixpoint lstrip (s : string) : string :=
  match s with
  | EmptyString => EmptyString
  | String c r => if isspace c then lstrip r else s
  end.

Fixpoint rstrip (s : string) : string :=
  match s with
  | EmptyString => EmptyString
  | String c r =>
      match rstrip r with
      | EmptyString => if isspace c then EmptyString else String c EmptyString
      | r' => String c r'
      end
  end.

(** [s.strip()] *)
Definition strip (s : string) : string := rstrip (lstrip s).

(** [all(p(c) for c in s)] *)
Fixpoint all_chars (p : ascii -> bool) (s : string) : bool :=
  match s with
  | EmptyString => true
  | String c r => p c && all_chars p r
  end.

(** The characters whose capital is one code point below 256: all but
    U+00B5 and U+00FF, whose capitals lie above, and U+00DF, whose capital
    is two characters. *)
Definition capital_in_range (c : ascii) : bool :=
  negb ((ord c =? 181) || (ord c =? 223) || (ord c =? 255)).

(** [s.upper()] as Python computes it on any string: [upper s] when the
    capitals of its characters are in range, outside the model
    otherwise. *)
Definition str_upper (s : string) : result string :=
  if all_chars capital_in_range s then Ok (upper s) else Raise Unmodelled.

(** [s.isascii()] *)
Definition is_ascii (s : string) : bool := all_chars (fun c => ord c <? 128) s.

(** [c.upper()] on one character, as the code points of the result: two
    letters S for U+00DF, U+039C for U+00B5, U+0178 for U+00FF. *)
Definition capital (c : ascii) : list Z :=
  if ord c =? 223 then [83; 83]
  else if ord c =? 181 then [924]
  else if ord c =? 255 then [376]
  else [ord (upper_char c)].

(** [s.upper()], as the code points of the result. *)
Fixpoint upper_points (s : string) : list Z :=
  match s with
  | EmptyString => []
  | String c r => (capital c ++ upper_points r)%list
  end.

(** [ord(chr(p).upper())] for a code point [p]: below 256 it is
    [ord_upper]; U+039C and U+0178 are capitals already. *)
Definition upper_point (p : Z) : result Z :=
  if (0 <=? p) && (p <? 256) then ord_upper (ascii_of_N (Z.to_N p))
  else if (p =? 924) || (p =? 376) then Ok p
  else Raise Unmodelled.

(** [int(chr(p))] for a code point [p]: below U+0660 the decimal digits
    are those of ASCII. *)
Definition int_of_point (p : Z) : result Z :=
  if (48 <=? p) && (p <=? 57) then Ok (p - 48)
  else if (0 <=? p) && (p <? 1632) then Raise ValueError
  else Raise Unmodelled.

(** [range(n)] *)
Definition range (n : nat) : list Z := map Z.of_nat (seq 0 n).

(** [l[i]]: a negative index counts from the end. *)
Definition item {A} (l : list A) (i : Z) : result A :=
  let n := Z.of_nat (List.length l) in
  let j := if i <? 0 then n + i else i in
  if (j <? 0) || (n <=? j) then Raise IndexError
  else
    match nth_error l (Z.to_nat j) with
    | Some x => Ok x
    | None => Raise IndexError
    end.

End Py.

Import Py.

Declare Scope py_scope.
Notation "x <- r ;; k" := (Py.bind r (fun x => k))
  (at level 61, r at next level, right associativity) : py_scope.
Local Open Scope py_scope.

(* ================================================================= *)
(** ** The [json] module of the Python library

    [json.dumps] with its default options ([ensure_ascii], separators
    [", "] and [": "]) and [json.loads], on the values the protocol
    carries: [None], booleans, integers, strings, lists and dictionaries
    with string keys.  A [dict] keeps its keys in insertion order. *)

Module Json.

Unset Elimination Schemes.
Inductive value : Type :=
| JNull
| JBool (b : bool)
| JInt (n : Z)
| JStr (s : string)
| JList (l : list value)
| JDict (d : list (string * value)).
Set Elimination Schemes.

Definition dict := list (string * value).

(** [d.get(key)], [None] when the key is absent. *)
Fixpoint lookup (d : dict) (key : string) : option value :=
  match d with
  | [] => None
  | (k, v) :: r => if String.eqb k key then Some v else lookup r key
  end.

(** [d.get(key, default)] *)
Definition get (d : dict) (key : string) (default : value) : value :=
  match lookup d key with
  | Some v => v
  | None => default
  end.

(** [d[key] = v]: a key already present keeps its place. *)
Fixpoint set (d : dict) (key : string) (v : value) : dict :=
  match d with
  | [] => [(key, v)]
  | (k, w) :: r =>
      if String.eqb k key then (k, v) :: r else (k, w) :: set r key v
  end.

(** [d.update(pairs)], which is also what [{**d, **pairs}] and
    [dict(pairs)] do. *)
Definition update (d : dict) (pairs : list (string * value)) : dict :=
  fold_left (fun acc kv => set acc (fst kv) (snd kv)) pairs d.

(** [v == s] for a string [s]. *)
Definition is_str (v : value) (s : string) : bool :=
  match v with
  | JStr t => String.eqb t s
  | _ => false
  end.

(** [bool(v)]: the truth value Python gives [v]. *)
Definition truthy (v : value) : bool :=
  match v with
  | JNull => false
  | JBool b => b
  | JInt n => negb (n =? 0)
  | JStr s => negb (String.eqb s "")
  | JList l => match l with [] => false | _ => true end
  | JDict d => match d with [] => false | _ => true end
  end.

(** *** Encoding *)

Definition dquote : ascii := "034".
Definition backslash : ascii := "\".

Definition hex_digit (n : N) : ascii :=
  if (n <? 10)%N then ascii_of_N (48 + n) else ascii_of_N (87 + n).

(** One character of [encode_basestring_ascii]: the short escapes, the
    printable characters as they are, [\u00xx] for the rest. *)
Definition escape_char (c : ascii) : string :=
  if Ascii.eqb c dquote then String backslash (String dquote "")
  else if Ascii.eqb c backslash then "\\"
  else if Ascii.eqb c "008" then "\b"
  else if Ascii.eqb c "012" then "\f"
  else if Ascii.eqb c "010" then "\n"
  else if Ascii.eqb c "013" then "\r"
  else if Ascii.eqb c "009" then "\t"
  else if in_range 32 126 c then String c ""
  else "\u00" ++ String (hex_digit (N_of_ascii c / 16))
                   (String (hex_digit (N_of_ascii c mod 16)) "").

Fixpoint escape (s : string) : string :=
  match s with
  | EmptyString => ""
  | String c r => escape_char c ++ escape r
  end.

Definition encode_basestring_ascii (s : string) : string :=
  String dquote (escape s ++ String dquote "").

(** [", ".join(items)] *)
Fixpoint join (items : list string) : string :=
  match items with
  | [] => ""
  | [x] => x
  | x :: r => x ++ ", " ++ join r
  end.

Fixpoint encode (v : value) : string :=
  match v with
  | JNull => "null"
  | JBool true => "true"
  | JBool false => "false"
  | JInt n => str_of_int n
  | JStr s => encode_basestring_ascii s
  | JList l => "[" ++ join (map encode l) ++ "]"
  | JDict d =>
      "{" ++ join (map (fun kv => encode_basestring_ascii (fst kv) ++ ": "
                                  ++ encode (snd kv)) d) ++ "}"
  end.

(** [json.dumps(v)], with the same limits left out: Python raises on a
    value nested deeper than the recursion limit allows and on an [int] of
    more than 4300 digits. *)
Definition dumps (v : value) : string := encode v.

(** *** Decoding *)

Definition is_ws (c : ascii) : bool :=
  Ascii.eqb c " " || Ascii.eqb c "009" || Ascii.eqb c "010" || Ascii.eqb c "013".

Fixpoint skip_ws (s : string) : string :=
  match s with
  | EmptyString => EmptyString
  | String c r => if is_ws c then skip_ws r else s
  end.

Definition hex_value (c : ascii) : option N :=
  if in_range 48 57 c then Some (N_of_ascii c - 48)%N
  else if in_range 97 102 c then Some (N_of_ascii c - 87)%N
  else if in_range 65 70 c then Some (N_of_ascii c - 55)%N
  else None.

Definition hex4 (a b c d : ascii) : option N :=
  match hex_value a, hex_value b, hex_value c, hex_value d with
  | Some x, Some y, Some z, Some w => Some (((x * 16 + y) * 16 + z) * 16 + w)%N
  | _, _, _, _ => None
  end.

(** The character a short escape stands for. *)
Definition unescape (c : ascii) : option ascii :=
  if Ascii.eqb c dquote then Some dquote
  else if Ascii.eqb c backslash then Some backslash
  else if Ascii.eqb c "/" then Some "/"%char
  else if Ascii.eqb c "b" then Some "008"%char
  else if Ascii.eqb c "f" then Some "012"%char
  else if Ascii.eqb c "n" then Some "010"%char
  else if Ascii.eqb c "r" then Some "013"%char
  else if Ascii.eqb c "t" then Some "009"%char
  else None.

(** [scanstring], from the character after the opening quote: the string
    and the text after its closing quote.  Strict: a raw control
    character is an error. *)
Fixpoint scanstring (s : string) : result (string * string) :=
  match s with
  | EmptyString => Raise JSONDecodeError
  | String c r =>
      if Ascii.eqb c dquote then Ok ("", r)
      else if Ascii.eqb c backslash then
        match r with
        | EmptyString => Raise JSONDecodeError
        | String e r1 =>
            if Ascii.eqb e "u" then
              match r1 with
              | String h1 (String h2 (String h3 (String h4 r2))) =>
                  match hex4 h1 h2 h3 h4 with
                  | Some n =>
                      if (n <? 256)%N then
                        xr <- scanstring r2 ;;
                        Ok (String (ascii_of_N n) (fst xr), snd xr)
                      else Raise Unmodelled
                  | None => Raise JSONDecodeError
                  end
              | _ => Raise JSONDecodeError
              end
            else
              match unescape e with
              | Some ch =>
                  xr <- scanstring r1 ;; Ok (String ch (fst xr), snd xr)
              | None => Raise JSONDecodeError
              end
        end
      else if ord c <? 32 then Raise JSONDecodeError
      else xr <- scanstring r ;; Ok (String c (fst xr), snd xr)
  end.

Definition is_digit (c : ascii) : bool := in_range 48 57 c.

(** The longest run of digits a text starts with, and the rest. *)
Fixpoint span_digits (s : string) : string * string :=
  match s with
  | EmptyString => ("", "")
  | String c r =>
      if is_digit c then
        let dr := span_digits r in (String c (fst dr), snd dr)
      else ("", s)
  end.

(** The digits of an integer part: one [0], or a digit from 1 to 9 and
    the digits that follow it. *)
Definition scan_unsigned (t : string) : option (string * string) :=
  match t with
  | String c r =>
      if Ascii.eqb c "0" then Some ("0", r)
      else if is_digit c then Some (span_digits t)
      else None
  | EmptyString => None
  end.

(** The integer part of a number: an optional minus sign and its digits. *)
Definition scan_integer (s : string) : option (string * string) :=
  match s with
  | String c r =>
      if Ascii.eqb c "-" then
        match scan_unsigned r with
        | Some (ds, r') => Some (String "-" ds, r')
        | None => None
        end
      else scan_unsigned s
  | EmptyString => None
  end.

(** The fraction, a point and at least one digit: the text after it when
    it is there. *)
Definition scan_frac (s : string) : option string :=
  match s with
  | String c r =>
      if Ascii.eqb c "." then
        match span_digits r with
        | (EmptyString, _) => None
        | (_, r') => Some r'
        end
      else None
  | EmptyString => None
  end.

(** The exponent, [e] or [E], an optional sign and at least one digit: the
    text after it when it is there. *)
Definition scan_exp (s : string) : option string :=
  match s with
  | String c r =>
      if Ascii.eqb c "e" || Ascii.eqb c "E" then
        let r1 :=
          match r with
          | String sg r' =>
              if Ascii.eqb sg "-" || Ascii.eqb sg "+" then r' else r
          | EmptyString => r
          end in
        match span_digits r1 with
        | (EmptyString, _) => None
        | (_, r') => Some r'
        end
      else None
  | EmptyString => None
  end.

(** [int(text)] for the text of an integer part. *)
Definition int_of_str (s : string) : Z :=
  match NilZero.int_of_string s with
  | Some d => Z.of_int d
  | None => 0
  end.

(** [s.startswith(p)] *)
Fixpoint starts_with (p s : string) : bool :=
  match p, s with
  | EmptyString, _ => true
  | String a p', String b s' => Ascii.eqb a b && starts_with p' s'
  | String _ _, EmptyString => false
  end.

(** [s[n:]] *)
Fixpoint suffix_from (n : nat) (s : string) : string :=
  match n, s with
  | O, _ => s
  | S k, String _ r => suffix_from k r
  | S _, EmptyString => EmptyString
  end.

(** A number at the start of a text: its value and the rest.  A number
    with a fraction or an exponent is a float. *)
Definition scan_number (s : string) : option (result Z * string) :=
  match scan_integer s with
  | None => None
  | Some (ds, r) =>
      let after_frac := scan_frac r in
      let r1 := match after_frac with Some r' => r' | None => r end in
      let after_exp := scan_exp r1 in
      let r2 := match after_exp with Some r' => r' | None => r1 end in
      match after_frac, after_exp with
      | None, None => Some (Ok (int_of_str ds), r)
      | _, _ => Some (Raise Unmodelled, r2)
      end
  end.

(** [scan_once]: one value at the start of a text, and the text after it.
    The two loops of [JSONArray] and [JSONObject] are [array_items] and
    [object_items]; [object_items] starts after the opening quote of a
    key.  [fuel] bounds the calls; [loads] gives enough of it, more would
    change no result (lemma [scan_fuel]). *)
Fixpoint scan_once (fuel : nat) (s : string) : result (value * string) :=
  match fuel with
  | O => Raise Unmodelled
  | S n =>
      match s with
      | EmptyString => Raise JSONDecodeError
      | String c r =>
          if Ascii.eqb c dquote then
            xr <- scanstring r ;; Ok (JStr (fst xr), snd xr)
          else if Ascii.eqb c "{" then
            match skip_ws r with
            | String c1 r1 =>
                if Ascii.eqb c1 "}" then Ok (JDict [], r1)
                else if Ascii.eqb c1 dquote then
                  pr <- object_items n r1 ;;
                  Ok (JDict (update [] (fst pr)), snd pr)
                else Raise JSONDecodeError
            | EmptyString => Raise JSONDecodeError
            end
          else if Ascii.eqb c "[" then
            match skip_ws r with
            | String c1 r1 =>
                if Ascii.eqb c1 "]" then Ok (JList [], r1)
                else
                  vr <- array_items n (String c1 r1) ;;
                  Ok (JList (fst vr), snd vr)
            | EmptyString => Raise JSONDecodeError
            end
          else if starts_with "null" s then Ok (JNull, suffix_from 4 s)
          else if starts_with "true" s then Ok (JBool true, suffix_from 4 s)
          else if starts_with "false" s then Ok (JBool false, suffix_from 5 s)
          else
            match scan_number s with
            | Some (Ok z, r') => Ok (JInt z, r')
            | Some (Raise e, _) => Raise e
            | None =>
                if starts_with "NaN" s || starts_with "Infinity" s
                   || starts_with "-Infinity" s
                then Raise Unmodelled
                else Raise JSONDecodeError
            end
      end
  end

with array_items (fuel : nat) (s : string) : result (list value * string) :=
  match fuel with
  | O => Raise Unmodelled
  | S n =>
      vr <- scan_once n s ;;
      match skip_ws (snd vr) with
      | String c r =>
          if Ascii.eqb c "]" then Ok ([fst vr], r)
          else if Ascii.eqb c "," then
            vs <- array_items n (skip_ws r) ;;
            Ok (fst vr :: fst vs, snd vs)
          else Raise JSONDecodeError
      | EmptyString => Raise JSONDecodeError
      end
  end

with object_items (fuel : nat) (s : string)
  : result (list (string * value) * string) :=
  match fuel with
  | O => Raise Unmodelled
  | S n =>
      kr <- scanstring s ;;
      match skip_ws (snd kr) with
      | String c r =>
          if Ascii.eqb c ":" then
            vr <- scan_once n (skip_ws r) ;;
            match skip_ws (snd vr) with
            | String c1 r1 =>
                if Ascii.eqb c1 "}" then Ok ([(fst kr, fst vr)], r1)
                else if Ascii.eqb c1 "," then
                  match skip_ws r1 with
                  | String c2 r2 =>
                      if Ascii.eqb c2 dquote then
                        ps <- object_items n r2 ;;
                        Ok ((fst kr, fst vr) :: fst ps, snd ps)
                      else Raise JSONDecodeError
                  | EmptyString => Raise JSONDecodeError
                  end
                else Raise JSONDecodeError
            | EmptyString => Raise JSONDecodeError
            end
          else Raise JSONDecodeError
      | EmptyString => Raise JSONDecodeError
      end
  end.

(** [json.loads(s)]: white space, one value, white space, the end.  The
    limits of the interpreter are no part of it: Python raises a
    [RecursionError] on a text nested deeper than its recursion limit
    allows, and a [ValueError] on an integer of more than 4300 digits,
    where this function goes on reading. *)
Definition loads (s : string) : result value :=
  let s0 := skip_ws s in
  vr <- scan_once (2 * String.length s0 + 1) s0 ;;
  match skip_ws (snd vr) with
  | EmptyString => Ok (fst vr)
  | String _ _ => Raise JSONDecodeError
  end.

End Json.

Import Json.

(* ================================================================= *)
(** ** The chess library (python-chess)

    Squares are the integers 0..63, [a1] first, rank by rank.  A board is
    the position with its move stack; [chess.Board()] is the starting
    position.  Which moves are legal, what [push] does to a position and
    when the game is over are the library's business: operations of
    the class [Rules].  The engine answers per position: class [Engine]. *)

Module Chess.

Inductive Color : Set := WHITE | BLACK.

Inductive PieceType : Set := PAWN | KNIGHT | BISHOP | ROOK | QUEEN | KING.

Record Piece : Set := mkPiece { piece_type : PieceType; color : Color }.

Definition Square := nat.

(** [chess.square(file_index, rank_index)] *)
Definition square (file_index rank_index : nat) : Square :=
  (rank_index * 8 + file_index)%nat.

Definition square_file (sq : Square) : nat := (sq mod 8)%nat.
Definition square_rank (sq : Square) : nat := (sq / 8)%nat.

(** [chess.square_name(sq)], that is [SQUARE_NAMES[sq]]. *)
Definition square_name (sq : Square) : result string :=
  if (sq <? 64)%nat then
    Ok (String (ascii_of_nat (97 + square_file sq)%nat)
          (String (ascii_of_nat (49 + square_rank sq)%nat) ""))
  else Raise IndexError.

(** [chess.parse_square(name)], that is [SQUARE_NAMES.index(name)]. *)
Definition parse_square (name : string) : result Square :=
  match name with
  | String f (String r EmptyString) =>
      if in_range 97 104 f && in_range 49 56 r
      then Ok (square (nat_of_ascii f - 97)%nat (nat_of_ascii r - 49)%nat)
      else Raise ValueError
  | _ => Raise ValueError
  end.

(** [chess.piece_symbol(piece_type)] *)
Definition piece_symbol (pt : PieceType) : string :=
  match pt with
  | PAWN => "p" | KNIGHT => "n" | BISHOP => "b"
  | ROOK => "r" | QUEEN => "q" | KING => "k"
  end.

(** [PIECE_SYMBOLS.index(c)], the symbol read back. *)
Definition piece_of_symbol (c : ascii) : result PieceType :=
  if Ascii.eqb c "p" then Ok PAWN
  else if Ascii.eqb c "n" then Ok KNIGHT
  else if Ascii.eqb c "b" then Ok BISHOP
  else if Ascii.eqb c "r" then Ok ROOK
  else if Ascii.eqb c "q" then Ok QUEEN
  else if Ascii.eqb c "k" then Ok KING
  else Raise ValueError.

Record Move : Set := mkMove {
  from_square : Square;
  to_square : Square;
  promotion : option PieceType;
  drop : option PieceType
}.

Definition PieceType_eqb (a b : PieceType) : bool :=
  match a, b with
  | PAWN, PAWN | KNIGHT, KNIGHT | BISHOP, BISHOP
  | ROOK, ROOK | QUEEN, QUEEN | KING, KING => true
  | _, _ => false
  end.

Definition option_eqb {A} (eqb : A -> A -> bool) (x y : option A) : bool :=
  match x, y with
  | Some a, Some b => eqb a b
  | None, None => true
  | _, _ => false
  end.

(** [a == b] on moves: all four fields. *)
Definition Move_eqb (a b : Move) : bool :=
  Nat.eqb (from_square a) (from_square b)
  && Nat.eqb (to_square a) (to_square b)
  && option_eqb PieceType_eqb (promotion a) (promotion b)
  && option_eqb PieceType_eqb (drop a) (drop b).

(** [Move.null()] *)
Definition null_move : Move := mkMove 0%nat 0%nat None None.

(** [bool(move)]: false for the null move only. *)
Definition Move_bool (m : Move) : bool :=
  negb (Nat.eqb (from_square m) 0%nat) || negb (Nat.eqb (to_square m) 0%nat)
  || (match promotion m with Some _ => true | None => false end)
  || (match drop m with Some _ => true | None => false end).

(** [move.uci()] *)
Definition uci (m : Move) : result string :=
  match drop m with
  | Some d =>
      t <- square_name (to_square m) ;;
      Ok (upper (piece_symbol d) ++ "@" ++ t)
  | None =>
      match promotion m with
      | Some p =>
          f <- square_name (from_square m) ;;
          t <- square_name (to_square m) ;;
          Ok (f ++ t ++ piece_symbol p)
      | None =>
          if Move_bool m then
            f <- square_name (from_square m) ;;
            t <- square_name (to_square m) ;;
            Ok (f ++ t)
          else Ok "0000"
      end
  end.

Definition as_InvalidMoveError {A} (r : result A) : result A :=
  match r with
  | Raise ValueError => Raise InvalidMoveError
  | _ => r
  end.

(** The branch of [from_uci] for a text of four or five characters that
    is no drop: two square names and, with a fifth character, the symbol
    of the promotion piece. *)
Definition from_uci_squares (c0 c1 c2 c3 : ascii) (c4 : option ascii)
  : result Move :=
  fs <- as_InvalidMoveError (parse_square (String c0 (String c1 ""))) ;;
  ts <- as_InvalidMoveError (parse_square (String c2 (String c3 ""))) ;;
  p <- (match c4 with
        | Some c => as_InvalidMoveError (pt <- piece_of_symbol c ;; Ok (Some pt))
        | None => Ok None
        end) ;;
  if Nat.eqb fs ts then Raise InvalidMoveError
  else Ok (mkMove fs ts p None).

(** [chess.Move.from_uci(uci)]: the null move [0000]; a drop, four
    characters with [@] second; a move, four or five characters; any
    other text is an [InvalidMoveError]. *)
Definition from_uci (u : string) : result Move :=
  if String.eqb u "0000" then Ok null_move
  else
    match u with
    | String c0 (String c1 (String c2 (String c3 EmptyString))) =>
        if Ascii.eqb c1 "@" then
          as_InvalidMoveError
            (d <- piece_of_symbol (lower_char c0) ;;
             sq <- parse_square (String c2 (String c3 "")) ;;
             Ok (mkMove sq sq None (Some d)))
        else from_uci_squares c0 c1 c2 c3 None
    | String c0 (String c1 (String c2 (String c3 (String c4 EmptyString)))) =>
        from_uci_squares c0 c1 c2 c3 (Some c4)
    | _ => Raise InvalidMoveError
    end.

(** A position with its history.  [pieces] lists the 64 squares from
    [a1]; [castling_rights] lists the squares of the rooks that may still
    castle. *)
Record Board : Type := mkBoard {
  pieces : list (option Piece);
  turn : Color;
  castling_rights : list Square;
  ep_square : option Square;
  halfmove_clock : nat;
  fullmove_number : nat;
  move_stack : list Move
}.

(** [board.piece_at(sq)] *)
Definition piece_at (b : Board) (sq : Square) : option Piece :=
  nth sq (pieces b) None.

Definition back_rank : list PieceType :=
  [ROOK; KNIGHT; BISHOP; QUEEN; KING; BISHOP; KNIGHT; ROOK].

(** [chess.Board()]: the starting position, no move made. *)
Definition starting_board : Board :=
  mkBoard
    (map (fun pt => Some (mkPiece pt WHITE)) back_rank
     ++ repeat (Some (mkPiece PAWN WHITE)) 8
     ++ repeat None 32
     ++ repeat (Some (mkPiece PAWN BLACK)) 8
     ++ map (fun pt => Some (mkPiece pt BLACK)) back_rank)
    WHITE [0; 7; 56; 63]%nat None 0%nat 1%nat [].

(** The rules of the game, as the library decides them. *)
Class Rules : Type := {
  (** [list(board.legal_moves)], in the order the library generates. *)
  legal_moves : Board -> list Move;
  (** [move in board.legal_moves] *)
  is_legal : Board -> Move -> bool;
  (** the board after [board.push(move)] *)
  push : Board -> Move -> Board;
  (** [board.is_game_over()] *)
  is_game_over : Board -> bool
}.

(** The UCI engine, one answer per position. *)
Class Engine : Type := {
  (** [engine.analyse(board, Limit(time=0.1))['score'].relative.score(mate_score=10000)] *)
  analyse : Board -> result Z
}.

(** Taking a move back, as the library does it. *)
Class Undo : Type := {
  (** the board after [board.pop()]; an [IndexError] on an empty move
      stack, which leaves the board as it is *)
  pop : Board -> result Board
}.

End Chess.

Import Chess.

(* ================================================================= *)
(** ** chessai_utils.py *)

Module ChessNotationConverter.

(** [square_to_coordinates(square_name)] *)
Definition square_to_coordinates (square_name : string) : result (Z * Z) :=
  c0 <- index square_name 0 ;;
  u <- ord_upper c0 ;;
  let col := u - ord "A" in
  c1 <- index square_name 1 ;;
  d <- int_of_char c1 ;;
  let row := 8 - d in
  Ok (row, col).

(** [square_to_coordinates] on a string given by its code points, as
    [upper_points] gives them. *)
Definition square_to_coordinates_of_points (square_name : list Z) : result (Z * Z) :=
  p0 <- item square_name 0 ;;
  u <- upper_point p0 ;;
  let col := u - ord "A" in
  p1 <- item square_name 1 ;;
  d <- int_of_point p1 ;;
  let row := 8 - d in
  Ok (row, col).

(** [coordinates_to_square(row, col)] *)
Definition coordinates_to_square (row col : Z) : result string :=
  file <- chr (ord "A" + col) ;;
  let rank := str_of_int (8 - row) in
  Ok (String file rank).

(** [uci_to_readable(uci_move)] *)
Definition uci_to_readable (uci_move : string) : result string :=
  if (4 <=? String.length uci_move)%nat then
    from_square <- str_upper (slice uci_move 0 2) ;;
    to_square <- str_upper (slice uci_move 2 4) ;;
    Ok (from_square ++ "-" ++ to_square)
  else str_upper uci_move.

End ChessNotationConverter.

Module GameValidator.

(** ['A' <= file <= 'H'] on a string of one character. *)
Definition between (lo hi c : ascii) : bool :=
  (ord lo <=? ord c) && (ord c <=? ord hi).

(** [is_valid_square(square_name)].  The comparison of [file] is one of
    strings; on a character below 256 whose capital is one character it is
    the comparison of the code points, and the capitals of the three
    others are not between ['A'] and ['H'].  Above 255 there are
    characters Python accepts as a file: the ligatures whose capital is
    two or three letters starting with [F]. *)
Definition is_valid_square (square_name : string) : bool :=
  match square_name with
  | String f (String rank EmptyString) =>
      let file := upper_char f in
      between "A" "H" file && between "1" "8" rank
  | _ => false
  end.

(** [is_valid_move_format(move_str)] *)
Definition is_valid_move_format (move_str : string) : bool :=
  if (String.length move_str <? 4)%nat then false
  else
    let from_square := slice move_str 0 2 in
    let to_square := slice move_str 2 4 in
    is_valid_square from_square && is_valid_square to_square.

(** [validate_board_setup(matrix)], its first component. *)
Definition validate_board_setup (matrix : list (list Z)) : bool :=
  if negb (Nat.eqb (List.length matrix) 8) then false
  else if negb (forallb (fun row =>
                  Nat.eqb (List.length row) 8
                  && forallb (fun cell => (cell =? 0) || (cell =? 1)) row) matrix)
  then false
  else
    let total_pieces := fold_right Z.add 0 (map (fold_right Z.add 0) matrix) in
    total_pieces =? 32.

End GameValidator.

(** [[cell for row in matrix for cell in row]] *)
Definition flatten (matrix : list (list Z)) : list Z := concat matrix.

Module CommunicationProtocol.

(** [create_message(msg_type, data)]; [now] is [int(time.time())].
    [{'type': ..., 'timestamp': ..., **data}]: a key of [data] named
    [type] or [timestamp] replaces the one written first. *)
Definition create_message (now : Z) (msg_type : string) (data : dict) : string :=
  let message :=
    update [("type", JStr msg_type); ("timestamp", JInt now)] data in
  dumps (JDict message).

(** [parse_message(json_str)]: [None] on a [json.JSONDecodeError]. *)
Definition parse_message (json_str : string) : result (option value) :=
  match loads (strip json_str) with
  | Ok v => Ok (Some v)
  | Raise JSONDecodeError => Ok None
  | Raise e => Raise e
  end.

(** [create_board_matrix_message(matrix)] *)
Definition create_board_matrix_message (now : Z) (matrix : list (list Z)) : string :=
  let flat_matrix := flatten matrix in
  create_message now "board_matrix" [("matrix", JList (map JInt flat_matrix))].

(** [create_move_options_message(best_move, alternatives)] *)
Definition create_move_options_message (now : Z) (best_move : string)
    (alternatives : list string) : string :=
  create_message now "move_options"
    [("best_move", JStr best_move); ("alternatives", JList (map JStr alternatives))].

(** [create_ai_move_message(from_square, to_square)] *)
Definition create_ai_move_message (now : Z) (from_square to_square : string) : string :=
  create_message now "ai_move" [("from", JStr from_square); ("to", JStr to_square)].

End CommunicationProtocol.

Module LEDController.

(** [led_states]: a dictionary from [(row, col)] to the colour of the LED,
    its keys in the order of their insertion. *)
Definition states : Type := list ((Z * Z) * string).

Definition key_eqb (a b : Z * Z) : bool :=
  (fst a =? fst b) && (snd a =? snd b).

(** [d.get(key)] *)
Fixpoint lookup (d : states) (key : Z * Z) : option string :=
  match d with
  | [] => None
  | (k, v) :: r => if key_eqb k key then Some v else lookup r key
  end.

(** [d[key] = v]: a key already present keeps its place. *)
Fixpoint set (d : states) (key : Z * Z) (v : string) : states :=
  match d with
  | [] => [(key, v)]
  | (k, w) :: r =>
      if key_eqb k key then (k, v) :: r else (k, w) :: set r key v
  end.

Record t : Type := mk { led_states : states }.

(** The two loops of [__init__] and of [clear_all]: every LED of the
    board set to ['off'], row by row. *)
Definition all_off (d : states) : states :=
  fold_left
    (fun d row => fold_left (fun d col => set d (row, col) "off") (range 8) d)
    (range 8) d.

(** [LEDController()] *)
Definition init : t := mk (all_off []).

(** [set_led(row, col, color)].  What it prints is left out, like the
    logging; for a LED of the board [coordinates_to_square] raises
    nothing. *)
Definition set_led (self : t) (row col : Z) (color : string) : t :=
  if (0 <=? row) && (row <? 8) && (0 <=? col) && (col <? 8)
  then mk (set (led_states self) (row, col) color)
  else self.

(** [clear_all()] *)
Definition clear_all (self : t) : t := mk (all_off (led_states self)).

(** A method ends normally or lets an exception out; the LEDs set before
    the exception stay set. *)
Definition outcome : Type := t * option exn.

(** What [show_move_options] does with its best move and with each
    alternative: a text of four characters or more lights the LED of its
    third and fourth characters; a shorter text is passed over. *)
Definition light (self : t) (move : string) (color : string) : outcome :=
  if (4 <=? String.length move)%nat then
    let to_square := upper_points (slice move 2 4) in
    match ChessNotationConverter.square_to_coordinates_of_points to_square with
    | Ok (row, col) => (set_led self row col color, None)
    | Raise e => (self, Some e)
    end
  else (self, None).

(** The loop over the alternatives. *)
Fixpoint light_each (self : t) (alternatives : list string) : outcome :=
  match alternatives with
  | [] => (self, None)
  | alt_move :: rest =>
      match light self alt_move "yellow" with
      | (self, None) => light_each self rest
      | (self, Some e) => (self, Some e)
      end
  end.

(** [show_move_options(best_move, alternatives)] *)
Definition show_move_options (self : t) (best_move : string)
    (alternatives : list string) : outcome :=
  let self := clear_all self in
  match light self best_move "green" with
  | (self, None) => light_each self alternatives
  | (self, Some e) => (self, Some e)
  end.

(** [show_ai_move(from_square, to_square)]: both names are converted
    before a LED is set. *)
Definition show_ai_move (self : t) (from_square to_square : string) : outcome :=
  match ChessNotationConverter.square_to_coordinates from_square with
  | Raise e => (self, Some e)
  | Ok (from_row, from_col) =>
      match ChessNotationConverter.square_to_coordinates to_square with
      | Raise e => (self, Some e)
      | Ok (to_row, to_col) =>
          let self := set_led self from_row from_col "blue_solid" in
          (set_led self to_row to_col "blue_blink", None)
      end
  end.

End LEDController.

Module TestUtilities.

(** [create_test_board_matrix()] *)
Definition create_test_board_matrix : list (list Z) :=
  [ [1; 1; 1; 1; 1; 1; 1; 1];
    [1; 1; 1; 1; 1; 1; 1; 1];
    [0; 0; 0; 0; 0; 0; 0; 0];
    [0; 0; 0; 0; 0; 0; 0; 0];
    [0; 0; 0; 0; 0; 0; 0; 0];
    [0; 0; 0; 0; 0; 0; 0; 0];
    [1; 1; 1; 1; 1; 1; 1; 1];
    [1; 1; 1; 1; 1; 1; 1; 1] ].

End TestUtilities.

(** The loop shared by [BoardStateManager.get_board_matrix] and
    [ChessAIServer.get_initial_board_matrix]: ranks 8 down to 1, files a
    to h, 1 where [piece_at] finds a piece. *)
Definition occupancy_row (b : Board) (rank : nat) : list Z :=
  map (fun file =>
         let sq := square file (rank - 1) in
         match piece_at b sq with Some _ => 1 | None => 0 end)
      (seq 0 8).

Definition occupancy_matrix (b : Board) : list (list Z) :=
  map (occupancy_row b) (rev (seq 1 8)).

Module BoardStateManager.

Record t : Type := mk {
  current_state : Board;
  move_history : list string
}.

(** [BoardStateManager()] *)
Definition init : t := mk starting_board [].

Section WithRules.
Context {rules : Rules}.

(** [update_board(move_uci)]: the manager afterwards and the value
    returned. *)
Definition update_board (self : t) (move_uci : string) : t * bool :=
  match from_uci move_uci with
  | Ok move =>
      if is_legal (current_state self) move then
        (mk (push (current_state self) move) (move_history self ++ [move_uci]),
         true)
      else (self, false)
  | Raise _ => (self, false)   (* [from_uci] raises [ValueError]s only *)
  end.

End WithRules.

Section WithUndo.
Context {undo : Undo}.

(** [undo_last_move()]: the manager afterwards and the value returned.
    The bare [except] catches what [pop] raises, before the history is
    touched. *)
Definition undo_last_move (self : t) : t * bool :=
  match move_history self with
  | [] => (self, false)
  | _ :: _ =>
      match pop (current_state self) with
      | Ok b => (mk b (removelast (move_history self)), true)
      | Raise _ => (self, false)
      end
  end.

End WithUndo.

(** [get_board_matrix()] *)
Definition get_board_matrix (self : t) : list (list Z) :=
  occupancy_matrix (current_state self).

(** The body of the loop of [get_piece_positions], for one square: the
    two lists so far and the two lists afterwards. *)
Definition note_piece (b : Board) (lists : list string * list string)
    (square : Square) : result (list string * list string) :=
  match piece_at b square with
  | Some piece =>
      name <- Chess.square_name square ;;
      let square_name := upper name in
      match color piece with
      | WHITE => Ok ((fst lists ++ [square_name])%list, snd lists)
      | BLACK => Ok (fst lists, (snd lists ++ [square_name])%list)
      end
  | None => Ok lists
  end.

(** [get_piece_positions()]: the lists under the keys [white] and [black]
    of the dictionary returned; [chess.SQUARES] is [range(64)]. *)
Definition get_piece_positions (self : t) : result (list string * list string) :=
  fold_left (fun acc square => lists <- acc ;; note_piece (current_state self) lists square)
            (seq 0 64) (Ok ([], [])).

End BoardStateManager.

(* ================================================================= *)
(** ** raspberry_chessai.py: ChessAIServer *)

Module ChessAIServer.

(** The fields of the server the handlers read or write.  [serial_open]
    is [self.serial_connection and self.serial_connection.is_open];
    [written] is what was written to the connection, oldest first. *)
Record t : Type := mk {
  serial_open : bool;
  written : list string;
  board : Board;
  game_started : bool;
  waiting_for_move : bool;
  current_player_move : option string
}.

(** The state [__init__] leaves. *)
Definition init : t := mk false [] starting_board false false None.

Definition set_board (self : t) (b : Board) : t :=
  mk (serial_open self) (written self) b (game_started self)
     (waiting_for_move self) (current_player_move self).

Definition set_game_started (self : t) (v : bool) : t :=
  mk (serial_open self) (written self) (board self) v
     (waiting_for_move self) (current_player_move self).

Definition set_waiting_for_move (self : t) (v : bool) : t :=
  mk (serial_open self) (written self) (board self) (game_started self)
     v (current_player_move self).

Definition set_current_player_move (self : t) (v : option string) : t :=
  mk (serial_open self) (written self) (board self) (game_started self)
     (waiting_for_move self) v.

Definition write (self : t) (frame : string) : t :=
  mk (serial_open self) (written self ++ [frame]) (board self)
     (game_started self) (waiting_for_move self) (current_player_move self).

Definition newline : string := String "010" "".

(** [json.dumps(message) + '\n'] *)
Definition frame (message : dict) : string :=
  dumps (JDict message) ++ newline.

(** [send_json_message(message)]: nothing is written when the connection
    is not open; so for a write that raises, which the method catches. *)
Definition send_json_message (self : t) (message : dict) : t :=
  if serial_open self then write self (frame message) else self.

(** [send_board_matrix(matrix)] *)
Definition send_board_matrix (self : t) (matrix : list (list Z)) : t :=
  let flat_matrix := flatten matrix in
  let message :=
    [("type", JStr "board_matrix"); ("matrix", JList (map JInt flat_matrix))] in
  send_json_message self message.

(** [[f(x) for x in l]] where [f] can raise. *)
Fixpoint map_result {A B} (f : A -> result B) (l : list A) : result (list B) :=
  match l with
  | [] => Ok []
  | x :: r => y <- f x ;; ys <- map_result f r ;; Ok (y :: ys)
  end.

(** The text a move has in a message: [move.uci().upper()]. *)
Definition wire_form (move : Move) : result string :=
  u <- uci move ;; Ok (upper u).

(** [send_move_options(best_move, alternatives)]: the server afterwards, or
    the exception that leaves the method. *)
Definition send_move_options (self : t) (best_move : Move)
    (alternatives : list Move) : result t :=
  best_move_str <- wire_form best_move ;;
  alternatives_str <- map_result wire_form (firstn 4 alternatives) ;;
  let message :=
    [("type", JStr "move_options"); ("best_move", JStr best_move_str);
     ("alternatives", JList (map JStr alternatives_str))] in
  Ok (send_json_message self message).

(** [send_ai_move(from_square, to_square)] *)
Definition send_ai_move (self : t) (from_square to_square : string) : t :=
  let message :=
    [("type", JStr "ai_move"); ("from", JStr from_square); ("to", JStr to_square)] in
  send_json_message self message.

(** [get_initial_board_matrix()] *)
Definition get_initial_board_matrix (self : t) : list (list Z) :=
  occupancy_matrix (board self).

(** [handle_game_start()] *)
Definition handle_game_start (self : t) : t :=
  let self := set_board self starting_board in
  let self := set_game_started self true in
  let self := set_waiting_for_move self false in
  let board_matrix := get_initial_board_matrix self in
  send_board_matrix self board_matrix.

(** [handle_game_over()] *)
Definition handle_game_over (self : t) : t :=
  set_game_started self false.

Section WithRules.
Context {rules : Rules}.

(** [get_possible_moves_from_square(square)] *)
Definition get_possible_moves_from_square (self : t) (square : Square) : list Move :=
  filter (fun move => Nat.eqb (from_square move) square) (legal_moves (board self)).

(** [handle_ai_move_confirmed()] *)
Definition handle_ai_move_confirmed (self : t) : t :=
  let self := set_waiting_for_move self false in
  if is_game_over (board self) then handle_game_over self else self.

Section WithEngine.
Context {engine : Engine}.

(** [best_score]: [float('-inf')] before the first candidate, an [int]
    afterwards. *)
Inductive score : Set := NegInf | Score (z : Z).

(** [score > best_score] *)
Definition score_gt (s : Z) (best_score : score) : bool :=
  match best_score with
  | NegInf => true
  | Score b => b <? s
  end.

(** The loop of [get_best_move_from_options] over the candidates left:
    the board it leaves and the best move, or the exception raised.  A
    candidate is pushed, the position analysed and the move popped; when
    the analysis raises, the pushed move stays on the board. *)
Fixpoint evaluate (b : Board) (moves : list Move) (best_move : Move)
    (best_score : score) : Board * result Move :=
  match moves with
  | [] => (b, Ok best_move)
  | move :: rest =>
      let pushed := push b move in
      match analyse pushed with
      | Raise e => (pushed, Raise e)
      | Ok s =>
          if score_gt s best_score
          then evaluate b rest move (Score s)
          else evaluate b rest best_move best_score
      end
  end.

(** [get_best_move_from_options(moves)]: [None] for no candidate;
    [moves[0]] when anything raised. *)
Definition get_best_move_from_options (self : t) (moves : list Move)
  : t * option Move :=
  match moves with
  | [] => (self, None)
  | first :: _ =>
      match evaluate (board self) moves first NegInf with
      | (b, Ok best_move) => (set_board self b, Some best_move)
      | (b, Raise _) => (set_board self b, Some first)
      end
  end.

(** A handler ends normally or lets an exception out; the fields written
    before the exception stay written. *)
Definition outcome : Type := t * option exn.

(** [handle_player_move_origin(data)] *)
Definition handle_player_move_origin (self : t) (data : dict) : outcome :=
  let from_square := get data "from" (JStr "") in
  if negb (truthy from_square) then (self, None)
  else
    match from_square with
    | JStr from_sq =>
        match parse_square (lower from_sq) with
        | Raise e => (self, if is_ValueError e then None else Some e)
        | Ok square =>
            match piece_at (board self) square with
            | None => (self, None)
            | Some piece =>
                match color piece, turn (board self) with
                | WHITE, WHITE =>
                    let possible_moves := get_possible_moves_from_square self square in
                    match possible_moves with
                    | [] => (self, None)
                    | _ :: _ =>
                        match get_best_move_from_options self possible_moves with
                        | (self, Some best_move) =>
                            let alternatives :=
                              firstn 3 (filter (fun move => negb (Move_eqb move best_move))
                                               possible_moves) in
                            match send_move_options self best_move alternatives with
                            | Raise e => (self, if is_ValueError e then None else Some e)
                            | Ok self =>
                                let self := set_current_player_move self (Some from_sq) in
                                (set_waiting_for_move self true, None)
                            end
                        | (self, None) => (self, Some AttributeError)
                        end
                    end
                | _, _ => (self, None)
                end
            end
        end
    | _ => (self, Some AttributeError)
    end.

(** [handle_player_move_complete(data)].  The loop that logs the legal
    moves of an illegal attempt changes no field; a [ValueError] it may
    raise is caught like that of [from_uci].

    The class has no method [calculate_and_send_ai_move]: its [def] is in
    the comment that ends line 500, and the statements after it, which
    would ask the engine for a move and send it, are statements of
    [get_best_move_from_options] that no path reaches, after a [try] whose
    every branch returns.  So the call raises an [AttributeError], which
    [except ValueError] lets out; the move stays pushed and the last
    statement of the handler is not reached. *)
Definition handle_player_move_complete (self : t) (data : dict) : outcome :=
  let from_square := get data "from" (JStr "") in
  let to_square := get data "to" (JStr "") in
  if negb (truthy from_square) || negb (truthy to_square) then (self, None)
  else
    match from_square, to_square with
    | JStr from_sq, JStr to_sq =>
        let move_uci := lower from_sq ++ lower to_sq in
        match from_uci move_uci with
        | Raise e =>
            if is_ValueError e then (set_waiting_for_move self false, None)
            else (self, Some e)
        | Ok move =>
            if is_legal (board self) move then
              let self := set_board self (push (board self) move) in
              if is_game_over (board self) then (handle_game_over self, None)
              else (self, Some AttributeError)
            else (set_waiting_for_move self false, None)
        end
    | _, _ => (self, Some AttributeError)
    end.

(** The body of [process_received_message] once the frame is decoded:
    [data.get('type', '')] and the chain of [if]/[elif]; the handler's
    exception, if any, is caught and logged. *)
Definition dispatch (self : t) (data : value) : t :=
  match data with
  | JDict d =>
      let message_type := get d "type" (JStr "") in
      if is_str message_type "game_start" then handle_game_start self
      else if is_str message_type "player_move" then
        fst (handle_player_move_origin self d)
      else if is_str message_type "player_move_complete" then
        fst (handle_player_move_complete self d)
      else if is_str message_type "ai_move_confirmed" then
        handle_ai_move_confirmed self
      else self
  | _ => self   (* [data.get] raises [AttributeError] *)
  end.

(** [process_received_message(message)]: a frame that is not JSON is
    logged and dropped. *)
Definition process_received_message (self : t) (message : string) : result t :=
  match loads message with
  | Ok data => Ok (dispatch self data)
  | Raise JSONDecodeError => Ok self
  | Raise e => Raise e
  end.

(** One turn of the loop of [serial_listener] with a line waiting: [raw]
    is [readline().decode('utf-8')].  A line that is blank once stripped
    is passed over. *)
Definition serial_listener_turn (self : t) (raw : string) : result t :=
  let line := strip raw in
  match line with
  | EmptyString => Ok self
  | String _ _ => process_received_message self line
  end.

(** The loop of [serial_listener] over the lines read, in the order of
    their arrival. *)
Fixpoint serial_listener (self : t) (lines : list string) : result t :=
  match lines with
  | [] => Ok self
  | raw :: rest =>
      self <- serial_listener_turn self raw ;; serial_listener self rest
  end.

End WithEngine.
End WithRules.

End ChessAIServer.

(* ================================================================= *)
(** ** A small instance of the collaborators

    [Rules] and [Engine] are instantiated here to run the server at
    concrete positions: the pawn advances and knight jumps of the side to
    move (on the starting position, the twenty legal moves of chess), and
    an engine that scores a position by material. *)

Module Demo.

Local Open Scope nat_scope.

Definition Color_eqb (a b : Color) : bool :=
  match a, b with
  | WHITE, WHITE | BLACK, BLACK => true
  | _, _ => false
  end.

Definition holds (b : Board) (sq : Square) (pt : PieceType) (c : Color) : bool :=
  match piece_at b sq with
  | Some p => PieceType_eqb (piece_type p) pt && Color_eqb (color p) c
  | None => false
  end.

Definition empty (b : Board) (sq : Square) : bool :=
  match piece_at b sq with Some _ => false | None => true end.

Definition plain (f t : Square) : Move := mkMove f t None None.

Definition e2 : Square := 12.
Definition e7 : Square := 52.
Definition e2e3 : Move := plain 12 20.
Definition e2e4 : Move := plain 12 28.
Definition e7e8q : Move := mkMove 52 60 (Some QUEEN) None.

Definition pawn_moves (b : Board) (sq : Square) : list Move :=
  match turn b with
  | WHITE =>
      if (sq + 8 <? 64) && empty b (sq + 8) then
        plain sq (sq + 8)
        :: (if Nat.eqb (square_rank sq) 1 && empty b (sq + 16)
            then [plain sq (sq + 16)] else [])
      else []
  | BLACK =>
      if (8 <=? sq) && empty b (sq - 8) then
        plain sq (sq - 8)
        :: (if Nat.eqb (square_rank sq) 6 && empty b (sq - 16)
            then [plain sq (sq - 16)] else [])
      else []
  end.

Definition knight_jumps : list (Z * Z) :=
  [(1, 2); (2, 1); (2, -1); (1, -2); (-1, -2); (-2, -1); (-2, 1); (-1, 2)]%Z.

Definition knight_moves (b : Board) (sq : Square) : list Move :=
  flat_map
    (fun d =>
       let f := (Z.of_nat (square_file sq) + fst d)%Z in
       let r := (Z.of_nat (square_rank sq) + snd d)%Z in
       if ((0 <=? f) && (f <? 8) && (0 <=? r) && (r <? 8))%Z then
         let t := square (Z.to_nat f) (Z.to_nat r) in
         match piece_at b t with
         | Some p => if Color_eqb (color p) (turn b) then [] else [plain sq t]
         | None => [plain sq t]
         end
       else [])
    knight_jumps.

Definition moves_from (b : Board) (sq : Square) : list Move :=
  if holds b sq PAWN (turn b) then pawn_moves b sq
  else if holds b sq KNIGHT (turn b) then knight_moves b sq
  else [].

Definition demo_legal_moves (b : Board) : list Move :=
  flat_map (moves_from b) (seq 0 64).

Fixpoint put {A} (l : list A) (i : nat) (x : A) : list A :=
  match l, i with
  | [], _ => []
  | _ :: r, O => x :: r
  | y :: r, S j => y :: put r j x
  end.

Definition demo_push (b : Board) (m : Move) : Board :=
  let moved := piece_at b (from_square m) in
  mkBoard (put (put (pieces b) (from_square m) None) (to_square m) moved)
    (match turn b with WHITE => BLACK | BLACK => WHITE end)
    (castling_rights b) None (S (halfmove_clock b))
    (match turn b with WHITE => fullmove_number b | BLACK => S (fullmove_number b) end)
    (move_stack b ++ [m]).

#[export] Instance rules : Rules := {|
  legal_moves := demo_legal_moves;
  is_legal := fun b m => existsb (Move_eqb m) (demo_legal_moves b);
  push := demo_push;
  is_game_over := fun b => match demo_legal_moves b with [] => true | _ => false end
|}.

Definition worth (pt : PieceType) : Z :=
  match pt with
  | PAWN => 100 | KNIGHT => 300 | BISHOP => 300
  | ROOK => 500 | QUEEN => 900 | KING => 0
  end%Z.

Definition material (b : Board) (c : Color) : Z :=
  fold_right Z.add 0%Z
    (map (fun o => match o with
                   | Some p => if Color_eqb (color p) c then worth (piece_type p) else 0%Z
                   | None => 0%Z
                   end) (pieces b)).

#[export] Instance engine : Engine := {|
  analyse := fun b =>
    Ok (material b (turn b)
        - material b (match turn b with WHITE => BLACK | BLACK => WHITE end))%Z
|}.

(** An engine that cannot be reached: every request raises. *)
Definition no_engine : Engine := {|
  analyse := fun _ => Raise EngineError
|}.

(** Taking a move back: every board of the program starts from
    [chess.Board()], so the board before the last move is the starting
    position with the moves before it played again. *)
Definition demo_pop (b : Board) : result Board :=
  match move_stack b with
  | [] => Raise IndexError
  | _ :: _ => Ok (fold_left demo_push (removelast (move_stack b)) starting_board)
  end.

#[export] Instance undo : Undo := {| pop := demo_pop |}.

End Demo.

(* ================================================================= *)
(** * The notions the properties speak of

    What the statements below need besides the program: the words of the
    specification, the measures of the proofs, and the concrete servers
    and messages the statements are tried on. *)

Import ChessNotationConverter.
Import CommunicationProtocol.

(** A valid square name in the words of the specification: one letter
    A to H followed by one digit 1 to 8. *)
Definition is_square_name (name : string) : bool :=
  match name with
  | String f (String r EmptyString) => in_range 65 72 f && in_range 49 56 r
  | _ => false
  end.

(** Case analysis on the 256 characters. *)
Ltac each_ascii c :=
  destruct c as [[] [] [] [] [] [] [] []].

(** [sum(cells)] *)
Definition sum (l : list Z) : Z := fold_right Z.add 0 l.

(** An entry of the occupancy matrix: 0 or 1. *)
Definition is_bit (c : Z) : Prop := c = 0 \/ c = 1.

(** What a promotion adds to the text of a move: the letter of the piece,
    upper-cased. *)
Definition promotion_suffix (move : Move) : string :=
  match promotion move with
  | Some p => upper (piece_symbol p)
  | None => ""
  end.

(** How [json.loads] fails here: by its own exception, or on a text
    outside the model. *)
Definition json_exn (e : exn) : Prop := e = JSONDecodeError \/ e = Unmodelled.

(** A text at which a number ends: it does not go on with a digit, a
    point or an exponent. *)
Definition ends_number (rest : string) : bool :=
  match rest with
  | EmptyString => true
  | String c _ =>
      negb (is_digit c || Ascii.eqb c "." || Ascii.eqb c "e" || Ascii.eqb c "E")
  end.

(** The keys of a dictionary are all different. *)
Fixpoint unique_keys (keys : list string) : bool :=
  match keys with
  | [] => true
  | k :: r => negb (existsb (String.eqb k) r) && unique_keys r
  end.

(** The values that stand for Python values: no dictionary holds a key
    twice. *)
Fixpoint well_formed (v : value) : bool :=
  match v with
  | JList l => forallb well_formed l
  | JDict d =>
      unique_keys (map fst d) && forallb (fun kv => well_formed (snd kv)) d
  | _ => true
  end.

(** Fuel that is enough to read a value back. *)
Fixpoint size (v : value) : nat :=
  match v with
  | JList l => S (list_sum (map (fun x => S (size x)) l))
  | JDict d => S (list_sum (map (fun kv => S (size (snd kv))) d))
  | _ => 1
  end.

(** What the text of a value starts with: no white space, no closing
    bracket. *)
Definition opens_value (c : ascii) : bool :=
  negb (is_ws c) && negb (Ascii.eqb c "]") && negb (Ascii.eqb c "}").

(** The text of the elements of a list, and of the members of a
    dictionary after the opening quote of the first key. *)
Definition elements (l : list value) : string := join (map encode l).

Fixpoint members (d : dict) : string :=
  match d with
  | [] => ""
  | (k, v) :: r =>
      escape k ++ String dquote (": " ++ encode v
        ++ match r with
           | [] => ""
           | _ :: _ => ", " ++ String dquote (members r)
           end)
  end.

(** A value is read back from its text, whatever follows the text, when
    it stands for a Python value and the fuel is enough. *)
Definition reads_back (v : value) : Prop :=
  well_formed v = true ->
  forall fuel rest,
    ends_number rest = true -> (size v <= fuel)%nat ->
    scan_once fuel (encode v ++ rest) = Ok (v, rest).





(** [c in s] *)
Fixpoint contains (c : ascii) (s : string) : bool :=
  match s with
  | EmptyString => false
  | String a r => Ascii.eqb a c || contains c r
  end.

(** The character that ends a frame. *)
Definition line_feed : ascii := "010".

(** A move text is legal on a board when [from_uci] reads a move from it
    and the library finds that move among the legal ones. *)
Definition legal_uci {rules : Rules} (b : Board) (move_uci : string) : bool :=
  match from_uci move_uci with
  | Ok move => is_legal b move
  | Raise _ => false
  end.

(** The states of the specification, read off the two flags of the
    server.  The flags do not tell [AwaitingOpponentAck] from
    [AwaitingOrigin], nor [Over] from [Idle]. *)
Inductive SessionState : Set := Idle | AwaitingOrigin | AwaitingDestination.

Definition session_state (self : ChessAIServer.t) : SessionState :=
  if ChessAIServer.waiting_for_move self then AwaitingDestination
  else if ChessAIServer.game_started self then AwaitingOrigin
  else Idle.

(** A text between two quotation marks. *)
Definition quoted (s : string) : string := String dquote (s ++ String dquote "").

(** The frame [handle_game_start] sends, character by character: the JSON
    text of the message, with the 64 cells of the starting position from
    rank 8 down to rank 1, and the line feed that ends it. *)
Definition board_matrix_frame : string :=
  "{" ++ quoted "type" ++ ": " ++ quoted "board_matrix" ++ ", "
  ++ quoted "matrix" ++ ": ["
  ++ "1, 1, 1, 1, 1, 1, 1, 1, 1, 1, 1, 1, 1, 1, 1, 1, "
  ++ "0, 0, 0, 0, 0, 0, 0, 0, 0, 0, 0, 0, 0, 0, 0, 0, "
  ++ "0, 0, 0, 0, 0, 0, 0, 0, 0, 0, 0, 0, 0, 0, 0, 0, "
  ++ "1, 1, 1, 1, 1, 1, 1, 1, 1, 1, 1, 1, 1, 1, 1, 1"
  ++ "]}" ++ String line_feed "".

(** The message that frame carries. *)
Definition board_matrix_message : dict :=
  [("type", JStr "board_matrix");
   ("matrix", JList (map JInt (flatten (occupancy_matrix starting_board))))].




(** The server as [start_server] leaves it: connection open, no game yet. *)
Definition idle_server : ChessAIServer.t :=
  ChessAIServer.mk true [] starting_board false false None.

(** The messages of the device, as dictionaries. *)
Definition game_start_message : dict := [("type", JStr "game_start")].

Definition move_complete_message (from_sq to_sq : string) : dict :=
  [("type", JStr "player_move_complete"); ("from", JStr from_sq); ("to", JStr to_sq)].

(** The score each candidate gets: the engine's answer on the position
    after the candidate, in the order of the candidates. *)
Definition candidate_scores {rules : Rules} {engine : Engine}
    (b : Board) (moves : list Move) : result (list Z) :=
  ChessAIServer.map_result (fun move => analyse (push b move)) moves.

(** Picks the case of a disjunction of equalities. *)
Ltac pick_disjunct := repeat first [reflexivity | left; reflexivity | right].

(** [matrix[row][col]] *)
Definition cell (matrix : list (list Z)) (row col : Z) : result Z :=
  r <- item matrix row ;; item r col.

(** 1 for an occupied square, 0 for an empty one. *)
Definition occupied (b : Board) (sq : Square) : Z :=
  match piece_at b sq with Some _ => 1 | None => 0 end.

(** The squares in the order of the occupancy matrix: rank 8 first. *)
Definition matrix_order : list Square :=
  flat_map (fun rank => map (fun file => square file (rank - 1)) (seq 0 8))
           (rev (seq 1 8)).

(** The names [get_piece_positions] lists for one colour, from the squares
    it visits. *)
Definition names_of (b : Board) (c : Color) (squares : list Square) : list string :=
  flat_map
    (fun sq =>
       match piece_at b sq, square_name sq with
       | Some piece, Ok name =>
           match color piece, c with
           | WHITE, WHITE | BLACK, BLACK => [upper name]
           | _, _ => []
           end
       | _, _ => []
       end) squares.

(** A text [from_uci] reads a move from. *)
Definition reads_as_move (move_uci : string) : Prop :=
  exists move, from_uci move_uci = Ok move.

(** The keys of [led_states], in the order of the dictionary. *)
Definition led_keys (self : LEDController.t) : list (Z * Z) :=
  map fst (LEDController.led_states self).

(** The coordinates of the 64 LEDs, row by row. *)
Definition board_keys : list (Z * Z) :=
  flat_map (fun row => map (fun col => (row, col)) (range 8)) (range 8).

(** [led_states.get((row, col))] *)
Definition led (self : LEDController.t) (row col : Z) : option string :=
  LEDController.lookup (LEDController.led_states self) (row, col).

(** [0 <= row < 8 and 0 <= col < 8] *)
Definition on_board (row col : Z) : bool :=
  (0 <=? row) && (row <? 8) && (0 <=? col) && (col <? 8).

(** The coordinates of the square a move text ends on, its third and
    fourth characters. *)
Definition destination (move : string) : result (Z * Z) :=
  square_to_coordinates (slice move 2 4).

(** The move text ends on the square at [(row, col)]. *)
Definition ends_at (row col : Z) (move : string) : bool :=
  match destination move with
  | Ok (r, c) => (r =? row) && (c =? col)
  | Raise _ => false
  end.

(** A dictionary without its time stamp. *)
Definition without_timestamp (d : dict) : dict :=
  filter (fun kv => negb (String.eqb (fst kv) "timestamp")) d.

(** [stamped] holds the fields of [plain], in their order, and the time
    stamp [now] besides. *)
Definition stamped_with (now : Z) (plain stamped : dict) : Prop :=
  without_timestamp stamped = plain
  /\ lookup stamped "timestamp" = Some (JInt now).

(** From [self] to [self'] at most [n] frames were written, after those
    already there, and none on a closed connection; the connection is as
    it was. *)
Definition wrote (n : nat) (self self' : ChessAIServer.t) : Prop :=
  ChessAIServer.serial_open self' = ChessAIServer.serial_open self
  /\ exists frames,
       ChessAIServer.written self'
       = (ChessAIServer.written self ++ frames)%list
       /\ (List.length frames <= n)%nat
       /\ (ChessAIServer.serial_open self = false -> frames = []).

(** [isinstance(v, str)] *)
Definition is_string (v : value) : bool :=
  match v with JStr _ => true | _ => false end.

(** The squares of a move are squares of the board. *)
Definition on_the_board (move : Move) : Prop :=
  (from_square move < 64)%nat /\ (to_square move < 64)%nat.

(** The line the device sends to start a game. *)
Definition game_start_line : string := dumps (JDict game_start_message).

(* ================================================================= *)
(** * Properties *)

(** ** Facts about strings *)

Lemma append_assoc (a b c : string) : (a ++ b) ++ c = a ++ (b ++ c).
Proof. induction a as [|x a IH]; simpl; [reflexivity | now rewrite IH]. Qed.

Lemma append_nil_r (a : string) : a ++ "" = a.
Proof. induction a as [|x a IH]; simpl; [reflexivity | now rewrite IH]. Qed.

Lemma length_append (a b : string) :
  String.length (a ++ b) = (String.length a + String.length b)%nat.
Proof. induction a as [|c a IH]; simpl; [reflexivity | now rewrite IH]. Qed.

Lemma upper_app a b : upper (a ++ b) = upper a ++ upper b.
Proof. induction a as [|c a IH]; simpl; [reflexivity | now rewrite IH]. Qed.

(** ** Square notation *)

Lemma square_name_round (f r : ascii) :
  in_range 65 72 f = true -> in_range 49 56 r = true ->
  (rc <- square_to_coordinates (String f (String r "")) ;;
   coordinates_to_square (fst rc) (snd rc)) = Ok (String f (String r "")).
Proof.
  intros Hf Hr.
  each_ascii f; try discriminate Hf; each_ascii r; try discriminate Hr;
    reflexivity.
Qed.

Lemma small_cases (n : Z) :
  0 <= n <= 7 ->
  n = 0 \/ n = 1 \/ n = 2 \/ n = 3 \/ n = 4 \/ n = 5 \/ n = 6 \/ n = 7.
Proof. lia. Qed.

(** [C10] The two converters are inverse to each other on their valid
    domains: a valid square name converted to coordinates and back is the
    same name, and a row and a column in 0..7 converted to a name and back
    are the same pair. *)
Theorem square_converters_inverse :
  (forall name, is_square_name name = true ->
     (rc <- square_to_coordinates name ;;
      coordinates_to_square (fst rc) (snd rc)) = Ok name)
  /\
  (forall row col, 0 <= row <= 7 -> 0 <= col <= 7 ->
     (name <- coordinates_to_square row col ;;
      square_to_coordinates name) = Ok (row, col)).
Proof.
  split.
  - intros [|f [|r [|? ?]]] H; try discriminate H.
    apply andb_prop in H. destruct H as [Hf Hr].
    now apply square_name_round.
  - intros row col Hr Hc.
    apply small_cases in Hr. apply small_cases in Hc.
    repeat (destruct Hr as [Hr|Hr]); repeat (destruct Hc as [Hc|Hc]);
      subst; reflexivity.
Qed.

Lemma square_converters_inverse_witness :
  (rc <- square_to_coordinates "E4" ;;
   coordinates_to_square (fst rc) (snd rc)) = Ok "E4"
  /\ (name <- coordinates_to_square 4 4 ;; square_to_coordinates name) = Ok (4, 4).
Proof.
  split.
  - apply (proj1 square_converters_inverse). reflexivity.
  - apply (proj2 square_converters_inverse); lia.
Defined.

(** ** The occupancy matrix *)

Lemma occupancy_row_length b rank : List.length (occupancy_row b rank) = 8%nat.
Proof. unfold occupancy_row. now rewrite length_map, length_seq. Qed.

Lemma occupancy_row_bits b rank : Forall is_bit (occupancy_row b rank).
Proof.
  unfold occupancy_row. apply Forall_map, Forall_forall. intros file _.
  destruct (piece_at b (square file (rank - 1))); [right | left]; reflexivity.
Qed.

Lemma occupancy_shape b :
  List.length (flatten (occupancy_matrix b)) = 64%nat
  /\ Forall is_bit (flatten (occupancy_matrix b)).
Proof.
  unfold flatten, occupancy_matrix. split.
  - rewrite length_concat, map_map.
    rewrite (map_ext _ (fun _ => 8%nat)) by (intro; apply occupancy_row_length).
    reflexivity.
  - apply Forall_concat, Forall_map, Forall_forall. intros rank _.
    apply occupancy_row_bits.
Qed.

Lemma send_json_message_board self message :
  ChessAIServer.board (ChessAIServer.send_json_message self message)
  = ChessAIServer.board self.
Proof.
  unfold ChessAIServer.send_json_message.
  now destruct (ChessAIServer.serial_open self).
Qed.

Lemma handle_game_start_board self :
  ChessAIServer.board (ChessAIServer.handle_game_start self) = starting_board.
Proof.
  unfold ChessAIServer.handle_game_start, ChessAIServer.send_board_matrix.
  now rewrite send_json_message_board.
Qed.

(** [C4] Whatever the board, the flattened occupancy matrix has 64
    entries, each 0 or 1, both as the server computes it and as the board
    manager does; after the reset of [handle_game_start], and in a fresh
    board manager, the entries sum to 32 (and the matrix passes
    [validate_board_setup]). *)
Theorem occupancy_matrix_invariant :
  forall (self : ChessAIServer.t) (manager : BoardStateManager.t),
    let server_cells := flatten (ChessAIServer.get_initial_board_matrix self) in
    let manager_cells := flatten (BoardStateManager.get_board_matrix manager) in
    let reset := ChessAIServer.handle_game_start self in
    (List.length server_cells = 64%nat /\ Forall is_bit server_cells)
    /\ (List.length manager_cells = 64%nat /\ Forall is_bit manager_cells)
    /\ sum (flatten (ChessAIServer.get_initial_board_matrix reset)) = 32
    /\ sum (flatten (BoardStateManager.get_board_matrix BoardStateManager.init)) = 32
    /\ GameValidator.validate_board_setup
         (ChessAIServer.get_initial_board_matrix reset) = true.
Proof.
  intros self manager. cbv zeta.
  unfold ChessAIServer.get_initial_board_matrix, BoardStateManager.get_board_matrix.
  rewrite handle_game_start_board.
  repeat split; try apply occupancy_shape; reflexivity.
Qed.

(** ** Moves from a square *)

(** [C5] Every move [get_possible_moves_from_square] returns starts on the
    square asked for and is one of the legal moves of the position; and no
    legal move from that square is left out. *)
Theorem possible_moves_from_square_sound :
  forall (rules : Rules) (self : ChessAIServer.t) (sq : Square),
    let possible_moves := ChessAIServer.get_possible_moves_from_square self sq in
    Forall (fun move => from_square move = sq
                        /\ In move (legal_moves (ChessAIServer.board self)))
           possible_moves
    /\ (forall move, In move (legal_moves (ChessAIServer.board self)) ->
          from_square move = sq -> In move possible_moves).
Proof.
  intros rules self sq. cbv zeta.
  unfold ChessAIServer.get_possible_moves_from_square. split.
  - apply Forall_forall. intros move H.
    apply filter_In in H. destruct H as [Hin Heq].
    split; [now apply Nat.eqb_eq | exact Hin].
  - intros move Hin Heq. apply filter_In. split; [exact Hin|].
    now apply Nat.eqb_eq.
Qed.

Lemma possible_moves_from_square_sound_witness :
  In Demo.e2e4
     (ChessAIServer.get_possible_moves_from_square (rules := Demo.rules)
        idle_server Demo.e2).
Proof.
  apply (proj2 (possible_moves_from_square_sound Demo.rules idle_server Demo.e2)).
  - vm_compute. do 13 right. now left.
  - reflexivity.
Defined.

(** ** The text of a move *)

Lemma square_name_shape sq :
  (sq < 64)%nat ->
  exists f r, square_name sq = Ok (String f (String r ""))
              /\ GameValidator.is_valid_square (upper (String f (String r ""))) = true.
Proof.
  intros H.
  do 64 (destruct sq as [|sq];
         [eexists; eexists; split; reflexivity|]).
  lia.
Qed.

Lemma Move_bool_distinct move :
  from_square move <> to_square move -> Move_bool move = true.
Proof.
  unfold Move_bool. intros H.
  destruct (from_square move) as [|f]; destruct (to_square move) as [|t];
    try reflexivity.
  now elim H.
Qed.

(** [C9] The text a move has in [best_move] and in each entry of
    [alternatives] is [move.uci().upper()].  For a move between two
    distinct squares of the board that is not a drop, it is the upper-cased
    names of origin and destination, four characters that pass
    [is_valid_move_format], followed by the upper-cased letter of the
    promotion piece when the move carries one: four characters without a
    promotion, five with one.  [send_move_options] writes exactly these
    texts. *)
Theorem wire_form_shape :
  forall move,
    (from_square move < 64)%nat -> (to_square move < 64)%nat ->
    from_square move <> to_square move -> drop move = None ->
    exists origin destination,
      square_name (from_square move) = Ok origin
      /\ square_name (to_square move) = Ok destination
      /\ ChessAIServer.wire_form move
         = Ok (upper (origin ++ destination) ++ promotion_suffix move)
      /\ String.length (upper (origin ++ destination)) = 4%nat
      /\ String.length (promotion_suffix move)
         = (match promotion move with Some _ => 1 | None => 0 end)%nat
      /\ GameValidator.is_valid_move_format
           (upper (origin ++ destination) ++ promotion_suffix move) = true
      /\ (forall self alternatives self',
            ChessAIServer.send_move_options self move alternatives = Ok self' ->
            ChessAIServer.serial_open self = true ->
            exists texts,
              ChessAIServer.map_result ChessAIServer.wire_form (firstn 4 alternatives)
              = Ok texts
              /\ ChessAIServer.written self'
                 = (ChessAIServer.written self
                    ++ [ChessAIServer.frame
                          [("type", JStr "move_options");
                           ("best_move",
                            JStr (upper (origin ++ destination) ++ promotion_suffix move));
                           ("alternatives", JList (map JStr texts))]])%list).
Proof.
  intros move Hf Ht Hne Hdrop.
  destruct (square_name_shape _ Hf) as (f1 & r1 & Ef & Vf).
  destruct (square_name_shape _ Ht) as (f2 & r2 & Et & Vt).
  exists (String f1 (String r1 "")), (String f2 (String r2 "")).
  assert (W : ChessAIServer.wire_form move
              = Ok (upper (String f1 (String r1 "") ++ String f2 (String r2 ""))
                    ++ promotion_suffix move)).
  { unfold ChessAIServer.wire_form, uci, promotion_suffix.
    rewrite Hdrop. destruct (promotion move) as [p|].
    - rewrite Ef, Et. simpl. destruct p; reflexivity.
    - rewrite (Move_bool_distinct _ Hne), Ef, Et. reflexivity. }
  split; [exact Ef|]. split; [exact Et|]. split; [exact W|].
  split; [reflexivity|].
  split.
  { unfold promotion_suffix. destruct (promotion move) as [[]|]; reflexivity. }
  split.
  { unfold GameValidator.is_valid_move_format.
    rewrite length_append. simpl in Vf, Vt |- *.
    rewrite Vf. destruct (promotion_suffix move); simpl; rewrite Vt; reflexivity. }
  intros self alternatives self' Hsend Hopen.
  unfold ChessAIServer.send_move_options in Hsend. rewrite W in Hsend.
  unfold Py.bind in Hsend.
  destruct (ChessAIServer.map_result ChessAIServer.wire_form (firstn 4 alternatives))
    as [texts|e]; [|discriminate Hsend].
  injection Hsend as <-.
  exists texts. split; [reflexivity|].
  unfold ChessAIServer.send_json_message. rewrite Hopen. reflexivity.
Qed.

Lemma wire_form_shape_witness :
  exists origin destination,
    square_name (from_square Demo.e2e4) = Ok origin
    /\ square_name (to_square Demo.e2e4) = Ok destination
    /\ ChessAIServer.wire_form Demo.e2e4
       = Ok (upper (origin ++ destination) ++ promotion_suffix Demo.e2e4)
    /\ String.length (upper (origin ++ destination)) = 4%nat.
Proof.
  destruct (wire_form_shape Demo.e2e4)
    as (o & d & Ho & Hd & W & L & _); simpl; try lia; try reflexivity.
  exists o, d. repeat split; assumption.
Defined.

(** The text of a promotion has five characters, one more than the four
    of origin and destination. *)
Lemma wire_form_promotion_counterexample :
  ChessAIServer.wire_form Demo.e7e8q = Ok "E7E8Q"
  /\ String.length "E7E8Q" = 5%nat
  /\ (o <- square_name (from_square Demo.e7e8q) ;;
      d <- square_name (to_square Demo.e7e8q) ;;
      Ok (upper (o ++ d))) = Ok "E7E8".
Proof. repeat split. Qed.

(** ** JSON: what the decoder raises *)

Lemma scanstring_raises_bounded n :
  forall s e, (String.length s <= n)%nat -> scanstring s = Raise e -> json_exn e.
Proof.
  induction n as [|n IH]; intros s e Hn; destruct s as [|c r]; simpl in Hn;
    try lia; try (intros [= <-]; now left).
  cbn [scanstring].
  destruct (Ascii.eqb c dquote); [discriminate|].
  destruct (Ascii.eqb c backslash).
  - destruct r as [|e0 r1]; [intros [= <-]; now left|].
    destruct (Ascii.eqb e0 "u").
    + destruct r1 as [|h1 [|h2 [|h3 [|h4 r2]]]]; try (intros [= <-]; now left).
      destruct (hex4 h1 h2 h3 h4) as [k|]; [|intros [= <-]; now left].
      destruct (k <? 256)%N; [|intros [= <-]; now right].
      destruct (scanstring r2) eqn:E; cbn [Py.bind]; [discriminate|].
      intros [= <-]. apply (IH r2); [simpl in Hn; lia | exact E].
    + destruct (unescape e0); [|intros [= <-]; now left].
      destruct (scanstring r1) eqn:E; cbn [Py.bind]; [discriminate|].
      intros [= <-]. apply (IH r1); [simpl in Hn; lia | exact E].
  - destruct (ord c <? 32); [intros [= <-]; now left|].
    destruct (scanstring r) eqn:E; cbn [Py.bind]; [discriminate|].
    intros [= <-]. apply (IH r); [lia | exact E].
Qed.

Lemma scanstring_raises s e : scanstring s = Raise e -> json_exn e.
Proof. apply (scanstring_raises_bounded (String.length s)). lia. Qed.

Lemma scan_number_raises s e r : scan_number s = Some (Raise e, r) -> e = Unmodelled.
Proof.
  unfold scan_number. destruct (scan_integer s) as [[ds r0]|]; [|discriminate].
  destruct (scan_frac r0); destruct (scan_exp _); intros [= <- _]; reflexivity.
Qed.

Lemma scan_raises n :
  (forall s e, scan_once n s = Raise e -> json_exn e)
  /\ (forall s e, array_items n s = Raise e -> json_exn e)
  /\ (forall s e, object_items n s = Raise e -> json_exn e).
Proof.
  induction n as [|n (IHs & IHa & IHo)].
  - repeat split; intros s e [= <-]; now right.
  - split; [|split]; intros s e.
    + cbn [scan_once]. destruct s as [|c r]; [intros [= <-]; now left|].
      destruct (Ascii.eqb c dquote).
      { destruct (scanstring r) eqn:E; cbn [Py.bind]; [discriminate|].
        intros [= <-]. now apply scanstring_raises in E. }
      destruct (Ascii.eqb c "{").
      { destruct (skip_ws r) as [|c1 r1]; [intros [= <-]; now left|].
        destruct (Ascii.eqb c1 "}"); [discriminate|].
        destruct (Ascii.eqb c1 dquote); [|intros [= <-]; now left].
        destruct (object_items n r1) eqn:E; cbn [Py.bind]; [discriminate|].
        intros [= <-]. now apply IHo in E. }
      destruct (Ascii.eqb c "[").
      { destruct (skip_ws r) as [|c1 r1]; [intros [= <-]; now left|].
        destruct (Ascii.eqb c1 "]"); [discriminate|].
        destruct (array_items n (String c1 r1)) eqn:E; cbn [Py.bind]; [discriminate|].
        intros [= <-]. now apply IHa in E. }
      destruct (starts_with "null" (String c r)); [discriminate|].
      destruct (starts_with "true" (String c r)); [discriminate|].
      destruct (starts_with "false" (String c r)); [discriminate|].
      destruct (scan_number (String c r)) as [[[z|e'] r']|] eqn:E.
      * discriminate.
      * apply scan_number_raises in E. subst. intros [= <-]. now right.
      * destruct (_ || _); intros [= <-]; [now right | now left].
    + cbn [array_items].
      destruct (scan_once n s) as [[v r]|] eqn:E; cbn [Py.bind fst snd].
      2:{ intros [= <-]. now apply IHs in E. }
      destruct (skip_ws r) as [|c r1]; [intros [= <-]; now left|].
      destruct (Ascii.eqb c "]"); [discriminate|].
      destruct (Ascii.eqb c ","); [|intros [= <-]; now left].
      destruct (array_items n (skip_ws r1)) eqn:E1; cbn [Py.bind]; [discriminate|].
      intros [= <-]. now apply IHa in E1.
    + cbn [object_items].
      destruct (scanstring s) as [[k r]|] eqn:E; cbn [Py.bind fst snd].
      2:{ intros [= <-]. now apply scanstring_raises in E. }
      destruct (skip_ws r) as [|c r1]; [intros [= <-]; now left|].
      destruct (Ascii.eqb c ":"); [|intros [= <-]; now left].
      destruct (scan_once n (skip_ws r1)) as [[v r2]|] eqn:E1; cbn [Py.bind fst snd].
      2:{ intros [= <-]. now apply IHs in E1. }
      destruct (skip_ws r2) as [|c1 r3]; [intros [= <-]; now left|].
      destruct (Ascii.eqb c1 "}"); [discriminate|].
      destruct (Ascii.eqb c1 ","); [|intros [= <-]; now left].
      destruct (skip_ws r3) as [|c2 r4]; [intros [= <-]; now left|].
      destruct (Ascii.eqb c2 dquote); [|intros [= <-]; now left].
      destruct (object_items n r4) eqn:E2; cbn [Py.bind]; [discriminate|].
      intros [= <-]. now apply IHo in E2.
Qed.

Lemma loads_raises s e : loads s = Raise e -> json_exn e.
Proof.
  unfold loads.
  destruct (scan_once _ _) as [[v r]|] eqn:E; cbn [Py.bind fst snd].
  - destruct (skip_ws r); [discriminate|]. intros [= <-]. now left.
  - intros [= <-]. now apply scan_raises in E.
Qed.

(** ** JSON: a value is read back from its text *)

(** One character of a string, escaped and read back. *)
Lemma scanstring_escape_char c r :
  scanstring (escape_char c ++ r)
  = (xr <- scanstring r ;; Ok (String c (fst xr), snd xr)).
Proof.
  destruct c as [[] [] [] [] [] [] [] []]; reflexivity.
Qed.

Lemma scanstring_escape s rest :
  scanstring (escape s ++ String dquote rest) = Ok (s, rest).
Proof.
  induction s as [|c s IH]; [reflexivity|].
  cbn [escape]. rewrite append_assoc, scanstring_escape_char, IH. reflexivity.
Qed.

Lemma span_digits_uint d rest :
  ends_number rest = true ->
  span_digits (NilEmpty.string_of_uint d ++ rest) = (NilEmpty.string_of_uint d, rest).
Proof.
  intros H. induction d; cbn [NilEmpty.string_of_uint append];
    try (cbn [span_digits]; change (is_digit _) with true; cbv iota;
         rewrite IHd; reflexivity).
  destruct rest as [|c r]; [reflexivity|].
  cbn [span_digits]. simpl in H.
  destruct (is_digit c); [discriminate|reflexivity].
Qed.

Lemma nzhead_not_D0 u d : Decimal.nzhead u <> Decimal.D0 d.
Proof. induction u; simpl; try discriminate. assumption. Qed.

Lemma to_uint_unorm p : Decimal.unorm (Pos.to_uint p) = Pos.to_uint p.
Proof.
  rewrite <- DecimalPos.Unsigned.to_of, DecimalPos.Unsigned.of_to. reflexivity.
Qed.

Lemma to_uint_head p d : Pos.to_uint p <> Decimal.D0 d.
Proof.
  intros H. pose proof (to_uint_unorm p) as U. rewrite H in U.
  rewrite DecimalFacts.unorm_D0 in U.
  unfold Decimal.unorm in U.
  destruct (Decimal.nzhead d) eqn:E; try discriminate U.
  - injection U as <-. apply (DecimalPos.Unsigned.to_uint_nonzero p). exact H.
  - now apply nzhead_not_D0 in E.
Qed.

(** The decimal text of a positive number: a digit from 1 to 9, then digits. *)
Lemma string_of_pos_head p :
  exists c r, NilEmpty.string_of_uint (Pos.to_uint p) = String c r
              /\ in_range 49 57 c = true.
Proof.
  pose proof (to_uint_head p) as H0.
  pose proof (DecimalPos.Unsigned.to_uint_nonnil p) as Hn.
  destruct (Pos.to_uint p) as [|d|d|d|d|d|d|d|d|d|d];
    try (eexists; eexists; split; reflexivity).
  - now elim Hn.
  - now elim (H0 d).
Qed.

Lemma string_of_pos_nilzero p :
  NilZero.string_of_uint (Pos.to_uint p) = NilEmpty.string_of_uint (Pos.to_uint p).
Proof.
  pose proof (DecimalPos.Unsigned.to_uint_nonnil p) as Hn.
  now destruct (Pos.to_uint p).
Qed.

Lemma int_of_str_of_int n : int_of_str (str_of_int n) = n.
Proof.
  unfold int_of_str, str_of_int.
  rewrite NilZero.isi.
  - apply DecimalZ.of_to.
  - destruct n; simpl; try discriminate.
    intros [= H]. now apply (DecimalPos.Unsigned.to_uint_nonnil p).
  - destruct n; simpl; try discriminate.
    intros [= H]. now apply (DecimalPos.Unsigned.to_uint_nonnil p).
Qed.

Lemma scan_unsigned_pos p rest :
  ends_number rest = true ->
  exists c r,
    NilEmpty.string_of_uint (Pos.to_uint p) = String c r
    /\ in_range 49 57 c = true
    /\ span_digits (String c r ++ rest) = (String c r, rest).
Proof.
  intros H. destruct (string_of_pos_head p) as (c & r & E & Hc).
  exists c, r. repeat split; try assumption.
  rewrite <- E. now apply span_digits_uint.
Qed.

Lemma scan_frac_none rest : ends_number rest = true -> scan_frac rest = None.
Proof.
  destruct rest as [|c r]; [reflexivity|]. simpl. intros H.
  destruct (Ascii.eqb c "."); [|reflexivity].
  rewrite !orb_true_r in H. discriminate.
Qed.

Lemma scan_exp_none rest : ends_number rest = true -> scan_exp rest = None.
Proof.
  destruct rest as [|c r]; [reflexivity|]. simpl. intros H.
  destruct (Ascii.eqb c "e"); [rewrite !orb_true_r in H; discriminate|].
  destruct (Ascii.eqb c "E"); [rewrite !orb_true_r in H; discriminate|].
  reflexivity.
Qed.

Lemma scan_integer_str_of_int n rest :
  ends_number rest = true ->
  scan_integer (str_of_int n ++ rest) = Some (str_of_int n, rest).
Proof.
  intros H. unfold str_of_int. destruct n as [|p|p]; cbn [Z.to_int NilZero.string_of_int].
  - reflexivity.
  - rewrite string_of_pos_nilzero.
    destruct (scan_unsigned_pos p rest H) as (c & r & E & Hc & S).
    rewrite E. unfold scan_integer, scan_unsigned. cbn [append].
    assert (Ascii.eqb c "-" = false /\ Ascii.eqb c "0" = false /\ is_digit c = true)
      as (-> & -> & ->).
    { clear -Hc. destruct c as [[] [] [] [] [] [] [] []]; try discriminate Hc;
        repeat split. }
    cbn [append] in S. rewrite S. reflexivity.
  - rewrite string_of_pos_nilzero.
    destruct (scan_unsigned_pos p rest H) as (c & r & E & Hc & S).
    rewrite E. unfold scan_integer, scan_unsigned. cbn [append].
    change (Ascii.eqb "-" "-") with true. cbv iota.
    assert (Ascii.eqb c "0" = false /\ is_digit c = true) as (-> & ->).
    { clear -Hc. destruct c as [[] [] [] [] [] [] [] []]; try discriminate Hc;
        repeat split. }
    cbn [append] in S. rewrite S. reflexivity.
Qed.

Lemma scan_number_str_of_int n rest :
  ends_number rest = true ->
  scan_number (str_of_int n ++ rest) = Some (Ok n, rest).
Proof.
  intros H. unfold scan_number.
  rewrite (scan_integer_str_of_int n rest H).
  rewrite (scan_frac_none rest H), (scan_exp_none rest H), int_of_str_of_int.
  reflexivity.
Qed.

(** The first character of the decimal text of an integer. *)
Lemma str_of_int_head n :
  exists c r, str_of_int n = String c r
              /\ (Ascii.eqb c "-" || is_digit c) = true.
Proof.
  unfold str_of_int. destruct n as [|p|p]; cbn [Z.to_int NilZero.string_of_int].
  - now exists "0"%char, "".
  - rewrite string_of_pos_nilzero.
    destruct (string_of_pos_head p) as (c & r & E & Hc).
    exists c, r. split; [exact E|].
    clear -Hc. destruct c as [[] [] [] [] [] [] [] []]; try discriminate Hc;
      reflexivity.
  - eexists; eexists; split; reflexivity.
Qed.

(** Induction on values, through the lists they contain. *)
Lemma value_ind (P : value -> Prop) :
  P JNull ->
  (forall b, P (JBool b)) ->
  (forall n, P (JInt n)) ->
  (forall s, P (JStr s)) ->
  (forall l, Forall P l -> P (JList l)) ->
  (forall d, Forall (fun kv => P (snd kv)) d -> P (JDict d)) ->
  forall v, P v.
Proof.
  intros Hnull Hbool Hint Hstr Hlist Hdict.
  fix IH 1. intros [| b | n | s | l | d].
  - exact Hnull.
  - apply Hbool.
  - apply Hint.
  - apply Hstr.
  - apply Hlist. induction l as [|v l IHl]; constructor; [apply IH | exact IHl].
  - apply Hdict. induction d as [|[k v] d IHd]; constructor; [apply IH | exact IHd].
Qed.

Lemma scan_once_S n c r :
  scan_once (S n) (String c r) =
  if Ascii.eqb c dquote then
    xr <- scanstring r ;; Ok (JStr (fst xr), snd xr)
  else if Ascii.eqb c "{" then
    match skip_ws r with
    | String c1 r1 =>
        if Ascii.eqb c1 "}" then Ok (JDict [], r1)
        else if Ascii.eqb c1 dquote then
          pr <- object_items n r1 ;;
          Ok (JDict (update [] (fst pr)), snd pr)
        else Raise JSONDecodeError
    | EmptyString => Raise JSONDecodeError
    end
  else if Ascii.eqb c "[" then
    match skip_ws r with
    | String c1 r1 =>
        if Ascii.eqb c1 "]" then Ok (JList [], r1)
        else
          vr <- array_items n (String c1 r1) ;;
          Ok (JList (fst vr), snd vr)
    | EmptyString => Raise JSONDecodeError
    end
  else if starts_with "null" (String c r) then Ok (JNull, suffix_from 4 (String c r))
  else if starts_with "true" (String c r) then Ok (JBool true, suffix_from 4 (String c r))
  else if starts_with "false" (String c r) then Ok (JBool false, suffix_from 5 (String c r))
  else
    match scan_number (String c r) with
    | Some (Ok z, r') => Ok (JInt z, r')
    | Some (Raise e, _) => Raise e
    | None =>
        if starts_with "NaN" (String c r) || starts_with "Infinity" (String c r)
           || starts_with "-Infinity" (String c r)
        then Raise Unmodelled
        else Raise JSONDecodeError
    end.
Proof. reflexivity. Qed.

Lemma array_items_S n s :
  array_items (S n) s =
  (vr <- scan_once n s ;;
   match skip_ws (snd vr) with
   | String c r =>
       if Ascii.eqb c "]" then Ok ([fst vr], r)
       else if Ascii.eqb c "," then
         vs <- array_items n (skip_ws r) ;;
         Ok (fst vr :: fst vs, snd vs)
       else Raise JSONDecodeError
   | EmptyString => Raise JSONDecodeError
   end).
Proof. reflexivity. Qed.

Lemma object_items_S n s :
  object_items (S n) s =
  (kr <- scanstring s ;;
   match skip_ws (snd kr) with
   | String c r =>
       if Ascii.eqb c ":" then
         vr <- scan_once n (skip_ws r) ;;
         match skip_ws (snd vr) with
         | String c1 r1 =>
             if Ascii.eqb c1 "}" then Ok ([(fst kr, fst vr)], r1)
             else if Ascii.eqb c1 "," then
               match skip_ws r1 with
               | String c2 r2 =>
                   if Ascii.eqb c2 dquote then
                     ps <- object_items n r2 ;;
                     Ok ((fst kr, fst vr) :: fst ps, snd ps)
                   else Raise JSONDecodeError
               | EmptyString => Raise JSONDecodeError
               end
             else Raise JSONDecodeError
         | EmptyString => Raise JSONDecodeError
         end
       else Raise JSONDecodeError
   | EmptyString => Raise JSONDecodeError
   end).
Proof. reflexivity. Qed.

Lemma number_head c :
  (Ascii.eqb c "-" || is_digit c) = true ->
  opens_value c = true
  /\ Ascii.eqb c dquote = false /\ Ascii.eqb c "{" = false /\ Ascii.eqb c "[" = false
  /\ Ascii.eqb "n" c = false /\ Ascii.eqb "t" c = false /\ Ascii.eqb "f" c = false.
Proof.
  destruct c as [[] [] [] [] [] [] [] []]; intros H; try discriminate H;
    repeat split.
Qed.

Lemma encode_head v :
  exists c r, encode v = String c r /\ opens_value c = true.
Proof.
  destruct v as [| [|] | n | s | l | d]; try (eexists; eexists; split; reflexivity).
  destruct (str_of_int_head n) as (c & r & E & H).
  exists c, r. split; [exact E|]. now apply number_head.
Qed.

Lemma skip_ws_opens c r : opens_value c = true -> skip_ws (String c r) = String c r.
Proof.
  unfold opens_value. intros H. cbn [skip_ws].
  destruct (is_ws c); [discriminate|reflexivity].
Qed.

Lemma scan_once_int n fuel rest :
  ends_number rest = true ->
  scan_once (S fuel) (str_of_int n ++ rest) = Ok (JInt n, rest).
Proof.
  intros H. pose proof (scan_number_str_of_int n rest H) as N.
  destruct (str_of_int_head n) as (c & r & E & Hc).
  rewrite E in N |- *. cbn [append] in N |- *.
  rewrite scan_once_S.
  destruct (number_head c Hc) as (_ & -> & -> & -> & Hn & Ht & Hf).
  cbn [starts_with]. rewrite Hn, Ht, Hf. cbn [andb]. rewrite N. reflexivity.
Qed.

Lemma elements_cons v v' l :
  elements (v :: v' :: l) = encode v ++ ", " ++ elements (v' :: l).
Proof. reflexivity. Qed.

Lemma join_members kv d :
  join (map (fun kv => encode_basestring_ascii (fst kv) ++ ": " ++ encode (snd kv))
            (kv :: d))
  = String dquote (members (kv :: d)).
Proof.
  revert kv. induction d as [|kv' d IH]; intros [k v].
  - cbn [map join members fst snd]. unfold encode_basestring_ascii.
    cbn [append]. rewrite !append_assoc. cbn [append].
    now rewrite append_nil_r.
  - cbn [map]. cbn [map] in IH.
    change (join (?x :: ?y :: ?r)) with (x ++ ", " ++ join (y :: r)).
    rewrite IH. cbn [members fst snd]. unfold encode_basestring_ascii.
    cbn [append]. rewrite !append_assoc. cbn [append]. reflexivity.
Qed.

Lemma array_items_last n s v rest :
  scan_once n s = Ok (v, String "]" rest) ->
  array_items (S n) s = Ok ([v], rest).
Proof. intros H. rewrite array_items_S, H. reflexivity. Qed.

Lemma array_items_more n s v text :
  scan_once n s = Ok (v, String "," (String " " text)) ->
  array_items (S n) s
  = (vs <- array_items n (skip_ws text) ;; Ok (v :: fst vs, snd vs)).
Proof. intros H. rewrite array_items_S, H. reflexivity. Qed.

Lemma object_items_last n s k text v rest :
  scanstring s = Ok (k, String ":" (String " " text)) ->
  scan_once n (skip_ws text) = Ok (v, String "}" rest) ->
  object_items (S n) s = Ok ([(k, v)], rest).
Proof.
  intros K V. rewrite object_items_S, K. cbn [Py.bind fst snd].
  change (skip_ws (String ":" (String " " text))) with (String ":" (String " " text)).
  cbv iota. change (Ascii.eqb ":" ":") with true. cbv iota.
  change (skip_ws (String " " text)) with (skip_ws text).
  rewrite V. reflexivity.
Qed.

Lemma object_items_more n s k text v text' :
  scanstring s = Ok (k, String ":" (String " " text)) ->
  scan_once n (skip_ws text)
  = Ok (v, String "," (String " " (String dquote text'))) ->
  object_items (S n) s
  = (ps <- object_items n text' ;; Ok ((k, v) :: fst ps, snd ps)).
Proof.
  intros K V. rewrite object_items_S, K. cbn [Py.bind fst snd].
  change (skip_ws (String ":" (String " " text))) with (String ":" (String " " text)).
  cbv iota. change (Ascii.eqb ":" ":") with true. cbv iota.
  change (skip_ws (String " " text)) with (skip_ws text).
  rewrite V. reflexivity.
Qed.

Lemma skip_ws_encode v rest : skip_ws (encode v ++ rest) = encode v ++ rest.
Proof.
  destruct (encode_head v) as (c & r & E & Hc). rewrite E. cbn [append].
  now apply skip_ws_opens.
Qed.

Lemma skip_ws_elements v l rest :
  skip_ws (elements (v :: l) ++ rest) = elements (v :: l) ++ rest.
Proof.
  destruct l as [|v' l].
  - unfold elements. cbn [map join]. apply skip_ws_encode.
  - rewrite elements_cons, append_assoc. apply skip_ws_encode.
Qed.

Lemma array_items_elements l :
  Forall reads_back l -> forallb well_formed l = true -> l <> [] ->
  forall fuel rest,
    (list_sum (map (fun x => S (size x)) l) <= fuel)%nat ->
    array_items fuel (elements l ++ String "]" rest) = Ok (l, rest).
Proof.
  induction 1 as [|v l Hv Hl IH]; [contradiction|].
  intros Hwf _ fuel rest Hfuel.
  cbn [forallb] in Hwf. apply andb_prop in Hwf. destruct Hwf as [Wv Wl].
  cbn [map list_sum fold_right] in Hfuel.
  destruct fuel as [|fuel]; [lia|].
  destruct l as [|v' l].
  - apply array_items_last. unfold elements. cbn [map join].
    apply (Hv Wv); [reflexivity | lia].
  - rewrite (array_items_more fuel _ v (elements (v' :: l) ++ String "]" rest)).
    + rewrite skip_ws_elements, (IH Wl ltac:(discriminate) fuel rest);
        [reflexivity | cbn [map list_sum fold_right] in Hfuel |- *; lia].
    + rewrite elements_cons, !append_assoc. cbn [append].
      apply (Hv Wv); [reflexivity | lia].
Qed.

Lemma object_items_members d :
  Forall (fun kv => reads_back (snd kv)) d ->
  forallb (fun kv => well_formed (snd kv)) d = true -> d <> [] ->
  forall fuel rest,
    (list_sum (map (fun kv => S (size (snd kv))) d) <= fuel)%nat ->
    object_items fuel (members d ++ String "}" rest) = Ok (d, rest).
Proof.
  induction 1 as [|[k v] d Hv Hd IH]; [contradiction|].
  intros Hwf _ fuel rest Hfuel.
  cbn [forallb snd] in Hwf. apply andb_prop in Hwf. destruct Hwf as [Wv Wd].
  cbn [map list_sum fold_right snd] in Hfuel. cbn [snd] in Hv.
  destruct fuel as [|fuel]; [lia|].
  assert (K : forall text,
             scanstring (members ((k, v) :: d) ++ text)
             = Ok (k, String ":" (String " "
                       (encode v ++ match d with
                                    | [] => ""
                                    | _ :: _ => ", " ++ String dquote (members d)
                                    end ++ text)))).
  { intros text. cbn [members]. rewrite append_assoc. cbn [append].
    rewrite scanstring_escape, !append_assoc. reflexivity. }
  destruct d as [|kv' d].
  - apply (object_items_last fuel _ k _ v rest (K _)).
    rewrite skip_ws_encode. cbn [append].
    apply (Hv Wv); [reflexivity | lia].
  - rewrite (object_items_more fuel _ k
               (encode v ++ String "," (String " " (String dquote
                  (members (kv' :: d) ++ String "}" rest))))
               v (members (kv' :: d) ++ String "}" rest)).
    + rewrite (IH Wd ltac:(discriminate) fuel rest);
        [reflexivity | cbn [map list_sum fold_right] in Hfuel |- *; lia].
    + rewrite K, !append_assoc. reflexivity.
    + rewrite skip_ws_encode.
      apply (Hv Wv); [reflexivity | lia].
Qed.

Lemma set_fresh d k v :
  existsb (String.eqb k) (map fst d) = false -> set d k v = (d ++ [(k, v)])%list.
Proof.
  induction d as [|[k' w] d IH]; [reflexivity|].
  cbn [map fst existsb set app]. intros H.
  apply orb_false_elim in H. destruct H as [Hk Hd].
  rewrite String.eqb_sym, Hk. now rewrite IH.
Qed.

Lemma update_unique acc d :
  unique_keys (map fst d) = true ->
  (forall k, In k (map fst d) -> existsb (String.eqb k) (map fst acc) = false) ->
  update acc d = (acc ++ d)%list.
Proof.
  revert acc. induction d as [|[k v] d IH]; intros acc U F.
  - cbn. now rewrite List.app_nil_r.
  - cbn [map fst unique_keys] in U. apply andb_prop in U. destruct U as [Uk Ud].
    unfold update. cbn [fold_left fst snd].
    rewrite set_fresh by (apply F; now left).
    change (fold_left _ d ?a) with (update a d).
    rewrite IH; [now rewrite <- List.app_assoc | exact Ud |].
    intros k' Hk'. rewrite List.map_app, List.existsb_app. cbn [map fst existsb].
    rewrite (F k') by (now right). rewrite orb_false_r. cbn [orb].
    apply negb_true_iff in Uk.
    destruct (String.eqb_spec k' k) as [->|]; [|reflexivity].
    rewrite <- Uk. symmetry.
    clear -Hk'. induction (map fst d) as [|x l IHl]; [contradiction|].
    cbn [existsb]. destruct Hk' as [->|H].
    + now rewrite String.eqb_refl.
    + rewrite (IHl H). apply orb_true_r.
Qed.

Lemma size_positive v : (1 <= size v)%nat.
Proof. destruct v; simpl; lia. Qed.

(** Every well-formed value is read back from its text. *)
Lemma scan_once_encode v : reads_back v.
Proof.
  induction v as [| b | n | s | l IH | d IH] using value_ind;
    intros Hwf fuel rest Hrest Hfuel;
    (destruct fuel as [|fuel]; [pose proof (size_positive JNull); simpl in Hfuel; lia|]).
  - reflexivity.
  - destruct b; reflexivity.
  - now apply scan_once_int.
  - cbn [encode]. unfold encode_basestring_ascii. cbn [append].
    rewrite scan_once_S. change (Ascii.eqb dquote dquote) with true. cbv iota.
    rewrite append_assoc. cbn [append]. rewrite scanstring_escape. reflexivity.
  - cbn [encode]. cbn [append]. rewrite scan_once_S.
    change (Ascii.eqb "[" dquote) with false. change (Ascii.eqb "[" "{") with false.
    change (Ascii.eqb "[" "[") with true. cbv iota.
    destruct l as [|v l]; [reflexivity|].
    fold (elements (v :: l)). rewrite append_assoc. cbn [append].
    rewrite skip_ws_elements.
    destruct (encode_head v) as (c & r & E & Hc).
    assert (H : exists r', elements (v :: l) ++ String "]" rest = String c r').
    { destruct l as [|v' l].
      - unfold elements. cbn [map join]. rewrite E. now eexists.
      - rewrite elements_cons, append_assoc, E. now eexists. }
    destruct H as (r' & H).
    pose proof (array_items_elements (v :: l) IH Hwf ltac:(discriminate) fuel rest) as A.
    rewrite H in A |- *.
    unfold opens_value in Hc. apply andb_prop in Hc. destruct Hc as [Hc _].
    apply andb_prop in Hc. destruct Hc as [_ Hc]. apply negb_true_iff in Hc.
    rewrite Hc, A; [reflexivity | cbn [size] in Hfuel; lia].
  - cbn [well_formed] in Hwf. apply andb_prop in Hwf. destruct Hwf as [U W].
    cbn [encode]. cbn [append]. rewrite scan_once_S.
    change (Ascii.eqb "{" dquote) with false. change (Ascii.eqb "{" "{") with true.
    cbv iota.
    destruct d as [|kv d]; [reflexivity|].
    rewrite join_members. cbn [append].
    change (skip_ws (String dquote ?t)) with (String dquote t). cbv iota.
    change (Ascii.eqb dquote "}") with false. change (Ascii.eqb dquote dquote) with true.
    cbv iota. rewrite append_assoc. cbn [append].
    rewrite (object_items_members (kv :: d) IH W ltac:(discriminate) fuel rest);
      [|cbn [size] in Hfuel; lia].
    cbn [Py.bind fst snd]. rewrite update_unique; [reflexivity | exact U |].
    intros k _. reflexivity.
Qed.

Lemma elements_size l :
  Forall (fun v => (size v <= String.length (encode v))%nat) l ->
  (list_sum (map (fun x => S (size x)) l) <= S (String.length (elements l)))%nat.
Proof.
  induction 1 as [|v l Hv Hl IH]; [simpl; lia|].
  destruct l as [|v' l].
  - unfold elements. cbn [map join list_sum fold_right]. lia.
  - rewrite elements_cons, !length_append.
    cbn [map list_sum fold_right] in IH |- *. cbn [String.length]. lia.
Qed.

Lemma members_length k v d :
  String.length (members ((k, v) :: d))
  = (String.length (escape k) + 3 + String.length (encode v)
     + match d with [] => 0 | _ :: _ => 3 + String.length (members d) end)%nat.
Proof.
  cbn [members]. rewrite length_append. cbn [String.length append].
  rewrite length_append. destruct d; cbn [String.length append]; lia.
Qed.

Lemma members_size d :
  Forall (fun kv => (size (snd kv) <= String.length (encode (snd kv)))%nat) d ->
  (list_sum (map (fun kv => S (size (snd kv))) d) <= S (String.length (members d)))%nat.
Proof.
  induction 1 as [|[k v] d Hv Hd IH]; [simpl; lia|].
  rewrite members_length. cbn [map list_sum fold_right snd] in Hv |- *.
  destruct d as [|kv' d]; [cbn [map fold_right]; lia|].
  unfold list_sum in IH. lia.
Qed.

Lemma size_le_length v : (size v <= String.length (encode v))%nat.
Proof.
  induction v as [| b | n | s | l IH | d IH] using value_ind.
  - simpl. lia.
  - destruct b; simpl; lia.
  - destruct (str_of_int_head n) as (c & r & E & _). cbn [encode size].
    rewrite E. simpl. lia.
  - simpl. lia.
  - cbn [encode size]. fold (elements l).
    rewrite !length_append. pose proof (elements_size l IH).
    cbn [String.length]. lia.
  - cbn [encode size]. destruct d as [|kv d]; [simpl; lia|].
    rewrite join_members. cbn [append String.length]. rewrite length_append.
    pose proof (members_size _ IH). cbn [String.length]. lia.
Qed.

(** [json.loads(json.dumps(v))] is [v]. *)
Lemma loads_dumps v : well_formed v = true -> loads (dumps v) = Ok v.
Proof.
  intros Hwf. unfold loads, dumps.
  pose proof (skip_ws_encode v "") as Hs. rewrite append_nil_r in Hs. rewrite Hs.
  pose proof (scan_once_encode v Hwf (2 * String.length (encode v) + 1)%nat "" eq_refl) as R.
  rewrite append_nil_r in R. rewrite R; [reflexivity|].
  pose proof (size_le_length v). lia.
Qed.

Lemma rstrip_last s c :
  isspace c = false -> rstrip (s ++ String c "") = s ++ String c "".
Proof.
  intros H. induction s as [|a s IH]; cbn [append rstrip].
  - now rewrite H.
  - rewrite IH. now destruct s.
Qed.

(** The text of a dictionary has no white space at either end. *)
Lemma strip_dumps_dict d : strip (dumps (JDict d)) = dumps (JDict d).
Proof.
  unfold strip, dumps. cbn [encode].
  set (body := join _).
  change ("{" ++ body ++ "}") with (String "{" (body ++ "}")).
  change (lstrip (String "{" (body ++ "}"))) with (String "{" (body ++ "}")).
  change (String "{" (body ++ "}")) with (String "{" body ++ String "}" "").
  now apply rstrip_last.
Qed.

Lemma lookup_set d k v key :
  lookup (set d k v) key = if String.eqb k key then Some v else lookup d key.
Proof.
  induction d as [|[k' w] d IH]; cbn [set lookup].
  - reflexivity.
  - destruct (String.eqb_spec k' k) as [->|Hne]; cbn [lookup].
    + now destruct (String.eqb k key).
    + rewrite IH. destruct (String.eqb_spec k key) as [->|]; [|reflexivity].
      destruct (String.eqb_spec k' key); [contradiction|reflexivity].
Qed.

Lemma lookup_absent d k :
  existsb (String.eqb k) (map fst d) = false -> lookup d k = None.
Proof.
  induction d as [|[k' w] d IH]; [reflexivity|].
  cbn [map fst existsb lookup]. intros H.
  apply orb_false_elim in H. destruct H as [Hk Hd].
  rewrite String.eqb_sym, Hk. now apply IH.
Qed.

(** After [{**acc, **pairs}] a key has the value [pairs] gives it, and
    the value of [acc] when [pairs] does not hold it. *)
Lemma lookup_update pairs :
  unique_keys (map fst pairs) = true ->
  forall acc key,
    lookup (update acc pairs) key
    = match lookup pairs key with
      | Some v => Some v
      | None => lookup acc key
      end.
Proof.
  induction pairs as [|[k v] pairs IH]; intros U acc key; [reflexivity|].
  cbn [map fst unique_keys] in U. apply andb_prop in U. destruct U as [Uk Ud].
  apply negb_true_iff in Uk.
  unfold update. cbn [fold_left fst snd]. change (fold_left _ pairs ?a) with (update a pairs).
  rewrite (IH Ud), lookup_set. cbn [lookup].
  destruct (String.eqb_spec k key) as [->|]; [|reflexivity].
  now rewrite (lookup_absent _ _ Uk).
Qed.

Lemma existsb_set d k v k' :
  k' <> k ->
  existsb (String.eqb k') (map fst (set d k v)) = existsb (String.eqb k') (map fst d).
Proof.
  intros Hne. induction d as [|[k0 w] d IH]; cbn [set map fst existsb].
  - destruct (String.eqb_spec k' k); [contradiction|reflexivity].
  - destruct (String.eqb k0 k); cbn [map fst existsb]; [reflexivity|].
    now rewrite IH.
Qed.

Lemma set_well_formed d k v :
  well_formed (JDict d) = true -> well_formed v = true ->
  well_formed (JDict (set d k v)) = true.
Proof.
  cbn [well_formed]. intros H Hv. apply andb_prop in H. destruct H as [U W].
  induction d as [|[k0 w] d IH]; cbn [set].
  - cbn. now rewrite Hv.
  - cbn [map fst unique_keys forallb snd] in U, W.
    apply andb_prop in U. destruct U as [Uk Ud].
    apply andb_prop in W. destruct W as [Ww Wd].
    specialize (IH Ud Wd). apply andb_prop in IH. destruct IH as [IU IW].
    destruct (String.eqb_spec k0 k) as [->|Hne];
      cbn [map fst unique_keys forallb snd].
    + now rewrite Uk, Ud, Hv, Wd.
    + rewrite existsb_set by exact Hne. now rewrite Uk, IU, Ww, IW.
Qed.

Lemma update_well_formed pairs :
  forallb (fun kv => well_formed (snd kv)) pairs = true ->
  forall acc, well_formed (JDict acc) = true ->
              well_formed (JDict (update acc pairs)) = true.
Proof.
  induction pairs as [|[k v] pairs IH]; intros W acc A; [exact A|].
  cbn [forallb snd] in W. apply andb_prop in W. destruct W as [Wv Wp].
  unfold update. cbn [fold_left fst snd]. change (fold_left _ pairs ?a) with (update a pairs).
  apply (IH Wp). now apply set_well_formed.
Qed.

(** [C2] A message built by [create_message] and read by [parse_message]
    comes back as a dictionary with every field of the data at its value;
    besides them it holds the type, when the data has no field of that
    name, and the time stamp written while encoding, and nothing else.
    This holds for every type of message, the supported ones among them,
    and for data that is a Python dictionary of JSON values without
    floats. *)
Theorem message_round_trip :
  forall (now : Z) (msg_type : string) (data : dict),
    well_formed (JDict data) = true ->
    exists decoded,
      parse_message (create_message now msg_type data) = Ok (Some (JDict decoded))
      /\ (forall key v, lookup data key = Some v -> lookup decoded key = Some v)
      /\ (lookup data "type" = None -> lookup decoded "type" = Some (JStr msg_type))
      /\ (lookup data "timestamp" = None ->
          lookup decoded "timestamp" = Some (JInt now))
      /\ (forall key, key <> "type" -> key <> "timestamp" ->
                      lookup decoded key = lookup data key).
Proof.
  intros now msg_type data Hwf.
  set (message := update [("type", JStr msg_type); ("timestamp", JInt now)] data).
  exists message.
  assert (U : unique_keys (map fst data) = true).
  { cbn [well_formed] in Hwf. now apply andb_prop in Hwf. }
  assert (W : well_formed (JDict message) = true).
  { apply update_well_formed; [|reflexivity].
    cbn [well_formed] in Hwf. now apply andb_prop in Hwf. }
  assert (L : forall key,
             lookup message key
             = match lookup data key with
               | Some v => Some v
               | None => lookup [("type", JStr msg_type); ("timestamp", JInt now)] key
               end).
  { intros key. now apply lookup_update. }
  split; [|split; [|split; [|split]]].
  - unfold parse_message, create_message. fold message.
    now rewrite strip_dumps_dict, loads_dumps.
  - intros key v H. now rewrite L, H.
  - intros H. now rewrite L, H.
  - intros H. now rewrite L, H.
  - intros key Ht Hs. rewrite L. destruct (lookup data key); [reflexivity|].
    cbn [lookup]. destruct (String.eqb_spec "type" key); [now subst|].
    destruct (String.eqb_spec "timestamp" key); [now subst|]. reflexivity.
Qed.

Lemma message_round_trip_witness :
  exists decoded,
    parse_message (create_message 1700000000 "player_move" [("from", JStr "E2")])
    = Ok (Some (JDict decoded))
    /\ lookup decoded "from" = Some (JStr "E2")
    /\ lookup decoded "type" = Some (JStr "player_move").
Proof.
  destruct (message_round_trip 1700000000 "player_move" [("from", JStr "E2")])
    as (decoded & P & F & T & _); [reflexivity|].
  exists decoded. split; [exact P|]. split; [now apply F | now apply T].
Defined.

(** ** JSON: the fuel of [loads] *)

Lemma skip_ws_length s : (String.length (skip_ws s) <= String.length s)%nat.
Proof.
  induction s as [|c s IH]; cbn [skip_ws]; [lia|].
  destruct (is_ws c); cbn [String.length]; lia.
Qed.

Lemma scanstring_shorter_bounded n :
  forall s x r, (String.length s <= n)%nat ->
                scanstring s = Ok (x, r) -> (String.length r < String.length s)%nat.
Proof.
  induction n as [|n IH]; intros s x r Hn; destruct s as [|c s]; try discriminate;
    cbn [String.length] in Hn; try lia.
  cbn [scanstring].
  destruct (Ascii.eqb c dquote); [intros [= _ <-]; cbn [String.length]; lia|].
  destruct (Ascii.eqb c backslash).
  - destruct s as [|e0 r1]; [discriminate|].
    destruct (Ascii.eqb e0 "u").
    + destruct r1 as [|h1 [|h2 [|h3 [|h4 r2]]]]; try discriminate.
      destruct (hex4 h1 h2 h3 h4) as [k|]; [|discriminate].
      destruct (k <? 256)%N; [|discriminate].
      destruct (scanstring r2) as [[x' r']|] eqn:E; cbn [Py.bind fst snd]; [|discriminate].
      intros [= _ <-]. apply IH in E; cbn [String.length] in *; lia.
    + destruct (unescape e0); [|discriminate].
      destruct (scanstring r1) as [[x' r']|] eqn:E; cbn [Py.bind fst snd]; [|discriminate].
      intros [= _ <-]. apply IH in E; cbn [String.length] in *; lia.
  - destruct (ord c <? 32); [discriminate|].
    destruct (scanstring s) as [[x' r']|] eqn:E; cbn [Py.bind fst snd]; [|discriminate].
    intros [= _ <-]. apply IH in E; cbn [String.length] in *; lia.
Qed.

Lemma scanstring_shorter s x r :
  scanstring s = Ok (x, r) -> (String.length r < String.length s)%nat.
Proof. apply (scanstring_shorter_bounded (String.length s)). lia. Qed.

Lemma span_digits_length s :
  (String.length (snd (span_digits s)) <= String.length s)%nat.
Proof.
  induction s as [|c s IH]; cbn [span_digits]; [cbn; lia|].
  destruct (is_digit c); cbn [snd String.length]; lia.
Qed.

Lemma scan_unsigned_shorter t ds r :
  scan_unsigned t = Some (ds, r) -> (String.length r < String.length t)%nat.
Proof.
  unfold scan_unsigned. destruct t as [|c r0]; [discriminate|].
  destruct (Ascii.eqb c "0"); [intros [= _ <-]; cbn; lia|].
  destruct (is_digit c) eqn:D; [|discriminate].
  cbn [span_digits]. rewrite D. intros [= _ <-].
  pose proof (span_digits_length r0). cbn [snd String.length]. lia.
Qed.

Lemma scan_integer_shorter s ds r :
  scan_integer s = Some (ds, r) -> (String.length r < String.length s)%nat.
Proof.
  unfold scan_integer. destruct s as [|c s]; [discriminate|].
  destruct (Ascii.eqb c "-").
  - destruct (scan_unsigned s) as [[ds' r']|] eqn:E; [|discriminate].
    intros [= _ <-]. apply scan_unsigned_shorter in E. cbn [String.length]. lia.
  - apply scan_unsigned_shorter.
Qed.

Lemma scan_frac_shorter s r :
  scan_frac s = Some r -> (String.length r <= String.length s)%nat.
Proof.
  unfold scan_frac. destruct s as [|c s]; [discriminate|].
  destruct (Ascii.eqb c "."); [|discriminate].
  pose proof (span_digits_length s).
  destruct (span_digits s) as [[|d ds] r']; [discriminate|].
  intros [= <-]. cbn [snd String.length] in *. lia.
Qed.

Lemma scan_exp_shorter s r :
  scan_exp s = Some r -> (String.length r <= String.length s)%nat.
Proof.
  unfold scan_exp. destruct s as [|c s]; [discriminate|].
  destruct (Ascii.eqb c "e" || Ascii.eqb c "E"); [|discriminate].
  set (r1 := match s with EmptyString => s | String _ _ => _ end).
  assert (String.length r1 <= String.length s)%nat.
  { subst r1. destruct s as [|sg r']; [lia|].
    destruct (Ascii.eqb sg "-" || Ascii.eqb sg "+"); cbn [String.length]; lia. }
  pose proof (span_digits_length r1).
  destruct (span_digits r1) as [[|d ds] r']; [discriminate|].
  intros [= <-]. cbn [snd String.length] in *. lia.
Qed.

Lemma scan_number_shorter s z r :
  scan_number s = Some (z, r) -> (String.length r < String.length s)%nat.
Proof.
  unfold scan_number.
  destruct (scan_integer s) as [[ds r0]|] eqn:E; [|discriminate].
  apply scan_integer_shorter in E.
  destruct (scan_frac r0) as [r1|] eqn:F.
  - apply scan_frac_shorter in F.
    destruct (scan_exp r1) as [r2|] eqn:X.
    + apply scan_exp_shorter in X. intros [= _ <-]. lia.
    + intros [= _ <-]. lia.
  - destruct (scan_exp r0) as [r2|] eqn:X.
    + apply scan_exp_shorter in X. intros [= _ <-]. lia.
    + intros [= _ <-]. lia.
Qed.

Lemma suffix_from_length n s :
  (n <= String.length s)%nat ->
  String.length (suffix_from n s) = (String.length s - n)%nat.
Proof.
  revert s. induction n as [|n IH]; intros s H; cbn [suffix_from]; [lia|].
  destruct s as [|c s]; cbn [String.length] in *; [lia|]. rewrite IH; lia.
Qed.

Lemma starts_with_length p s :
  starts_with p s = true -> (String.length p <= String.length s)%nat.
Proof.
  revert s. induction p as [|a p IH]; intros s; cbn [starts_with String.length]; [lia|].
  destruct s as [|b s]; [discriminate|].
  intros H. apply andb_prop in H. destruct H as [_ H]. apply IH in H.
  cbn [String.length]. lia.
Qed.

(** Every value read takes at least one character. *)
Lemma scan_shorter n :
  (forall s v r, scan_once n s = Ok (v, r) ->
                 (String.length r < String.length s)%nat)
  /\ (forall s l r, array_items n s = Ok (l, r) ->
                    (String.length r < String.length s)%nat)
  /\ (forall s d r, object_items n s = Ok (d, r) ->
                    (String.length r < String.length s)%nat).
Proof.
  induction n as [|n (IHs & IHa & IHo)]; [repeat split; discriminate|].
  split; [|split].
  - intros [|c s] v r; [discriminate|]. rewrite scan_once_S.
    destruct (Ascii.eqb c dquote).
    { destruct (scanstring s) as [[x r']|] eqn:E; cbn [Py.bind fst snd]; [|discriminate].
      intros [= _ <-]. apply scanstring_shorter in E. cbn [String.length]. lia. }
    destruct (Ascii.eqb c "{").
    { pose proof (skip_ws_length s) as W.
      destruct (skip_ws s) as [|c1 r1]; [discriminate|]. cbn [String.length] in W |- *.
      destruct (Ascii.eqb c1 "}"); [intros [= _ <-]; lia|].
      destruct (Ascii.eqb c1 dquote); [|discriminate].
      destruct (object_items n r1) as [[d r']|] eqn:E; cbn [Py.bind fst snd]; [|discriminate].
      intros [= _ <-]. apply IHo in E. lia. }
    destruct (Ascii.eqb c "[").
    { pose proof (skip_ws_length s) as W.
      destruct (skip_ws s) as [|c1 r1]; [discriminate|]. cbn [String.length] in W |- *.
      destruct (Ascii.eqb c1 "]"); [intros [= _ <-]; lia|].
      destruct (array_items n (String c1 r1)) as [[l r']|] eqn:E;
        cbn [Py.bind fst snd]; [|discriminate].
      intros [= _ <-]. apply IHa in E. cbn [String.length] in E. lia. }
    destruct (starts_with "null" (String c s)) eqn:E1.
    { intros H. assert (R : r = suffix_from 4 (String c s)) by congruence.
      apply starts_with_length in E1. rewrite R, suffix_from_length by exact E1.
      cbn [String.length] in *. lia. }
    destruct (starts_with "true" (String c s)) eqn:E2.
    { intros H. assert (R : r = suffix_from 4 (String c s)) by congruence.
      apply starts_with_length in E2. rewrite R, suffix_from_length by exact E2.
      cbn [String.length] in *. lia. }
    destruct (starts_with "false" (String c s)) eqn:E3.
    { intros H. assert (R : r = suffix_from 5 (String c s)) by congruence.
      apply starts_with_length in E3. rewrite R, suffix_from_length by exact E3.
      cbn [String.length] in *. lia. }
    destruct (scan_number (String c s)) as [[[z|e] r']|] eqn:E.
    + intros [= _ <-]. now apply scan_number_shorter in E.
    + discriminate.
    + destruct (_ || _); discriminate.
  - intros s l r. rewrite array_items_S.
    destruct (scan_once n s) as [[v r0]|] eqn:E; cbn [Py.bind fst snd]; [|discriminate].
    apply IHs in E. pose proof (skip_ws_length r0) as W.
    destruct (skip_ws r0) as [|c r1]; [discriminate|]. cbn [String.length] in W.
    destruct (Ascii.eqb c "]"); [intros [= _ <-]; lia|].
    destruct (Ascii.eqb c ","); [|discriminate].
    destruct (array_items n (skip_ws r1)) as [[l' r']|] eqn:E1;
      cbn [Py.bind fst snd]; [|discriminate].
    intros [= _ <-]. apply IHa in E1. pose proof (skip_ws_length r1). lia.
  - intros s d r. rewrite object_items_S.
    destruct (scanstring s) as [[k r0]|] eqn:E; cbn [Py.bind fst snd]; [|discriminate].
    apply scanstring_shorter in E. pose proof (skip_ws_length r0) as W0.
    destruct (skip_ws r0) as [|c r1]; [discriminate|]. cbn [String.length] in W0.
    destruct (Ascii.eqb c ":"); [|discriminate].
    destruct (scan_once n (skip_ws r1)) as [[v r2]|] eqn:E1;
      cbn [Py.bind fst snd]; [|discriminate].
    apply IHs in E1. pose proof (skip_ws_length r1) as W1.
    pose proof (skip_ws_length r2) as W2.
    destruct (skip_ws r2) as [|c1 r3]; [discriminate|]. cbn [String.length] in W2.
    destruct (Ascii.eqb c1 "}"); [intros [= _ <-]; lia|].
    destruct (Ascii.eqb c1 ","); [|discriminate].
    pose proof (skip_ws_length r3) as W3.
    destruct (skip_ws r3) as [|c2 r4]; [discriminate|]. cbn [String.length] in W3.
    destruct (Ascii.eqb c2 dquote); [|discriminate].
    destruct (object_items n r4) as [[d' r']|] eqn:E2;
      cbn [Py.bind fst snd]; [|discriminate].
    intros [= _ <-]. apply IHo in E2. lia.
Qed.

(** Fuel beyond twice the length of the text changes no result: the fuel
    [loads] gives is enough. *)
Lemma scan_fuel n :
  (forall m s, (2 * String.length s + 1 <= n)%nat -> (2 * String.length s + 1 <= m)%nat ->
               scan_once n s = scan_once m s)
  /\ (forall m s, (2 * String.length s + 2 <= n)%nat -> (2 * String.length s + 2 <= m)%nat ->
                  array_items n s = array_items m s)
  /\ (forall m s, (2 * String.length s + 2 <= n)%nat -> (2 * String.length s + 2 <= m)%nat ->
                  object_items n s = object_items m s).
Proof.
  induction n as [|n (IHs & IHa & IHo)]; [repeat split; intros; lia|].
  split; [|split]; intros [|m] s Hn Hm; try lia.
  - destruct s as [|c s]; [reflexivity|]. rewrite !scan_once_S.
    cbn [String.length] in Hn, Hm.
    destruct (Ascii.eqb c dquote); [reflexivity|].
    destruct (Ascii.eqb c "{").
    { pose proof (skip_ws_length s) as W.
      destruct (skip_ws s) as [|c1 r1]; [reflexivity|]. cbn [String.length] in W.
      destruct (Ascii.eqb c1 "}"); [reflexivity|].
      destruct (Ascii.eqb c1 dquote); [|reflexivity].
      rewrite (IHo m r1) by lia. reflexivity. }
    destruct (Ascii.eqb c "[").
    { pose proof (skip_ws_length s) as W.
      destruct (skip_ws s) as [|c1 r1]; [reflexivity|]. cbn [String.length] in W.
      destruct (Ascii.eqb c1 "]"); [reflexivity|].
      rewrite (IHa m (String c1 r1)) by (cbn [String.length]; lia). reflexivity. }
    reflexivity.
  - rewrite !array_items_S. rewrite (IHs m s) by lia.
    destruct (scan_once m s) as [[v r0]|] eqn:E; cbn [Py.bind fst snd]; [|reflexivity].
    apply (proj1 (scan_shorter m)) in E. pose proof (skip_ws_length r0) as W.
    destruct (skip_ws r0) as [|c r1]; [reflexivity|]. cbn [String.length] in W.
    destruct (Ascii.eqb c "]"); [reflexivity|].
    destruct (Ascii.eqb c ","); [|reflexivity].
    pose proof (skip_ws_length r1).
    rewrite (IHa m (skip_ws r1)) by lia. reflexivity.
  - rewrite !object_items_S.
    destruct (scanstring s) as [[k r0]|] eqn:E; cbn [Py.bind fst snd]; [|reflexivity].
    apply scanstring_shorter in E. pose proof (skip_ws_length r0) as W0.
    destruct (skip_ws r0) as [|c r1]; [reflexivity|]. cbn [String.length] in W0.
    destruct (Ascii.eqb c ":"); [|reflexivity].
    pose proof (skip_ws_length r1) as W1.
    rewrite (IHs m (skip_ws r1)) by lia.
    destruct (scan_once m (skip_ws r1)) as [[v r2]|] eqn:E1;
      cbn [Py.bind fst snd]; [|reflexivity].
    apply (proj1 (scan_shorter m)) in E1.
    pose proof (skip_ws_length r2) as W2.
    destruct (skip_ws r2) as [|c1 r3]; [reflexivity|]. cbn [String.length] in W2.
    destruct (Ascii.eqb c1 "}"); [reflexivity|].
    destruct (Ascii.eqb c1 ","); [|reflexivity].
    pose proof (skip_ws_length r3) as W3.
    destruct (skip_ws r3) as [|c2 r4]; [reflexivity|]. cbn [String.length] in W3.
    destruct (Ascii.eqb c2 dquote); [|reflexivity].
    rewrite (IHo m r4) by lia. reflexivity.
Qed.

Lemma loads_fuel s fuel :
  (2 * String.length (skip_ws s) + 1 <= fuel)%nat ->
  loads s
  = (vr <- scan_once fuel (skip_ws s) ;;
     match skip_ws (snd vr) with
     | EmptyString => Ok (fst vr)
     | String _ _ => Raise JSONDecodeError
     end).
Proof.
  intros H. unfold loads.
  now rewrite (proj1 (scan_fuel fuel) (2 * String.length (skip_ws s) + 1)%nat) by lia.
Qed.

(** ** Frames the decoder accepts *)

Section Decode.
Context {rules : Rules} {engine : Engine}.


End Decode.



(** ** Frames on the wire *)

Lemma contains_append c a b : contains c (a ++ b) = contains c a || contains c b.
Proof.
  induction a as [|x a IH]; cbn [append contains]; [reflexivity|].
  now rewrite IH, orb_assoc.
Qed.

Lemma escape_char_one_line c : contains line_feed (escape_char c) = false.
Proof. destruct c as [[] [] [] [] [] [] [] []]; reflexivity. Qed.

Lemma escape_one_line s : contains line_feed (escape s) = false.
Proof.
  induction s as [|c s IH]; [reflexivity|].
  cbn [escape]. now rewrite contains_append, escape_char_one_line, IH.
Qed.

Lemma string_of_uint_one_line d :
  contains line_feed (NilEmpty.string_of_uint d) = false.
Proof. induction d; cbn [NilEmpty.string_of_uint contains]; try assumption; reflexivity. Qed.

Lemma str_of_int_one_line n : contains line_feed (str_of_int n) = false.
Proof.
  unfold str_of_int.
  assert (U : forall d, contains line_feed (NilZero.string_of_uint d) = false).
  { intros d. destruct d; try reflexivity; apply (string_of_uint_one_line (_ d)). }
  destruct (Z.to_int n) as [d|d]; cbn [NilZero.string_of_int contains]; apply U.
Qed.

Lemma join_one_line items :
  Forall (fun s => contains line_feed s = false) items ->
  contains line_feed (join items) = false.
Proof.
  induction 1 as [|x items Hx Hitems IH]; [reflexivity|].
  destruct items as [|y items]; [exact Hx|].
  change (join (x :: y :: items)) with (x ++ ", " ++ join (y :: items)).
  now rewrite !contains_append, Hx, IH.
Qed.

Lemma encode_basestring_one_line s :
  contains line_feed (encode_basestring_ascii s) = false.
Proof.
  unfold encode_basestring_ascii. cbn [contains].
  now rewrite contains_append, escape_one_line.
Qed.

(** The text [json.dumps] gives a value holds no line feed. *)
Lemma encode_one_line v : contains line_feed (encode v) = false.
Proof.
  induction v as [| b | n | s | l IH | d IH] using value_ind.
  - reflexivity.
  - now destruct b.
  - apply str_of_int_one_line.
  - apply encode_basestring_one_line.
  - cbn [encode]. rewrite !contains_append, join_one_line; [reflexivity|].
    now apply Forall_map.
  - cbn [encode]. rewrite !contains_append, join_one_line; [reflexivity|].
    apply Forall_map. apply Forall_impl with (2 := IH). intros [k v] H.
    cbn [fst snd] in *. now rewrite !contains_append, encode_basestring_one_line, H.
Qed.

(** [X4] What [send_json_message] writes on an open connection is one
    frame: the text of the message, which holds no line feed, and one line
    feed after it; on a closed connection it writes nothing. *)
Theorem frames_are_lines :
  forall (self : ChessAIServer.t) (message : dict),
    ChessAIServer.written (ChessAIServer.send_json_message self message)
    = (if ChessAIServer.serial_open self
       then (ChessAIServer.written self ++ [ChessAIServer.frame message])%list
       else ChessAIServer.written self)
    /\ ChessAIServer.frame message = dumps (JDict message) ++ String line_feed ""
    /\ contains line_feed (dumps (JDict message)) = false.
Proof.
  intros self message. unfold ChessAIServer.send_json_message.
  split; [now destruct (ChessAIServer.serial_open self)|].
  split; [reflexivity | apply encode_one_line].
Qed.

(** ** Rejected moves *)

Section Handlers.
Context {rules : Rules} {engine : Engine}.

Lemma as_InvalidMoveError_raises {A} (r : result A) e :
  (forall e', r = Raise e' -> e' = ValueError) ->
  as_InvalidMoveError r = Raise e -> e = InvalidMoveError.
Proof.
  intros H. destruct r as [a|e']; simpl; [discriminate|].
  rewrite (H e' eq_refl). now intros [= <-].
Qed.

Lemma parse_square_raises name e : parse_square name = Raise e -> e = ValueError.
Proof.
  unfold parse_square.
  destruct name as [|f [|r [|]]]; try (now intros [= <-]).
  destruct (in_range 97 104 f && in_range 49 56 r); [discriminate|].
  now intros [= <-].
Qed.

Lemma piece_of_symbol_raises c e : piece_of_symbol c = Raise e -> e = ValueError.
Proof.
  unfold piece_of_symbol.
  repeat match goal with
         | |- (if ?c then _ else _) = _ -> _ => destruct c; [discriminate|]
         end.
  now intros [= <-].
Qed.

Lemma from_uci_squares_raises c0 c1 c2 c3 c4 e :
  from_uci_squares c0 c1 c2 c3 c4 = Raise e -> e = InvalidMoveError.
Proof.
  unfold from_uci_squares.
  destruct (as_InvalidMoveError (parse_square (String c0 (String c1 ""))))
    as [fs|e1] eqn:E1; cbn [Py.bind].
  2:{ intros [= Heq]. subst e1. revert E1. apply as_InvalidMoveError_raises.
      intros e'. apply parse_square_raises. }
  destruct (as_InvalidMoveError (parse_square (String c2 (String c3 ""))))
    as [ts|e2] eqn:E2; cbn [Py.bind].
  2:{ intros [= Heq]. subst e2. revert E2. apply as_InvalidMoveError_raises.
      intros e'. apply parse_square_raises. }
  destruct c4 as [c|]; cbn [Py.bind].
  - destruct (piece_of_symbol c) as [pt|e3] eqn:E3; cbn [Py.bind as_InvalidMoveError].
    + destruct (Nat.eqb fs ts); [now intros [= <-] | discriminate].
    + apply piece_of_symbol_raises in E3. subst e3. now intros [= <-].
  - destruct (Nat.eqb fs ts); [now intros [= <-] | discriminate].
Qed.

(** [from_uci] raises nothing but [InvalidMoveError]. *)
Lemma from_uci_raises u e : from_uci u = Raise e -> e = InvalidMoveError.
Proof.
  unfold from_uci.
  destruct (String.eqb u "0000"); [discriminate|].
  destruct u as [|c0 [|c1 [|c2 [|c3 [|c4 [|c5 u]]]]]];
    try (now intros [= <-]).
  - destruct (Ascii.eqb c1 "@"); [|apply from_uci_squares_raises].
    destruct (piece_of_symbol (lower_char c0)) as [d|e1] eqn:E1;
      cbn [Py.bind as_InvalidMoveError].
    + destruct (parse_square (String c2 (String c3 ""))) as [sq|e2] eqn:E2;
        cbn [Py.bind as_InvalidMoveError]; [discriminate|].
      apply parse_square_raises in E2. subst e2. now intros [= <-].
    + apply piece_of_symbol_raises in E1. subst e1. now intros [= <-].
  - apply from_uci_squares_raises.
Qed.

(** What [handle_player_move_complete] does with a pair of texts that is
    not a legal move: nothing but clearing [waiting_for_move]. *)
Lemma handle_player_move_complete_illegal self d from_sq to_sq :
  get d "from" (JStr "") = JStr from_sq ->
  get d "to" (JStr "") = JStr to_sq ->
  legal_uci (ChessAIServer.board self) (lower from_sq ++ lower to_sq) = false ->
  let self' := fst (ChessAIServer.handle_player_move_complete self d) in
  ChessAIServer.board self' = ChessAIServer.board self
  /\ ChessAIServer.written self' = ChessAIServer.written self.
Proof.
  intros Hf Ht Hl. cbv zeta.
  unfold ChessAIServer.handle_player_move_complete. rewrite Hf, Ht.
  destruct (negb (truthy (JStr from_sq)) || negb (truthy (JStr to_sq)));
    [now split|].
  unfold legal_uci in Hl.
  destruct (from_uci (lower from_sq ++ lower to_sq)) as [move|e] eqn:E.
  - rewrite Hl. now split.
  - rewrite (from_uci_raises _ _ E). now split.
Qed.

(** [C6] A move text that is not a legal move of the position, whether it
    reads as a move or not, is rejected: [update_board] returns [False]
    and the board manager is the same afterwards, so its board, its
    occupancy matrix and its history are; [handle_player_move_complete], given
    such a pair, leaves the server's board and occupancy matrix as they were
    and writes nothing. *)
Theorem illegal_move_changes_nothing :
  forall (manager : BoardStateManager.t) (move_uci : string)
         (self : ChessAIServer.t) (d : dict) (from_sq to_sq : string),
    (legal_uci (BoardStateManager.current_state manager) move_uci = false ->
     BoardStateManager.update_board manager move_uci = (manager, false)
     /\ BoardStateManager.get_board_matrix
          (fst (BoardStateManager.update_board manager move_uci))
        = BoardStateManager.get_board_matrix manager
     /\ BoardStateManager.move_history
          (fst (BoardStateManager.update_board manager move_uci))
        = BoardStateManager.move_history manager)
    /\
    (get d "from" (JStr "") = JStr from_sq ->
     get d "to" (JStr "") = JStr to_sq ->
     legal_uci (ChessAIServer.board self) (lower from_sq ++ lower to_sq) = false ->
     let self' := fst (ChessAIServer.handle_player_move_complete self d) in
     ChessAIServer.board self' = ChessAIServer.board self
     /\ ChessAIServer.get_initial_board_matrix self'
        = ChessAIServer.get_initial_board_matrix self
     /\ ChessAIServer.written self' = ChessAIServer.written self).
Proof.
  intros manager move_uci self d from_sq to_sq. split.
  - intros Hl.
    assert (E : BoardStateManager.update_board manager move_uci = (manager, false)).
    { unfold BoardStateManager.update_board. unfold legal_uci in Hl.
      destruct (from_uci move_uci) as [move|e]; [now rewrite Hl | reflexivity]. }
    rewrite E. repeat split.
  - intros Hf Ht Hl.
    destruct (handle_player_move_complete_illegal self d from_sq to_sq Hf Ht Hl)
      as [Hb Hw].
    cbv zeta. unfold ChessAIServer.get_initial_board_matrix.
    rewrite Hb. repeat split. exact Hw.
Qed.

(** ** The session state *)

Lemma dispatch_game_start self d :
  lookup d "type" = Some (JStr "game_start") ->
  ChessAIServer.dispatch self (JDict d) = ChessAIServer.handle_game_start self.
Proof.
  intros H. unfold ChessAIServer.dispatch, get. now rewrite H.
Qed.

Lemma dispatch_player_move self d :
  lookup d "type" = Some (JStr "player_move") ->
  ChessAIServer.dispatch self (JDict d)
  = fst (ChessAIServer.handle_player_move_origin self d).
Proof.
  intros H. unfold ChessAIServer.dispatch, get. now rewrite H.
Qed.

Lemma dispatch_player_move_complete self d :
  lookup d "type" = Some (JStr "player_move_complete") ->
  ChessAIServer.dispatch self (JDict d)
  = fst (ChessAIServer.handle_player_move_complete self d).
Proof.
  intros H. unfold ChessAIServer.dispatch, get. now rewrite H.
Qed.

(** [C8] A [game_start] frame, in whatever state the server is, puts the
    board back to the starting position with an empty move stack and 32
    occupied squares, writes one [board_matrix] frame, and leaves the
    session in [AwaitingOrigin]; the board and the flags afterwards are the
    same from any two states, so a second [game_start] does what the first
    did.  The frame is given character by character: the JSON text of the
    message, the 64 cells of the starting position in it, and one line
    feed; [parse_message] reads it back as the [board_matrix] message with
    the occupancy matrix of that position. *)
Theorem game_start_resets :
  forall (self : ChessAIServer.t) (message : string) (d : dict),
    loads message = Ok (JDict d) ->
    lookup d "type" = Some (JStr "game_start") ->
    ChessAIServer.serial_open self = true ->
    exists self',
      ChessAIServer.process_received_message self message = Ok self'
      /\ ChessAIServer.board self' = starting_board
      /\ move_stack (ChessAIServer.board self') = []
      /\ sum (flatten (ChessAIServer.get_initial_board_matrix self')) = 32
      /\ ChessAIServer.written self'
         = (ChessAIServer.written self ++ [board_matrix_frame])%list
      /\ parse_message board_matrix_frame = Ok (Some (JDict board_matrix_message))
      /\ session_state self' = AwaitingOrigin
      /\ (forall other,
            ChessAIServer.board (ChessAIServer.dispatch other (JDict d))
            = ChessAIServer.board self'
            /\ session_state (ChessAIServer.dispatch other (JDict d))
               = session_state self')
      /\ ChessAIServer.board (ChessAIServer.dispatch self' (JDict d)) = starting_board.
Proof.
  intros self message d Hload Htype Hopen.
  exists (ChessAIServer.handle_game_start self).
  unfold ChessAIServer.process_received_message. rewrite Hload.
  rewrite (dispatch_game_start self d Htype).
  assert (S : forall s, session_state (ChessAIServer.handle_game_start s)
                        = AwaitingOrigin).
  { intros s. unfold ChessAIServer.handle_game_start, ChessAIServer.send_board_matrix,
      ChessAIServer.send_json_message. simpl.
    now destruct (ChessAIServer.serial_open s). }
  split; [reflexivity|].
  split; [apply handle_game_start_board|].
  split; [now rewrite handle_game_start_board|].
  split.
  { unfold ChessAIServer.get_initial_board_matrix.
    now rewrite handle_game_start_board. }
  split.
  { unfold ChessAIServer.handle_game_start, ChessAIServer.send_board_matrix,
      ChessAIServer.send_json_message. simpl ChessAIServer.serial_open.
    rewrite Hopen. reflexivity. }
  split; [vm_compute; reflexivity|].
  split; [apply S|].
  split.
  { intros other. rewrite (dispatch_game_start other d Htype).
    now rewrite !handle_game_start_board, !S. }
  rewrite (dispatch_game_start _ d Htype). apply handle_game_start_board.
Qed.


End Handlers.

(** *** The server at concrete frames *)

Lemma illegal_move_changes_nothing_witness :
  BoardStateManager.update_board (rules := Demo.rules) BoardStateManager.init "e2e5"
  = (BoardStateManager.init, false)
  /\ ChessAIServer.board
       (fst (ChessAIServer.handle_player_move_complete
               (rules := Demo.rules)
               idle_server (move_complete_message "E2" "E5")))
     = ChessAIServer.board idle_server.
Proof.
  destruct (illegal_move_changes_nothing (rules := Demo.rules)
              BoardStateManager.init "e2e5" idle_server
              (move_complete_message "E2" "E5") "E2" "E5") as [A B].
  split.
  - apply A. reflexivity.
  - apply B; reflexivity.
Defined.

Lemma game_start_resets_witness :
  exists self',
    ChessAIServer.process_received_message (rules := Demo.rules) (engine := Demo.engine)
      idle_server (dumps (JDict game_start_message)) = Ok self'
    /\ ChessAIServer.board self' = starting_board
    /\ ChessAIServer.written self' = [board_matrix_frame]
    /\ session_state self' = AwaitingOrigin.
Proof.
  destruct (game_start_resets (rules := Demo.rules) (engine := Demo.engine)
              idle_server (dumps (JDict game_start_message)) game_start_message)
    as (self' & P & B & _ & _ & W & _ & S & _); try reflexivity.
  exists self'. repeat split; assumption.
Defined.



(** ** The move advisor *)

Section Advisor.
Context {rules : Rules} {engine : Engine}.

Lemma candidate_scores_cons b move rest scores :
  candidate_scores b (move :: rest) = Ok scores ->
  exists s others,
    analyse (push b move) = Ok s
    /\ candidate_scores b rest = Ok others
    /\ scores = s :: others.
Proof.
  unfold candidate_scores. cbn [ChessAIServer.map_result].
  destruct (analyse (push b move)) as [s|]; [|discriminate].
  cbn [Py.bind].
  destruct (ChessAIServer.map_result _ rest) as [others|]; [|discriminate].
  cbn [Py.bind]. intros [= <-]. now exists s, others.
Qed.

(** The best move so far stays when no score left beats it; otherwise the
    loop ends on the first candidate of greatest score among those that
    beat it. *)
Lemma evaluate_first_maximum b moves :
  forall scores best_move best_score,
    candidate_scores b moves = Ok scores ->
    exists r,
      ChessAIServer.evaluate b moves best_move best_score = (b, Ok r)
      /\ ((r = best_move
           /\ Forall (fun s => ChessAIServer.score_gt s best_score = false) scores)
          \/ (exists i s,
                nth_error moves i = Some r
                /\ nth_error scores i = Some s
                /\ ChessAIServer.score_gt s best_score = true
                /\ (forall j sj, nth_error scores j = Some sj -> sj <= s)
                /\ (forall j sj, (j < i)%nat -> nth_error scores j = Some sj -> sj < s))).
Proof.
  induction moves as [|move rest IH]; intros scores best_move best_score H.
  - injection H as <-. exists best_move. split; [reflexivity|]. left. now split.
  - destruct (candidate_scores_cons _ _ _ _ H) as (s0 & others & Ha & Hr & ->).
    cbn [ChessAIServer.evaluate]. rewrite Ha.
    destruct (ChessAIServer.score_gt s0 best_score) eqn:G.
    + destruct (IH others move (ChessAIServer.Score s0) Hr) as (r & E & [[-> F]|R]).
      * exists move. split; [exact E|]. right. exists 0%nat, s0.
        repeat split; try assumption; try reflexivity.
        -- intros [|j] sj Hj; simpl in Hj.
           ++ injection Hj as <-. lia.
           ++ rewrite Forall_forall in F. apply nth_error_In, F in Hj.
              simpl in Hj. lia.
        -- intros j sj Hj. lia.
      * destruct R as (i & s & Hm & Hs & Hg & Hall & Hbefore).
        exists r. split; [exact E|]. right. exists (S i), s.
        simpl in Hg. apply Z.ltb_lt in Hg.
        repeat split; try assumption.
        -- destruct best_score as [|bs]; [reflexivity|].
           simpl in G |- *. apply Z.ltb_lt in G. apply Z.ltb_lt. lia.
        -- intros [|j] sj Hj; simpl in Hj.
           ++ injection Hj as <-. lia.
           ++ now apply (Hall j).
        -- intros [|j] sj Hlt Hj; simpl in Hj.
           ++ injection Hj as <-. lia.
           ++ apply (Hbefore j); [lia | assumption].
    + destruct (IH others best_move best_score Hr) as (r & E & [[-> F]|R]).
      * exists best_move. split; [exact E|]. left. split; [reflexivity|].
        now constructor.
      * destruct R as (i & s & Hm & Hs & Hg & Hall & Hbefore).
        exists r. split; [exact E|]. right. exists (S i), s.
        assert (s0 < s).
        { destruct best_score as [|bs]; [discriminate G|].
          simpl in G, Hg. apply Z.ltb_ge in G. apply Z.ltb_lt in Hg. lia. }
        repeat split; try assumption.
        -- intros [|j] sj Hj; simpl in Hj.
           ++ injection Hj as <-. lia.
           ++ now apply (Hall j).
        -- intros [|j] sj Hlt Hj; simpl in Hj.
           ++ injection Hj as <-. lia.
           ++ apply (Hbefore j); [lia | assumption].
Qed.

Lemma set_board_same self :
  ChessAIServer.set_board self (ChessAIServer.board self) = self.
Proof. now destruct self. Qed.

(** [C7] Given a score for every candidate, [get_best_move_from_options]
    returns the first candidate of greatest score: its score is at least
    that of every candidate and strictly greater than that of every
    earlier one, so among candidates of equal greatest score the first in
    the order of the list wins.  The board is left as it was. *)
Theorem best_move_is_first_maximum :
  forall (self : ChessAIServer.t) (moves : list Move) (scores : list Z),
    moves <> [] ->
    candidate_scores (ChessAIServer.board self) moves = Ok scores ->
    exists i best s,
      ChessAIServer.get_best_move_from_options self moves = (self, Some best)
      /\ nth_error moves i = Some best
      /\ nth_error scores i = Some s
      /\ (forall j sj, nth_error scores j = Some sj -> sj <= s)
      /\ (forall j sj, (j < i)%nat -> nth_error scores j = Some sj -> sj < s).
Proof.
  intros self moves scores Hne H.
  destruct moves as [|first rest]; [contradiction|].
  destruct (evaluate_first_maximum _ _ scores first ChessAIServer.NegInf H)
    as (r & E & [[_ F]|R]).
  - destruct (candidate_scores_cons _ _ _ _ H) as (s0 & others & _ & _ & ->).
    inversion F. discriminate.
  - destruct R as (i & s & Hm & Hs & _ & Hall & Hbefore).
    exists i, r, s. unfold ChessAIServer.get_best_move_from_options.
    rewrite E, set_board_same. repeat split; assumption.
Qed.

Lemma candidate_scores_raises b move rest e :
  candidate_scores b (move :: rest) = Raise e ->
  analyse (push b move) = Raise e
  \/ (exists s, analyse (push b move) = Ok s /\ candidate_scores b rest = Raise e).
Proof.
  unfold candidate_scores. cbn [ChessAIServer.map_result].
  destruct (analyse (push b move)) as [s|e']; cbn [Py.bind].
  - destruct (ChessAIServer.map_result _ rest) as [others|e'']; cbn [Py.bind];
      [discriminate|].
    intros [= <-]. right. now exists s.
  - intros [= <-]. now left.
Qed.

(** When the engine raises on a candidate, the loop stops there with that
    candidate still pushed on the board. *)
Lemma evaluate_raises b moves :
  forall best_move best_score e,
    candidate_scores b moves = Raise e ->
    exists failing,
      In failing moves
      /\ analyse (push b failing) = Raise e
      /\ ChessAIServer.evaluate b moves best_move best_score
         = (push b failing, Raise e).
Proof.
  induction moves as [|move rest IH]; intros best_move best_score e H;
    [discriminate|].
  destruct (candidate_scores_raises _ _ _ _ H) as [A | (s & A & R)].
  - exists move. cbn [ChessAIServer.evaluate]. rewrite A.
    repeat split. now left.
  - cbn [ChessAIServer.evaluate]. rewrite A.
    destruct (ChessAIServer.score_gt s best_score).
    + destruct (IH move (ChessAIServer.Score s) e R) as (f & Hin & Hf & E).
      exists f. repeat split; [now right | exact Hf | exact E].
    + destruct (IH best_move best_score e R) as (f & Hin & Hf & E).
      exists f. repeat split; [now right | exact Hf | exact E].
Qed.

(** [X1] When the engine raises on one of the candidates,
    [get_best_move_from_options] returns the first candidate of the list;
    the candidate under analysis is not popped, so the board is left with
    that candidate pushed. *)
Theorem best_move_falls_back_to_first :
  forall (self : ChessAIServer.t) (first : Move) (rest : list Move) (e : exn),
    candidate_scores (ChessAIServer.board self) (first :: rest) = Raise e ->
    exists failing,
      In failing (first :: rest)
      /\ analyse (push (ChessAIServer.board self) failing) = Raise e
      /\ ChessAIServer.get_best_move_from_options self (first :: rest)
         = (ChessAIServer.set_board self (push (ChessAIServer.board self) failing),
            Some first).
Proof.
  intros self first rest e H.
  destruct (evaluate_raises _ _ first ChessAIServer.NegInf e H) as (f & Hin & Hf & E).
  exists f. unfold ChessAIServer.get_best_move_from_options. rewrite E.
  now repeat split.
Qed.

End Advisor.

Lemma best_move_is_first_maximum_witness :
  exists i best s,
    ChessAIServer.get_best_move_from_options (rules := Demo.rules) (engine := Demo.engine)
      idle_server [Demo.e2e3; Demo.e2e4] = (idle_server, Some best)
    /\ nth_error [Demo.e2e3; Demo.e2e4] i = Some best
    /\ nth_error [0; 0] i = Some s.
Proof.
  destruct (best_move_is_first_maximum (rules := Demo.rules) (engine := Demo.engine)
              idle_server [Demo.e2e3; Demo.e2e4] [0; 0])
    as (i & best & s & G & M & S & _); [discriminate | reflexivity |].
  now exists i, best, s.
Defined.

(** Two candidates of equal score: the first is returned, and its score
    is not strictly greater than that of the later one. *)
Lemma best_move_tie_counterexample :
  exists best later score_best score_later,
    ChessAIServer.get_best_move_from_options (rules := Demo.rules) (engine := Demo.engine)
      idle_server [Demo.e2e3; Demo.e2e4] = (idle_server, Some best)
    /\ nth_error [Demo.e2e3; Demo.e2e4] 0 = Some best
    /\ nth_error [Demo.e2e3; Demo.e2e4] 1 = Some later
    /\ analyse (Engine := Demo.engine)
         (push (Rules := Demo.rules) (ChessAIServer.board idle_server) best)
       = Ok score_best
    /\ analyse (Engine := Demo.engine)
         (push (Rules := Demo.rules) (ChessAIServer.board idle_server) later)
       = Ok score_later
    /\ score_best <= score_later.
Proof.
  exists Demo.e2e3, Demo.e2e4, 0, 0. repeat split. discriminate.
Qed.

Lemma best_move_falls_back_to_first_witness :
  exists failing,
    ChessAIServer.get_best_move_from_options (rules := Demo.rules) (engine := Demo.no_engine)
      idle_server [Demo.e2e3; Demo.e2e4]
    = (ChessAIServer.set_board idle_server
         (push (Rules := Demo.rules) (ChessAIServer.board idle_server) failing),
       Some Demo.e2e3).
Proof.
  destruct (best_move_falls_back_to_first (rules := Demo.rules) (engine := Demo.no_engine)
              idle_server Demo.e2e3 [Demo.e2e4] EngineError)
    as (failing & _ & _ & E); [reflexivity|].
  now exists failing.
Defined.

(** ** The other transitions *)

Section Transitions.
Context {rules : Rules} {engine : Engine}.

(** [X2] The guard of [handle_player_move_origin]: a square that holds no
    piece, or a black piece, or a position where Black is to move, or a
    piece without a legal move, leaves the server as it was, nothing
    written. *)
Theorem player_move_guard :
  forall (self : ChessAIServer.t) (d : dict) (from_sq : string) (sq : Square),
    get d "from" (JStr "") = JStr from_sq ->
    parse_square (lower from_sq) = Ok sq ->
    piece_at (ChessAIServer.board self) sq = None
    \/ (exists piece, piece_at (ChessAIServer.board self) sq = Some piece
                      /\ color piece = BLACK)
    \/ turn (ChessAIServer.board self) = BLACK
    \/ ChessAIServer.get_possible_moves_from_square self sq = [] ->
    ChessAIServer.handle_player_move_origin self d = (self, None).
Proof.
  intros self d from_sq sq Hf Hsq H.
  unfold ChessAIServer.handle_player_move_origin. rewrite Hf.
  destruct (negb (truthy (JStr from_sq))); [reflexivity|].
  rewrite Hsq.
  destruct H as [H | [(piece & H & Hc) | [H | H]]].
  - now rewrite H.
  - now rewrite H, Hc.
  - destruct (piece_at (ChessAIServer.board self) sq) as [piece|]; [|reflexivity].
    rewrite H. now destruct (color piece).
  - destruct (piece_at (ChessAIServer.board self) sq) as [piece|]; [|reflexivity].
    destruct (color piece), (turn (ChessAIServer.board self)); try reflexivity.
    now rewrite H.
Qed.

(** [X3] [handle_ai_move_confirmed] touches neither the board nor the
    connection: it clears [waiting_for_move], and clears [game_started]
    when the game is over. *)
Theorem ai_move_confirmed_effect :
  forall (self : ChessAIServer.t),
    let self' := ChessAIServer.handle_ai_move_confirmed self in
    ChessAIServer.board self' = ChessAIServer.board self
    /\ ChessAIServer.written self' = ChessAIServer.written self
    /\ ChessAIServer.waiting_for_move self' = false
    /\ ChessAIServer.game_started self'
       = (if is_game_over (ChessAIServer.board self) then false
          else ChessAIServer.game_started self).
Proof.
  intros self. cbv zeta. unfold ChessAIServer.handle_ai_move_confirmed.
  cbn [ChessAIServer.board ChessAIServer.set_waiting_for_move].
  destruct (is_game_over (ChessAIServer.board self)); now repeat split.
Qed.

End Transitions.

Lemma player_move_guard_witness :
  ChessAIServer.handle_player_move_origin (rules := Demo.rules) (engine := Demo.engine)
    idle_server [("type", JStr "player_move"); ("from", JStr "E7")]
  = (idle_server, None).
Proof.
  apply (player_move_guard (rules := Demo.rules) (engine := Demo.engine)
           idle_server _ "E7" Demo.e7); [reflexivity | reflexivity |].
  right. left. eexists. split; reflexivity.
Defined.

(* ================================================================= *)
(** * The rest of the two files

    The properties below are read off the code of the functions the
    specification does not speak of, and of the handlers beyond what it
    says of them. *)

(** ** Names of squares and texts of moves *)

Lemma file_letter_cases f :
  in_range 97 104 f = true ->
  f = "a"%char \/ f = "b"%char \/ f = "c"%char \/ f = "d"%char
  \/ f = "e"%char \/ f = "f"%char \/ f = "g"%char \/ f = "h"%char.
Proof. each_ascii f; intros H; try discriminate H; pick_disjunct. Qed.

Lemma rank_digit_cases r :
  in_range 49 56 r = true ->
  r = "1"%char \/ r = "2"%char \/ r = "3"%char \/ r = "4"%char
  \/ r = "5"%char \/ r = "6"%char \/ r = "7"%char \/ r = "8"%char.
Proof. each_ascii r; intros H; try discriminate H; pick_disjunct. Qed.

Lemma valid_file_lower f :
  GameValidator.between "A" "H" (upper_char f) = in_range 97 104 (lower_char f).
Proof. each_ascii f; reflexivity. Qed.

Lemma valid_rank_lower r :
  GameValidator.between "1" "8" r = in_range 49 56 (lower_char r).
Proof. each_ascii r; reflexivity. Qed.

Lemma lower_file_cases f :
  in_range 97 104 (lower_char f) = true ->
  exists g, in_range 97 104 g = true /\ (f = g \/ f = upper_char g).
Proof.
  intros H. exists (lower_char f). split; [exact H|].
  revert H. each_ascii f; intros H; try discriminate H;
    first [left; reflexivity | right; reflexivity].
Qed.

Lemma lower_rank_same r : in_range 49 56 (lower_char r) = true -> lower_char r = r.
Proof. each_ascii r; intros H; try discriminate H; reflexivity. Qed.

(** The squares of the board by name: what [parse_square] reads from the
    name [square_name] gives. *)
Lemma square_name_parse sq :
  (sq < 64)%nat ->
  exists f r,
    square_name sq = Ok (String f (String r ""))
    /\ in_range 97 104 f = true /\ in_range 49 56 r = true
    /\ parse_square (String f (String r "")) = Ok sq.
Proof.
  intros H.
  do 64 (destruct sq as [|sq];
         [eexists; eexists; split; [reflexivity|]; repeat split|]).
  lia.
Qed.

Lemma parse_square_coordinates f r sq :
  parse_square (String f (String r "")) = Ok sq ->
  (sq < 64)%nat
  /\ in_range 97 104 f = true /\ in_range 49 56 r = true
  /\ square_name sq = Ok (String f (String r ""))
  /\ square_to_coordinates (String f (String r ""))
     = Ok (7 - Z.of_nat (square_rank sq), Z.of_nat (square_file sq))
  /\ square_to_coordinates (String (upper_char f) (String r ""))
     = Ok (7 - Z.of_nat (square_rank sq), Z.of_nat (square_file sq)).
Proof.
  unfold parse_square.
  destruct (in_range 97 104 f) eqn:Hf; [|discriminate].
  destruct (in_range 49 56 r) eqn:Hr; [|discriminate].
  cbn [andb]. intros [= <-].
  apply file_letter_cases in Hf. apply rank_digit_cases in Hr.
  repeat (destruct Hf as [Hf|Hf]); repeat (destruct Hr as [Hr|Hr]); subst;
    (split; [vm_compute; lia|]); repeat split.
Qed.

(** The coordinates of a name [parse_square] reads in lower case. *)
Lemma valid_square_coordinates name sq :
  parse_square (lower name) = Ok sq ->
  (sq < 64)%nat
  /\ square_to_coordinates name
     = Ok (7 - Z.of_nat (square_rank sq), Z.of_nat (square_file sq)).
Proof.
  destruct name as [|f [|r [|c name]]]; try discriminate.
  cbn [lower]. intros H.
  destruct (parse_square_coordinates _ _ _ H) as (Hlt & Hf & Hr & _ & C1 & C2).
  split; [exact Hlt|].
  rewrite (lower_rank_same r Hr) in C1, C2.
  destruct (lower_file_cases f Hf) as (g & Hg & [-> | ->]).
  - assert (lower_char g = g) as E
        by (apply file_letter_cases in Hg;
            repeat (destruct Hg as [Hg|Hg]); subst; reflexivity).
    now rewrite E in C1.
  - assert (lower_char (upper_char g) = g) as E
        by (apply file_letter_cases in Hg;
            repeat (destruct Hg as [Hg|Hg]); subst; reflexivity).
    now rewrite E in C2.
Qed.

(** [X5] Among the names made of ASCII characters, [is_valid_square]
    accepts exactly those the handlers can read: such a name is valid
    when, and only when, [chess.parse_square] reads a square from its
    lower-cased text.  The square read is on the board, and
    [square_to_coordinates] puts the name in the row and the column of that
    square: row 0 is rank 8, column 0 is file a. *)
Theorem valid_square_is_parsed :
  forall name,
    is_ascii name = true ->
    (GameValidator.is_valid_square name = true
     <-> exists sq, parse_square (lower name) = Ok sq)
    /\ (forall sq, parse_square (lower name) = Ok sq ->
          (sq < 64)%nat
          /\ square_to_coordinates name
             = Ok (7 - Z.of_nat (square_rank sq), Z.of_nat (square_file sq))).
Proof.
  intros name _. split; [|apply valid_square_coordinates].
  destruct name as [|f [|r [|c name]]];
    try (split; [discriminate | intros [sq H]; discriminate H]).
  cbn [lower GameValidator.is_valid_square].
  rewrite valid_file_lower, valid_rank_lower. unfold parse_square.
  destruct (in_range 97 104 (lower_char f) && in_range 49 56 (lower_char r));
    split; try discriminate; try (intros [sq H]; discriminate H);
    [intros _; eexists; reflexivity | reflexivity].
Qed.

Lemma valid_square_is_parsed_witness :
  GameValidator.is_valid_square "e4" = true
  /\ square_to_coordinates "e4" = Ok (4, 4).
Proof.
  destruct (valid_square_is_parsed "e4" eq_refl) as [V C]. split.
  - apply V. now exists 28%nat.
  - apply (C 28%nat). reflexivity.
Defined.

Lemma file_not_zero c : in_range 97 104 c = true -> Ascii.eqb c "0" = false.
Proof. each_ascii c; intros H; try discriminate H; reflexivity. Qed.

Lemma rank_not_at c : in_range 49 56 c = true -> Ascii.eqb c "@" = false.
Proof. each_ascii c; intros H; try discriminate H; reflexivity. Qed.

(** A text that starts with the name of a square is read by the branch of
    [from_uci] for moves between two squares. *)
Lemma from_uci_four c0 c1 c2 c3 :
  in_range 97 104 c0 = true -> in_range 49 56 c1 = true ->
  from_uci (String c0 (String c1 (String c2 (String c3 ""))))
  = from_uci_squares c0 c1 c2 c3 None.
Proof.
  intros H0 H1. unfold from_uci. cbn [String.eqb].
  now rewrite (file_not_zero _ H0), (rank_not_at _ H1).
Qed.

Lemma from_uci_five c0 c1 c2 c3 c4 :
  from_uci (String c0 (String c1 (String c2 (String c3 (String c4 "")))))
  = from_uci_squares c0 c1 c2 c3 (Some c4).
Proof.
  unfold from_uci. cbn [String.eqb].
  destruct (Ascii.eqb c0 "0"), (Ascii.eqb c1 "0"), (Ascii.eqb c2 "0"),
    (Ascii.eqb c3 "0"); reflexivity.
Qed.

Lemma from_uci_squares_parsed c0 c1 c2 c3 a b :
  parse_square (String c0 (String c1 "")) = Ok a ->
  parse_square (String c2 (String c3 "")) = Ok b ->
  from_uci_squares c0 c1 c2 c3 None
  = if Nat.eqb a b then Raise InvalidMoveError else Ok (mkMove a b None None).
Proof.
  intros Ha Hb. unfold from_uci_squares. rewrite Ha, Hb. reflexivity.
Qed.

Lemma valid_square_shape name :
  GameValidator.is_valid_square name = true ->
  exists f r sq,
    name = String f (String r "")
    /\ parse_square (String (lower_char f) (String (lower_char r) "")) = Ok sq.
Proof.
  destruct name as [|f [|r [|c name]]]; try discriminate.
  cbn [GameValidator.is_valid_square].
  rewrite valid_file_lower, valid_rank_lower. intros H.
  exists f, r. unfold parse_square. rewrite H. eexists. split; reflexivity.
Qed.

(** [X6] The move [handle_player_move_complete] reads from two valid
    squares whose names are made of ASCII characters: the lower-cased
    names, put end to end, pass [is_valid_move_format] as they came, and
    [from_uci] reads them as the move between the two squares, with no
    promotion and no drop; when both names are of one square it raises
    [InvalidMoveError]. *)
Theorem move_from_valid_squares :
  forall from_sq to_sq,
    is_ascii from_sq = true -> is_ascii to_sq = true ->
    GameValidator.is_valid_square from_sq = true ->
    GameValidator.is_valid_square to_sq = true ->
    exists a b,
      parse_square (lower from_sq) = Ok a
      /\ parse_square (lower to_sq) = Ok b
      /\ GameValidator.is_valid_move_format (from_sq ++ to_sq) = true
      /\ from_uci (lower from_sq ++ lower to_sq)
         = (if Nat.eqb a b then Raise InvalidMoveError
            else Ok (mkMove a b None None)).
Proof.
  intros from_sq to_sq _ _ Hf Ht.
  destruct (valid_square_shape _ Hf) as (f1 & r1 & a & -> & Ha).
  destruct (valid_square_shape _ Ht) as (f2 & r2 & b & -> & Hb).
  exists a, b. cbn [lower append].
  split; [exact Ha|]. split; [exact Hb|]. split.
  - unfold GameValidator.is_valid_move_format. cbn [String.length Nat.ltb Nat.leb].
    change (slice (String f1 (String r1 (String f2 (String r2 "")))) 0 2)
      with (String f1 (String r1 "")).
    change (slice (String f1 (String r1 (String f2 (String r2 "")))) 2 4)
      with (String f2 (String r2 "")).
    now rewrite Hf, Ht.
  - destruct (parse_square_coordinates _ _ _ Ha) as (_ & H0 & H1 & _).
    rewrite (from_uci_four _ _ _ _ H0 H1).
    now apply from_uci_squares_parsed.
Qed.

Lemma move_from_valid_squares_witness :
  from_uci (lower "E2" ++ lower "E4") = Ok Demo.e2e4
  /\ from_uci (lower "E2" ++ lower "e2") = Raise InvalidMoveError.
Proof.
  split.
  - destruct (move_from_valid_squares "E2" "E4" eq_refl eq_refl eq_refl eq_refl)
      as (a & b & Ha & Hb & _ & E).
    injection Ha as <-. injection Hb as <-. exact E.
  - destruct (move_from_valid_squares "E2" "e2" eq_refl eq_refl eq_refl eq_refl)
      as (a & b & Ha & Hb & _ & E).
    injection Ha as <-. injection Hb as <-. exact E.
Defined.

Lemma valid_square_two name :
  GameValidator.is_valid_square name = true ->
  exists f r, name = String f (String r "").
Proof.
  destruct name as [|f [|r [|c name]]]; try discriminate. intros _. now exists f, r.
Qed.

(** [X7] [is_valid_move_format] looks at the first four characters and at
    nothing else: a text passes when, and only when, it starts with two
    valid squares, whatever follows them. *)
Theorem valid_move_format_prefix :
  forall move_str,
    GameValidator.is_valid_move_format move_str = true
    <-> exists from_square to_square rest,
          move_str = from_square ++ to_square ++ rest
          /\ GameValidator.is_valid_square from_square = true
          /\ GameValidator.is_valid_square to_square = true.
Proof.
  intros move_str. unfold GameValidator.is_valid_move_format. split.
  - destruct move_str as [|a [|b [|c [|d rest]]]]; try discriminate.
    cbn [String.length Nat.ltb Nat.leb].
    assert (S2 : slice (String a (String b (String c (String d rest)))) 2 4
                 = String c (String d "")).
    { unfold slice. cbn [Nat.sub substring]. now destruct rest. }
    rewrite S2.
    change (slice (String a (String b (String c (String d rest)))) 0 2)
      with (String a (String b "")).
    intros H. apply andb_prop in H. destruct H as [Hf Ht].
    exists (String a (String b "")), (String c (String d "")), rest.
    now repeat split.
  - intros (from_square & to_square & rest & -> & Hf & Ht).
    destruct (valid_square_two _ Hf) as (a & b & ->).
    destruct (valid_square_two _ Ht) as (c & d & ->).
    cbn [append String.length Nat.ltb Nat.leb].
    assert (S2 : slice (String a (String b (String c (String d rest)))) 2 4
                 = String c (String d "")).
    { unfold slice. cbn [Nat.sub substring]. now destruct rest. }
    rewrite S2.
    change (slice (String a (String b (String c (String d rest)))) 0 2)
      with (String a (String b "")).
    now rewrite Hf, Ht.
Qed.

Lemma valid_move_format_prefix_witness :
  GameValidator.is_valid_move_format "E7E8Q" = true.
Proof.
  apply valid_move_format_prefix. exists "E7", "E8", "Q". now repeat split.
Defined.

Lemma piece_symbol_read p : exists c, piece_symbol p = String c "" /\ piece_of_symbol c = Ok p.
Proof. destruct p; eexists; split; reflexivity. Qed.

Lemma upper_file_not_lower f : in_range 97 104 f = true -> in_range 97 104 (upper_char f) = false.
Proof. each_ascii f; intros H; try discriminate H; reflexivity. Qed.

Lemma upper_file_not_zero f : in_range 97 104 f = true -> Ascii.eqb (upper_char f) "0" = false.
Proof. each_ascii f; intros H; try discriminate H; reflexivity. Qed.

Lemma upper_rank_same r : in_range 49 56 r = true -> upper_char r = r.
Proof. each_ascii r; intros H; try discriminate H; reflexivity. Qed.

(** The text of a move between two squares of the board. *)
Lemma uci_text move :
  (from_square move < 64)%nat -> (to_square move < 64)%nat ->
  from_square move <> to_square move -> drop move = None ->
  exists f1 r1 f2 r2,
    parse_square (String f1 (String r1 "")) = Ok (from_square move)
    /\ parse_square (String f2 (String r2 "")) = Ok (to_square move)
    /\ square_name (from_square move) = Ok (String f1 (String r1 ""))
    /\ square_name (to_square move) = Ok (String f2 (String r2 ""))
    /\ uci move
       = Ok (String f1 (String r1 (String f2 (String r2
               (match promotion move with
                | Some p => piece_symbol p
                | None => ""
                end))))).
Proof.
  intros Hf Ht Hne Hd.
  destruct (square_name_parse _ Hf) as (f1 & r1 & N1 & _ & _ & P1).
  destruct (square_name_parse _ Ht) as (f2 & r2 & N2 & _ & _ & P2).
  exists f1, r1, f2, r2. repeat (split; [assumption|]).
  unfold uci. rewrite Hd, N1, N2.
  destruct (promotion move) as [p|]; [reflexivity|].
  now rewrite (Move_bool_distinct _ Hne).
Qed.

(** The text of a move is read back as the move. *)
Lemma from_uci_uci move text :
  (from_square move < 64)%nat -> (to_square move < 64)%nat ->
  from_square move <> to_square move -> drop move = None ->
  uci move = Ok text -> from_uci text = Ok move.
Proof.
  intros Hf Ht Hne Hd Hu.
  destruct (uci_text move Hf Ht Hne Hd) as (f1 & r1 & f2 & r2 & P1 & P2 & _ & _ & U).
  rewrite U in Hu. injection Hu as <-.
  assert (E : Nat.eqb (from_square move) (to_square move) = false)
    by now apply Nat.eqb_neq.
  destruct move as [fs ts [p|] d]; cbn [promotion from_square to_square drop] in *;
    subst d.
  - destruct (piece_symbol_read p) as (c & -> & Hc).
    rewrite from_uci_five. unfold from_uci_squares.
    rewrite P1, P2, Hc. cbn [as_InvalidMoveError Py.bind]. now rewrite E.
  - destruct (parse_square_coordinates _ _ _ P1) as (_ & H0 & H1 & _).
    rewrite (from_uci_four _ _ _ _ H0 H1).
    rewrite (from_uci_squares_parsed _ _ _ _ _ _ P1 P2). now rewrite E.
Qed.

(** The upper-cased text of a move is not read as a move. *)
Lemma from_uci_wire_form move wire :
  (from_square move < 64)%nat -> (to_square move < 64)%nat ->
  from_square move <> to_square move -> drop move = None ->
  ChessAIServer.wire_form move = Ok wire -> from_uci wire = Raise InvalidMoveError.
Proof.
  intros Hf Ht Hne Hd Hw.
  destruct (uci_text move Hf Ht Hne Hd) as (f1 & r1 & f2 & r2 & P1 & _ & _ & _ & U).
  unfold ChessAIServer.wire_form in Hw. rewrite U in Hw. cbn [Py.bind upper] in Hw.
  injection Hw as <-.
  destruct (parse_square_coordinates _ _ _ P1) as (_ & H0 & H1 & _).
  assert (Hraise : forall c2 c3 c4,
             from_uci_squares (upper_char f1) (upper_char r1) c2 c3 c4
             = Raise InvalidMoveError).
  { intros c2 c3 c4. unfold from_uci_squares, parse_square.
    now rewrite (upper_file_not_lower _ H0). }
  destruct (promotion move) as [p|].
  - destruct (piece_symbol_read p) as (c & -> & _). cbn [upper].
    rewrite from_uci_five. apply Hraise.
  - cbn [upper]. unfold from_uci. cbn [String.eqb].
    rewrite (upper_file_not_zero _ H0), (upper_rank_same _ H1), (rank_not_at _ H1).
    rewrite <- (upper_rank_same _ H1) at 1. apply Hraise.
Qed.

Section Manager.
Context {rules : Rules}.

(** [X8] [update_board] reads lower-case texts only.  Given the text
    [move.uci()] of a move between two squares of the board, it applies that
    very move when it is legal, and notes the text in the history; given
    the upper-cased text of the same move, the form the server writes in
    its frames, it returns [False] and changes nothing, legal or not. *)
Theorem update_board_reads_lower_case :
  forall (manager : BoardStateManager.t) (move : Move),
    (from_square move < 64)%nat -> (to_square move < 64)%nat ->
    from_square move <> to_square move -> drop move = None ->
    exists text wire,
      uci move = Ok text
      /\ ChessAIServer.wire_form move = Ok wire
      /\ BoardStateManager.update_board manager text
         = (if is_legal (BoardStateManager.current_state manager) move
            then (BoardStateManager.mk
                    (push (BoardStateManager.current_state manager) move)
                    (BoardStateManager.move_history manager ++ [text])%list,
                  true)
            else (manager, false))
      /\ BoardStateManager.update_board manager wire = (manager, false).
Proof.
  intros manager move Hf Ht Hne Hd.
  destruct (uci_text move Hf Ht Hne Hd) as (f1 & r1 & f2 & r2 & _ & _ & _ & _ & U).
  eexists. eexists. split; [exact U|].
  split; [unfold ChessAIServer.wire_form; rewrite U; reflexivity|].
  split.
  - unfold BoardStateManager.update_board.
    now rewrite (from_uci_uci move _ Hf Ht Hne Hd U).
  - unfold BoardStateManager.update_board.
    erewrite from_uci_wire_form; try eassumption; [reflexivity|].
    unfold ChessAIServer.wire_form. rewrite U. reflexivity.
Qed.

End Manager.

Lemma update_board_reads_lower_case_witness :
  BoardStateManager.update_board (rules := Demo.rules) BoardStateManager.init "e2e4"
  = (BoardStateManager.mk (push (Rules := Demo.rules) starting_board Demo.e2e4) ["e2e4"], true)
  /\ BoardStateManager.update_board (rules := Demo.rules) BoardStateManager.init "E2E4"
     = (BoardStateManager.init, false).
Proof.
  destruct (update_board_reads_lower_case (rules := Demo.rules)
              BoardStateManager.init Demo.e2e4)
    as (text & wire & U & W & A & B);
    [vm_compute; lia | vm_compute; lia | discriminate | reflexivity |].
  injection U as <-. injection W as <-. split; [exact A | exact B].
Defined.

Lemma capital_of_file f : in_range 97 104 f = true -> capital_in_range f = true.
Proof. each_ascii f; intros H; try discriminate H; reflexivity. Qed.

Lemma capital_of_rank r : in_range 49 56 r = true -> capital_in_range r = true.
Proof. each_ascii r; intros H; try discriminate H; reflexivity. Qed.

Lemma str_upper_length s t : str_upper s = Ok t -> String.length t = String.length s.
Proof.
  unfold str_upper. destruct (all_chars capital_in_range s); [|discriminate].
  intros [= <-]. induction s as [|c s IH]; cbn [upper String.length]; congruence.
Qed.

Lemma str_upper_raises s e : str_upper s = Raise e -> e = Unmodelled.
Proof.
  unfold str_upper. destruct (all_chars capital_in_range s); [discriminate|].
  now intros [= <-].
Qed.

Lemma slice_length s i j :
  (i <= j)%nat -> (j <= String.length s)%nat ->
  String.length (slice s i j) = (j - i)%nat.
Proof.
  unfold slice. revert i j. induction s as [|c s IH]; intros i j Hij Hj.
  - cbn [String.length] in Hj. assert (j = 0%nat) by lia. subst.
    assert (i = 0%nat) by lia. subst. reflexivity.
  - cbn [String.length] in Hj. destruct i as [|i].
    + destruct j as [|j]; [reflexivity|].
      cbn [substring Nat.sub String.length]. f_equal.
      specialize (IH 0%nat j). rewrite Nat.sub_0_r in IH. apply IH; lia.
    + destruct j as [|j]; [lia|].
      cbn [substring Nat.sub]. apply IH; lia.
Qed.

Lemma all_chars_substring p s :
  all_chars p s = true -> forall i n, all_chars p (substring i n s) = true.
Proof.
  induction s as [|c s IH]; intros H i n; [now destruct i, n|].
  cbn [all_chars] in H. apply andb_prop in H. destruct H as [Hc Hs].
  destruct i as [|i], n as [|n]; cbn [substring all_chars]; try reflexivity.
  - now rewrite Hc, IH.
  - now apply IH.
  - now apply IH.
Qed.

Lemma ascii_capital_in_range c : (ord c <? 128) = true -> capital_in_range c = true.
Proof.
  intros H. apply Z.ltb_lt in H. unfold capital_in_range.
  destruct (Z.eqb_spec (ord c) 181); [lia|].
  destruct (Z.eqb_spec (ord c) 223); [lia|].
  destruct (Z.eqb_spec (ord c) 255); [lia|]. reflexivity.
Qed.

(** On a text of ASCII characters [upper] is what [str.upper] gives. *)
Lemma str_upper_ascii s : is_ascii s = true -> str_upper s = Ok (upper s).
Proof.
  intros H. unfold str_upper.
  assert (A : all_chars capital_in_range s = true).
  { unfold is_ascii in H. induction s as [|c s IH]; [reflexivity|].
    cbn [all_chars] in *. apply andb_prop in H. destruct H as [Hc Hs].
    now rewrite (ascii_capital_in_range _ Hc), IH. }
  now rewrite A.
Qed.

(** [X9] [uci_to_readable] on the text of a move between two squares of
    the board gives the upper-cased names of the two squares with a hyphen
    between them; the letter of a promotion is dropped.  On a text of
    ASCII characters it returns, and its result has five characters when
    the text has four or more, and the length of the text otherwise.  On
    no text does it raise a Python exception. *)
Theorem uci_to_readable_of_move :
  (forall move,
     (from_square move < 64)%nat -> (to_square move < 64)%nat ->
     from_square move <> to_square move -> drop move = None ->
     exists origin destination text,
       square_name (from_square move) = Ok origin
       /\ square_name (to_square move) = Ok destination
       /\ uci move = Ok text
       /\ uci_to_readable text = Ok (upper origin ++ "-" ++ upper destination))
  /\ (forall text,
        is_ascii text = true ->
        exists readable,
          uci_to_readable text = Ok readable
          /\ String.length readable
             = (if (4 <=? String.length text)%nat then 5
                else String.length text)%nat)
  /\ (forall text e, uci_to_readable text = Raise e -> e = Unmodelled).
Proof.
  split; [|split].
  - intros move Hf Ht Hne Hd.
    destruct (uci_text move Hf Ht Hne Hd)
      as (f1 & r1 & f2 & r2 & P1 & P2 & N1 & N2 & U).
    eexists. eexists. eexists.
    split; [exact N1|]. split; [exact N2|]. split; [exact U|].
    destruct (parse_square_coordinates _ _ _ P1) as (_ & A0 & A1 & _).
    destruct (parse_square_coordinates _ _ _ P2) as (_ & B0 & B1 & _).
    unfold uci_to_readable. cbn [String.length Nat.leb].
    change (slice (String f1 (String r1 (String f2 (String r2 ?rest)))) 0 2)
      with (String f1 (String r1 "")).
    assert (Hslice : forall rest,
               slice (String f1 (String r1 (String f2 (String r2 rest)))) 2 4
               = String f2 (String r2 "")).
    { intros rest. unfold slice. cbn [Nat.sub substring]. now destruct rest. }
    rewrite Hslice. unfold str_upper. cbn [all_chars].
    now rewrite (capital_of_file _ A0), (capital_of_rank _ A1),
      (capital_of_file _ B0), (capital_of_rank _ B1).
  - intros text Hascii. unfold uci_to_readable.
    destruct (4 <=? String.length text)%nat eqn:L.
    + apply Nat.leb_le in L.
      pose proof (str_upper_ascii _ (all_chars_substring _ _ Hascii 0 (2 - 0))) as A.
      pose proof (str_upper_ascii _ (all_chars_substring _ _ Hascii 2 (4 - 2))) as B.
      fold (slice text 0 2) in A. fold (slice text 2 4) in B.
      rewrite A, B. cbn [Py.bind]. eexists. split; [reflexivity|].
      apply str_upper_length in A, B.
      rewrite slice_length in A, B by lia.
      rewrite length_append. cbn [append String.length]. lia.
    + rewrite (str_upper_ascii _ Hascii). eexists. split; [reflexivity|].
      now apply (str_upper_length text), str_upper_ascii.
  - intros text e. unfold uci_to_readable.
    destruct (4 <=? String.length text)%nat; [|apply str_upper_raises].
    destruct (str_upper (slice text 0 2)) as [a|e1] eqn:A; cbn [Py.bind].
    + destruct (str_upper (slice text 2 4)) as [b|e2] eqn:B; cbn [Py.bind];
        [discriminate|].
      intros [= <-]. now apply str_upper_raises in B.
    + intros [= <-]. now apply str_upper_raises in A.
Qed.

Lemma uci_to_readable_of_move_witness :
  uci_to_readable "e7e8q" = Ok "E7-E8".
Proof.
  destruct (proj1 uci_to_readable_of_move Demo.e7e8q)
    as (o & d & t & O & D & T & R);
    [vm_compute; lia | vm_compute; lia | discriminate | reflexivity |].
  injection O as <-. injection D as <-. injection T as <-. exact R.
Defined.

(** ** The board manager *)

Lemma sum_app a b : sum (a ++ b) = sum a + sum b.
Proof. unfold sum. induction a as [|x a IH]; cbn [app fold_right]; lia. Qed.

Lemma sum_flatten matrix :
  fold_right Z.add 0 (map (fold_right Z.add 0) matrix) = sum (flatten matrix).
Proof.
  unfold flatten. induction matrix as [|row matrix IH]; [reflexivity|].
  cbn [map fold_right concat]. rewrite sum_app. unfold sum at 1. lia.
Qed.

Lemma occupancy_row_checked b rank :
  Nat.eqb (List.length (occupancy_row b rank)) 8
  && forallb (fun cell => (cell =? 0) || (cell =? 1)) (occupancy_row b rank) = true.
Proof.
  rewrite occupancy_row_length. cbn [Nat.eqb andb].
  apply forallb_forall. intros x Hx.
  pose proof (occupancy_row_bits b rank) as B. rewrite Forall_forall in B.
  destruct (B x Hx) as [-> | ->]; reflexivity.
Qed.

Lemma length_flatten matrix :
  forallb (fun row => Nat.eqb (List.length row) 8) matrix = true ->
  List.length (flatten matrix) = (8 * List.length matrix)%nat.
Proof.
  unfold flatten. induction matrix as [|row matrix IH]; [reflexivity|].
  cbn [forallb concat List.length]. intros H. apply andb_prop in H.
  destruct H as [Hr Hm]. apply Nat.eqb_eq in Hr.
  rewrite List.length_app, (IH Hm), Hr. lia.
Qed.

(** [X10] A matrix [validate_board_setup] accepts has 64 cells, each 0 or
    1, that sum to 32.  The matrix [get_board_matrix] gives always passes
    the checks of shape, so that it is accepted exactly when 32 squares are
    occupied.  The matrix of [create_test_board_matrix] is that of a fresh
    board manager, and is accepted. *)
Theorem board_setup_counts_pieces :
  (forall matrix,
     GameValidator.validate_board_setup matrix = true ->
     List.length (flatten matrix) = 64%nat
     /\ Forall is_bit (flatten matrix)
     /\ sum (flatten matrix) = 32)
  /\ (forall manager : BoardStateManager.t,
        GameValidator.validate_board_setup (BoardStateManager.get_board_matrix manager)
        = (sum (flatten (BoardStateManager.get_board_matrix manager)) =? 32))
  /\ TestUtilities.create_test_board_matrix
     = BoardStateManager.get_board_matrix BoardStateManager.init
  /\ GameValidator.validate_board_setup TestUtilities.create_test_board_matrix = true.
Proof.
  split; [|split; [|split; reflexivity]].
  - intros matrix. unfold GameValidator.validate_board_setup.
    destruct (Nat.eqb (List.length matrix) 8) eqn:L; [|discriminate].
    cbn [negb]. apply Nat.eqb_eq in L.
    destruct (forallb _ matrix) eqn:F; [|discriminate]. cbn [negb].
    rewrite sum_flatten. intros Hs. apply Z.eqb_eq in Hs.
    split; [|split; [|exact Hs]].
    + rewrite length_flatten, L; [reflexivity|].
      rewrite forallb_forall in F |- *. intros row Hrow.
      specialize (F row Hrow). now apply andb_prop in F.
    + unfold flatten. apply Forall_concat. apply Forall_forall. intros row Hrow.
      rewrite forallb_forall in F. specialize (F row Hrow).
      apply andb_prop in F. destruct F as [_ F].
      rewrite forallb_forall in F. apply Forall_forall. intros x Hx.
      specialize (F x Hx). apply orb_prop in F.
      destruct F as [F|F]; apply Z.eqb_eq in F; [now left | now right].
  - intros manager. unfold GameValidator.validate_board_setup,
      BoardStateManager.get_board_matrix.
    set (b := BoardStateManager.current_state manager).
    assert (L : List.length (occupancy_matrix b) = 8%nat) by reflexivity.
    rewrite L. cbn [Nat.eqb negb].
    assert (F : forallb
                  (fun row =>
                     Nat.eqb (List.length row) 8
                     && forallb (fun cell => (cell =? 0) || (cell =? 1)) row)
                  (occupancy_matrix b) = true).
    { apply forallb_forall. intros row Hrow. unfold occupancy_matrix in Hrow.
      apply in_map_iff in Hrow. destruct Hrow as (rank & <- & _).
      apply occupancy_row_checked. }
    rewrite F. cbn [negb]. now rewrite sum_flatten.
Qed.

Lemma note_piece_names b lists sq :
  (sq < 64)%nat ->
  BoardStateManager.note_piece b lists sq
  = Ok ((fst lists ++ names_of b WHITE [sq])%list,
        (snd lists ++ names_of b BLACK [sq])%list).
Proof.
  intros H. unfold BoardStateManager.note_piece, names_of. cbn [flat_map].
  destruct (square_name_parse sq H) as (f & r & N & _).
  rewrite N. destruct lists as [w k]. cbn [fst snd].
  destruct (piece_at b sq) as [piece|]; cbn [Py.bind];
    [|now rewrite !List.app_nil_r].
  destruct (color piece); cbn [app]; now rewrite !List.app_nil_r.
Qed.

Lemma names_of_app b c l1 l2 :
  names_of b c (l1 ++ l2) = (names_of b c l1 ++ names_of b c l2)%list.
Proof. unfold names_of. apply flat_map_app. Qed.

Lemma piece_positions_fold b squares :
  Forall (fun sq => (sq < 64)%nat) squares ->
  forall lists,
    fold_left (fun acc square => lists <- acc ;; BoardStateManager.note_piece b lists square)
              squares (Ok lists)
    = Ok ((fst lists ++ names_of b WHITE squares)%list,
          (snd lists ++ names_of b BLACK squares)%list).
Proof.
  induction 1 as [|sq squares Hsq Hrest IH]; intros lists.
  - cbn [fold_left names_of flat_map]. rewrite !List.app_nil_r. now destruct lists.
  - cbn [fold_left Py.bind]. rewrite (note_piece_names b lists sq Hsq), IH.
    cbn [fst snd].
    change (sq :: squares) with ([sq] ++ squares)%list.
    now rewrite !names_of_app, !List.app_assoc.
Qed.

Lemma squares_on_board : Forall (fun sq => (sq < 64)%nat) (seq 0 64).
Proof. apply Forall_forall. intros sq H. apply in_seq in H. lia. Qed.

Lemma piece_positions_names (manager : BoardStateManager.t) :
  BoardStateManager.get_piece_positions manager
  = Ok (names_of (BoardStateManager.current_state manager) WHITE (seq 0 64),
        names_of (BoardStateManager.current_state manager) BLACK (seq 0 64)).
Proof.
  unfold BoardStateManager.get_piece_positions.
  now rewrite (piece_positions_fold _ _ squares_on_board).
Qed.

Lemma in_names_of b c name :
  In name (names_of b c (seq 0 64))
  <-> exists sq piece lower_name,
        piece_at b sq = Some piece /\ color piece = c
        /\ square_name sq = Ok lower_name /\ name = upper lower_name.
Proof.
  unfold names_of. rewrite in_flat_map. split.
  - intros (sq & _ & H).
    destruct (piece_at b sq) as [piece|] eqn:P; [|contradiction].
    destruct (square_name sq) as [lower_name|] eqn:N; [|contradiction].
    exists sq, piece, lower_name.
    destruct (color piece), c; try contradiction;
      destruct H as [<- | []]; now repeat split.
  - intros (sq & piece & lower_name & P & C & N & ->).
    exists sq. split.
    + apply in_seq. unfold square_name in N.
      destruct (sq <? 64)%nat eqn:L; [|discriminate]. apply Nat.ltb_lt in L. lia.
    + rewrite P, N, C. destruct c; now left.
Qed.

Lemma length_names_of_board b squares :
  Forall (fun sq => (sq < 64)%nat) squares ->
  Z.of_nat (List.length (names_of b WHITE squares)
            + List.length (names_of b BLACK squares))
  = sum (map (occupied b) squares).
Proof.
  induction 1 as [|sq squares Hsq Hrest IH]; [reflexivity|].
  change (sq :: squares) with ([sq] ++ squares)%list.
  rewrite !names_of_app, !List.length_app, List.map_app, sum_app.
  assert (Z.of_nat (List.length (names_of b WHITE [sq])
                    + List.length (names_of b BLACK [sq]))
          = sum (map (occupied b) [sq])) as H1; [|unfold Square in *; lia].
  unfold names_of, occupied, sum. cbn [flat_map map fold_right].
  destruct (square_name_parse sq Hsq) as (f & r & N & _). rewrite N.
  destruct (piece_at b sq) as [piece|]; [|reflexivity].
  destruct (color piece); reflexivity.
Qed.

Lemma flatten_occupancy b :
  flatten (occupancy_matrix b) = map (occupied b) matrix_order.
Proof. reflexivity. Qed.

Lemma sum_matrix_order (g : Square -> Z) :
  sum (map g matrix_order) = sum (map g (seq 0 64)).
Proof.
  unfold matrix_order, sum, square.
  cbn [rev seq app flat_map map fold_right Nat.sub Nat.mul Nat.add]. lia.
Qed.

(** [X11] [get_piece_positions] raises nothing.  Its list [white] holds
    exactly the upper-cased names of the squares with a white piece, its
    list [black] those of the squares with a black piece, and the two lists
    together have as many names as the matrix of [get_board_matrix] has
    ones. *)
Theorem piece_positions_content :
  forall (manager : BoardStateManager.t),
    let b := BoardStateManager.current_state manager in
    exists white black,
      BoardStateManager.get_piece_positions manager = Ok (white, black)
      /\ (forall name,
            In name white <->
            exists sq piece lower_name,
              piece_at b sq = Some piece /\ color piece = WHITE
              /\ square_name sq = Ok lower_name /\ name = upper lower_name)
      /\ (forall name,
            In name black <->
            exists sq piece lower_name,
              piece_at b sq = Some piece /\ color piece = BLACK
              /\ square_name sq = Ok lower_name /\ name = upper lower_name)
      /\ Z.of_nat (List.length white + List.length black)
         = sum (flatten (BoardStateManager.get_board_matrix manager)).
Proof.
  intros manager b. eexists. eexists.
  split; [apply piece_positions_names|].
  split; [intros name; apply in_names_of|].
  split; [intros name; apply in_names_of|].
  fold b. rewrite (length_names_of_board b _ squares_on_board).
  unfold BoardStateManager.get_board_matrix. fold b.
  now rewrite flatten_occupancy, sum_matrix_order.
Qed.

Lemma occupancy_cell b sq :
  (sq < 64)%nat ->
  cell (occupancy_matrix b) (7 - Z.of_nat (square_rank sq)) (Z.of_nat (square_file sq))
  = Ok (occupied b sq).
Proof.
  intros H. do 64 (destruct sq as [|sq]; [reflexivity|]). lia.
Qed.

Lemma upper_name_coordinates sq lower_name :
  square_name sq = Ok lower_name ->
  (sq < 64)%nat
  /\ GameValidator.is_valid_square (upper lower_name) = true
  /\ square_to_coordinates (upper lower_name)
     = Ok (7 - Z.of_nat (square_rank sq), Z.of_nat (square_file sq))
  /\ coordinates_to_square (7 - Z.of_nat (square_rank sq)) (Z.of_nat (square_file sq))
     = Ok (upper lower_name).
Proof.
  unfold square_name. destruct (sq <? 64)%nat eqn:L; [|discriminate].
  apply Nat.ltb_lt in L. intros [= <-]. split; [exact L|].
  do 64 (destruct sq as [|sq]; [repeat split|]). lia.
Qed.

Lemma coordinates_on_board row col :
  0 <= row <= 7 -> 0 <= col <= 7 ->
  exists sq,
    (sq < 64)%nat
    /\ row = 7 - Z.of_nat (square_rank sq) /\ col = Z.of_nat (square_file sq).
Proof.
  intros Hr Hc. exists (Z.to_nat ((7 - row) * 8 + col)).
  apply small_cases in Hr. apply small_cases in Hc.
  repeat (destruct Hr as [Hr|Hr]); repeat (destruct Hc as [Hc|Hc]); subst;
    (split; [vm_compute; lia|]); split; reflexivity.
Qed.

(** [X12] The lists of [get_piece_positions] and the matrix of
    [get_board_matrix] tell the same squares, through the conversions of
    [ChessNotationConverter]: every name listed is a valid square whose
    coordinates hold a 1 in the matrix, and every cell that holds a 1 has
    the name [coordinates_to_square] in one of the lists. *)
Theorem piece_positions_match_matrix :
  forall (manager : BoardStateManager.t) (white black : list string),
    BoardStateManager.get_piece_positions manager = Ok (white, black) ->
    let matrix := BoardStateManager.get_board_matrix manager in
    (forall name,
       In name (white ++ black)%list ->
       GameValidator.is_valid_square name = true
       /\ exists row col,
            square_to_coordinates name = Ok (row, col)
            /\ cell matrix row col = Ok 1)
    /\ (forall row col,
          0 <= row <= 7 -> 0 <= col <= 7 ->
          cell matrix row col = Ok 1 ->
          exists name,
            coordinates_to_square row col = Ok name
            /\ In name (white ++ black)%list).
Proof.
  intros manager white black H matrix.
  rewrite piece_positions_names in H.
  subst matrix. unfold BoardStateManager.get_board_matrix.
  set (b := BoardStateManager.current_state manager) in *.
  assert (Ew : white = names_of b WHITE (seq 0 64)) by congruence.
  assert (Eb : black = names_of b BLACK (seq 0 64)) by congruence.
  clear H. subst white black.
  split.
  - intros name Hin.
    assert (exists sq piece lower_name,
               piece_at b sq = Some piece
               /\ square_name sq = Ok lower_name /\ name = upper lower_name)
      as (sq & piece & lower_name & P & N & ->).
    { apply in_app_or in Hin.
      destruct Hin as [Hin|Hin]; apply in_names_of in Hin;
        destruct Hin as (sq & piece & lower_name & P & _ & N & E);
        now exists sq, piece, lower_name. }
    destruct (upper_name_coordinates _ _ N) as (L & V & C & _).
    split; [exact V|]. eexists. eexists. split; [exact C|].
    rewrite (occupancy_cell b sq L). unfold occupied. now rewrite P.
  - intros row col Hr Hc Hcell.
    destruct (coordinates_on_board row col Hr Hc) as (sq & L & -> & ->).
    rewrite (occupancy_cell b sq L) in Hcell. unfold occupied in Hcell.
    destruct (piece_at b sq) as [piece|] eqn:P; [|discriminate].
    destruct (square_name_parse sq L) as (f & r & N & _).
    destruct (upper_name_coordinates _ _ N) as (_ & _ & _ & C).
    eexists. split; [exact C|].
    apply in_or_app.
    destruct (color piece) eqn:K; [left | right]; apply in_names_of;
      exists sq, piece; eexists; repeat split; eassumption.
Qed.

Lemma piece_positions_match_matrix_witness :
  exists row col,
    square_to_coordinates "E2" = Ok (row, col)
    /\ cell (BoardStateManager.get_board_matrix BoardStateManager.init) row col = Ok 1.
Proof.
  apply (proj1 (piece_positions_match_matrix BoardStateManager.init
                  ["A1"; "B1"; "C1"; "D1"; "E1"; "F1"; "G1"; "H1";
                   "A2"; "B2"; "C2"; "D2"; "E2"; "F2"; "G2"; "H2"]
                  ["A7"; "B7"; "C7"; "D7"; "E7"; "F7"; "G7"; "H7";
                   "A8"; "B8"; "C8"; "D8"; "E8"; "F8"; "G8"; "H8"]
                  eq_refl) "E2").
  cbn [app In]. do 12 right. now left.
Defined.

Section Undoing.
Context {rules : Rules} {undo : Undo}.

Lemma manager_eta (manager : BoardStateManager.t) :
  BoardStateManager.mk (BoardStateManager.current_state manager)
    (BoardStateManager.move_history manager) = manager.
Proof. now destruct manager. Qed.

(** [X13] [undo_last_move] after an [update_board] that made a move gives
    back the manager as it was, board and history, wherever the library's
    [pop] takes back the move pushed. *)
Theorem undo_reverts_update :
  forall (manager : BoardStateManager.t) (move_uci : string) (move : Move),
    from_uci move_uci = Ok move ->
    is_legal (BoardStateManager.current_state manager) move = true ->
    pop (push (BoardStateManager.current_state manager) move)
    = Ok (BoardStateManager.current_state manager) ->
    exists updated,
      BoardStateManager.update_board manager move_uci = (updated, true)
      /\ BoardStateManager.move_history updated
         = (BoardStateManager.move_history manager ++ [move_uci])%list
      /\ BoardStateManager.undo_last_move updated = (manager, true).
Proof.
  intros manager move_uci move Hm Hl Hp.
  eexists. unfold BoardStateManager.update_board. rewrite Hm, Hl.
  split; [reflexivity|]. split; [reflexivity|].
  unfold BoardStateManager.undo_last_move.
  cbn [BoardStateManager.move_history BoardStateManager.current_state].
  destruct (BoardStateManager.move_history manager ++ [move_uci])%list eqn:E.
  - now apply app_eq_nil in E.
  - rewrite <- E, Hp, removelast_last. now rewrite manager_eta.
Qed.

(** [X14] [undo_last_move] does all or nothing.  When it returns [False]
    the manager is as it was; it does so exactly when the history is empty
    or [pop] raises.  When it returns [True] the board is the one [pop]
    gives and the history has lost its last text and no other. *)
Theorem undo_last_move_all_or_nothing :
  forall (manager : BoardStateManager.t),
    let undone := fst (BoardStateManager.undo_last_move manager) in
    let ok := snd (BoardStateManager.undo_last_move manager) in
    (ok = false -> undone = manager)
    /\ (ok = true ->
        pop (BoardStateManager.current_state manager)
        = Ok (BoardStateManager.current_state undone)
        /\ exists last,
             BoardStateManager.move_history manager
             = (BoardStateManager.move_history undone ++ [last])%list)
    /\ (ok = false <->
        BoardStateManager.move_history manager = []
        \/ exists e, pop (BoardStateManager.current_state manager) = Raise e).
Proof.
  intros manager. cbv zeta. unfold BoardStateManager.undo_last_move.
  destruct (BoardStateManager.move_history manager) as [|x h] eqn:H.
  - cbn [fst snd]. split; [reflexivity|]. split; [discriminate|].
    split; [now left | reflexivity].
  - destruct (pop (BoardStateManager.current_state manager)) as [b|e] eqn:P;
      cbn [fst snd BoardStateManager.current_state BoardStateManager.move_history].
    + split; [discriminate|]. split.
      * intros _. split; [reflexivity|].
        exists (last (x :: h) x).
        apply app_removelast_last. discriminate.
      * split; [discriminate|]. intros [E | [e E]]; discriminate.
    + split; [reflexivity|]. split; [discriminate|].
      split; [intros _; right; now exists e | reflexivity].
Qed.

Lemma Forall_removelast {A} (P : A -> Prop) l : Forall P l -> Forall P (removelast l).
Proof.
  induction 1 as [|x l Hx Hl IH]; [constructor|].
  cbn [removelast]. destruct l; [constructor|]. now constructor.
Qed.

Lemma length_removelast {A} (l : list A) :
  l <> [] -> List.length (removelast l) = (List.length l - 1)%nat.
Proof.
  intros H. destruct (exists_last H) as (l' & x & ->).
  rewrite removelast_last, List.length_app. cbn. lia.
Qed.

(** [X15] The history of the board manager holds texts of moves only, one
    for each move made and not taken back: [update_board] adds one text,
    which [from_uci] reads, exactly when it returns [True], and
    [undo_last_move] removes one exactly when it returns [True]. *)
Theorem move_history_invariant :
  forall (manager : BoardStateManager.t),
    Forall reads_as_move (BoardStateManager.move_history manager) ->
    (forall move_uci,
       let updated := BoardStateManager.update_board manager move_uci in
       Forall reads_as_move (BoardStateManager.move_history (fst updated))
       /\ List.length (BoardStateManager.move_history (fst updated))
          = (List.length (BoardStateManager.move_history manager)
             + if snd updated then 1 else 0)%nat)
    /\ (let undone := BoardStateManager.undo_last_move manager in
        Forall reads_as_move (BoardStateManager.move_history (fst undone))
        /\ List.length (BoardStateManager.move_history (fst undone))
           = (List.length (BoardStateManager.move_history manager)
              - if snd undone then 1 else 0)%nat).
Proof.
  intros manager H. split.
  - intros move_uci. cbv zeta. unfold BoardStateManager.update_board.
    destruct (from_uci move_uci) as [move|e] eqn:E.
    + destruct (is_legal (BoardStateManager.current_state manager) move);
        cbn [fst snd BoardStateManager.move_history].
      * split.
        -- apply Forall_app. split; [exact H|]. constructor; [|constructor].
           now exists move.
        -- rewrite List.length_app. reflexivity.
      * split; [exact H | lia].
    + cbn [fst snd]. split; [exact H | lia].
  - cbv zeta. unfold BoardStateManager.undo_last_move.
    destruct (BoardStateManager.move_history manager) as [|x h] eqn:M.
    + cbn [fst snd]. rewrite M. split; [constructor | reflexivity].
    + destruct (pop (BoardStateManager.current_state manager)) as [b|e];
        cbn [fst snd BoardStateManager.move_history].
      * split; [now apply Forall_removelast|].
        rewrite length_removelast by discriminate. reflexivity.
      * rewrite M. split; [exact H | cbn; lia].
Qed.

End Undoing.

Lemma undo_reverts_update_witness :
  exists updated,
    BoardStateManager.update_board (rules := Demo.rules) BoardStateManager.init "e2e4"
    = (updated, true)
    /\ BoardStateManager.undo_last_move (undo := Demo.undo) updated
       = (BoardStateManager.init, true).
Proof.
  destruct (undo_reverts_update (rules := Demo.rules) (undo := Demo.undo)
              BoardStateManager.init "e2e4" Demo.e2e4 eq_refl eq_refl eq_refl)
    as (updated & U & _ & R).
  now exists updated.
Defined.

Lemma move_history_invariant_witness :
  Forall reads_as_move
    (BoardStateManager.move_history
       (fst (BoardStateManager.update_board (rules := Demo.rules)
               BoardStateManager.init "e2e4"))).
Proof.
  apply (move_history_invariant (rules := Demo.rules) (undo := Demo.undo)
           BoardStateManager.init).
  constructor.
Defined.

(** ** The LED controller *)

Lemma key_eqb_eq a b : LEDController.key_eqb a b = true <-> a = b.
Proof.
  unfold LEDController.key_eqb. destruct a as [a1 a2], b as [b1 b2]. cbn [fst snd].
  rewrite andb_true_iff, !Z.eqb_eq. split; [intros [-> ->]; reflexivity|].
  intros [= -> ->]. now split.
Qed.

Lemma key_eqb_refl a : LEDController.key_eqb a a = true.
Proof. now apply key_eqb_eq. Qed.

Lemma led_lookup_set d k v key :
  LEDController.lookup (LEDController.set d k v) key = if LEDController.key_eqb k key then Some v else LEDController.lookup d key.
Proof.
  induction d as [|[k' w] d IH]; cbn [LEDController.set LEDController.lookup]; [reflexivity|].
  destruct (LEDController.key_eqb k' k) eqn:E; cbn [LEDController.lookup].
  - apply key_eqb_eq in E. subst k'. now destruct (LEDController.key_eqb k key).
  - rewrite IH. destruct (LEDController.key_eqb k' key) eqn:E'; [|reflexivity].
    apply key_eqb_eq in E'. subst k'.
    destruct (LEDController.key_eqb k key) eqn:E''; [|reflexivity].
    apply key_eqb_eq in E''. subst k. now rewrite key_eqb_refl in E.
Qed.

Lemma led_keys_set d k v :
  In k (map fst d) -> map fst (LEDController.set d k v) = map fst d.
Proof.
  induction d as [|[k' w] d IH]; cbn [LEDController.set map fst In]; [contradiction|].
  intros H. destruct (LEDController.key_eqb k' k) eqn:E; [reflexivity|].
  cbn [map fst]. f_equal. apply IH. destruct H as [H|H]; [|exact H].
  subst k'. now rewrite key_eqb_refl in E.
Qed.

Lemma all_off_fold d :
  LEDController.all_off d = fold_left (fun d k => LEDController.set d k "off") board_keys d.
Proof. reflexivity. Qed.

Lemma led_lookup_fold v keys :
  forall d key,
    LEDController.lookup (fold_left (fun d k => LEDController.set d k v) keys d) key
    = if existsb (fun k => LEDController.key_eqb k key) keys then Some v else LEDController.lookup d key.
Proof.
  induction keys as [|k keys IH]; intros d key; cbn [fold_left existsb];
    [reflexivity|].
  rewrite IH, led_lookup_set.
  now destruct (existsb _ keys), (LEDController.key_eqb k key).
Qed.

Lemma led_keys_fold v keys :
  forall d, incl keys (map fst d) ->
            map fst (fold_left (fun d k => LEDController.set d k v) keys d) = map fst d.
Proof.
  induction keys as [|k keys IH]; intros d H; cbn [fold_left]; [reflexivity|].
  rewrite IH.
  - apply led_keys_set. apply H. now left.
  - rewrite led_keys_set by (apply H; now left).
    intros x Hx. apply H. now right.
Qed.

Lemma on_board_key row col :
  on_board row col = true <-> In (row, col) board_keys.
Proof.
  unfold on_board. split.
  - intros H. repeat (apply andb_prop in H; destruct H as [H ?]).
    apply Z.leb_le in H. apply Z.ltb_lt in H2. apply Z.leb_le in H1.
    apply Z.ltb_lt in H0.
    assert (Hr : 0 <= row <= 7) by lia. assert (Hc : 0 <= col <= 7) by lia.
    apply small_cases in Hr. apply small_cases in Hc.
    repeat (destruct Hr as [Hr|Hr]); repeat (destruct Hc as [Hc|Hc]); subst;
      vm_compute; tauto.
  - intros H. vm_compute in H.
    repeat (destruct H as [H|H]; [injection H as <- <-; reflexivity|]).
    contradiction.
Qed.

Lemma on_board_exists row col :
  existsb (fun k => LEDController.key_eqb k (row, col)) board_keys = on_board row col.
Proof.
  destruct (on_board row col) eqn:E.
  - apply existsb_exists. exists (row, col).
    split; [now apply on_board_key | apply key_eqb_refl].
  - destruct (existsb _ board_keys) eqn:X; [|reflexivity].
    apply existsb_exists in X. destruct X as (k & Hin & Hk).
    apply key_eqb_eq in Hk. subst k. apply on_board_key in Hin. congruence.
Qed.

Lemma led_all_off d row col :
  LEDController.lookup (LEDController.all_off d) (row, col)
  = if on_board row col then Some "off" else LEDController.lookup d (row, col).
Proof. now rewrite all_off_fold, led_lookup_fold, on_board_exists. Qed.

(** What is read after [set_led], and after [clear_all]. *)
Lemma led_set_led self row col color r c :
  led (LEDController.set_led self row col color) r c
  = (if on_board row col && (row =? r) && (col =? c) then Some color
     else led self r c).
Proof.
  unfold led, LEDController.set_led. fold (on_board row col).
  destruct (on_board row col); cbn [andb LEDController.led_states]; [|reflexivity].
  rewrite led_lookup_set. unfold LEDController.key_eqb. cbn [fst snd]. reflexivity.
Qed.

Lemma led_clear_all self r c :
  led (LEDController.clear_all self) r c
  = (if on_board r c then Some "off" else led self r c).
Proof. apply led_all_off. Qed.

(** [X16] [set_led] and the LED read afterwards.  A LED of the board shows
    the colour last set on it, and a [set_led] changes no other LED; a
    second colour set on a LED replaces the first; coordinates outside the
    board leave the controller as it was; after [clear_all] every LED of
    the board is off. *)
Theorem set_led_then_read :
  forall (self : LEDController.t) (row col : Z) (color : string),
    (on_board row col = true ->
     led (LEDController.set_led self row col color) row col = Some color
     /\ (forall r c, (r, c) <> (row, col) ->
           led (LEDController.set_led self row col color) r c = led self r c)
     /\ (forall other r c,
           led (LEDController.set_led
                  (LEDController.set_led self row col other) row col color) r c
           = led (LEDController.set_led self row col color) r c))
    /\ (on_board row col = false ->
        LEDController.set_led self row col color = self)
    /\ (forall r c, on_board r c = true ->
          led (LEDController.clear_all self) r c = Some "off").
Proof.
  intros self row col color. split; [|split].
  - intros H. split; [|split].
    + now rewrite led_set_led, H, !Z.eqb_refl.
    + intros r c Hne. rewrite led_set_led, H. cbn [andb].
      destruct ((row =? r) && (col =? c)) eqn:E; [|reflexivity].
      apply andb_prop in E. destruct E as [E1 E2].
      apply Z.eqb_eq in E1, E2. subst. now elim Hne.
    + intros other r c. rewrite !led_set_led, H. cbn [andb].
      now destruct ((row =? r) && (col =? c)).
  - intros H. unfold LEDController.set_led. fold (on_board row col). now rewrite H.
  - intros r c H. now rewrite led_clear_all, H.
Qed.

Lemma set_led_then_read_witness :
  led (LEDController.set_led LEDController.init 4 4 "green") 4 4 = Some "green"
  /\ LEDController.set_led LEDController.init 8 0 "green" = LEDController.init.
Proof.
  destruct (set_led_then_read LEDController.init 4 4 "green") as [A _].
  destruct (A eq_refl) as [A1 _].
  destruct (set_led_then_read LEDController.init 8 0 "green") as (_ & B & _).
  split; [exact A1 | exact (B eq_refl)].
Defined.

Lemma set_led_keys self row col color :
  led_keys self = board_keys ->
  led_keys (LEDController.set_led self row col color) = board_keys.
Proof.
  intros H. unfold LEDController.set_led. fold (on_board row col).
  destruct (on_board row col) eqn:E; [|exact H].
  unfold led_keys in *. cbn [LEDController.led_states].
  rewrite led_keys_set; [exact H|]. rewrite H. now apply on_board_key.
Qed.

Lemma clear_all_keys self :
  led_keys self = board_keys -> led_keys (LEDController.clear_all self) = board_keys.
Proof.
  intros H. unfold led_keys, LEDController.clear_all in *. cbn [LEDController.led_states].
  rewrite all_off_fold, led_keys_fold; [exact H|]. rewrite H. apply incl_refl.
Qed.

Lemma light_keys self move color :
  led_keys self = board_keys ->
  led_keys (fst (LEDController.light self move color)) = board_keys.
Proof.
  intros H. unfold LEDController.light.
  destruct (4 <=? String.length move)%nat; [|exact H].
  destruct (square_to_coordinates_of_points (upper_points (slice move 2 4)))
    as [[row col]|e]; [|exact H].
  now apply set_led_keys.
Qed.

Lemma light_each_keys alternatives :
  forall self, led_keys self = board_keys ->
               led_keys (fst (LEDController.light_each self alternatives)) = board_keys.
Proof.
  induction alternatives as [|a alternatives IH]; intros self H; [exact H|].
  cbn [LEDController.light_each].
  pose proof (light_keys self a "yellow" H) as K.
  destruct (LEDController.light self a "yellow") as [self' [e|]]; [exact K|].
  now apply IH.
Qed.

(** [X17] The controller holds the 64 LEDs of the board and no other:
    [led_states] starts with the 64 coordinates as its keys, row by row, and
    [set_led], [clear_all], [show_move_options] and [show_ai_move] leave
    the keys as they are, whatever their arguments and whether or not they
    raise. *)
Theorem led_keys_invariant :
  led_keys LEDController.init = board_keys
  /\ List.length board_keys = 64%nat
  /\ forall self,
       led_keys self = board_keys ->
       (forall row col color,
          led_keys (LEDController.set_led self row col color) = board_keys)
       /\ led_keys (LEDController.clear_all self) = board_keys
       /\ (forall best_move alternatives,
             led_keys (fst (LEDController.show_move_options self best_move alternatives))
             = board_keys)
       /\ (forall from_square to_square,
             led_keys (fst (LEDController.show_ai_move self from_square to_square))
             = board_keys).
Proof.
  split; [reflexivity|]. split; [reflexivity|].
  intros self H. split; [|split; [|split]].
  - intros row col color. now apply set_led_keys.
  - now apply clear_all_keys.
  - intros best_move alternatives. unfold LEDController.show_move_options.
    pose proof (light_keys _ best_move "green" (clear_all_keys self H)) as K.
    destruct (LEDController.light (LEDController.clear_all self) best_move "green")
      as [self' [e|]]; [exact K|].
    now apply light_each_keys.
  - intros from_square to_square. unfold LEDController.show_ai_move.
    destruct (square_to_coordinates from_square) as [[fr fc]|]; [|exact H].
    destruct (square_to_coordinates to_square) as [[tr tc]|]; [|exact H].
    cbn [fst]. apply set_led_keys, set_led_keys, H.
Qed.

(** A valid square, upper-cased as [show_move_options] does it. *)
Lemma valid_square_upper name :
  GameValidator.is_valid_square name = true ->
  exists row col,
    str_upper name = Ok (upper name)
    /\ square_to_coordinates (upper name) = Ok (row, col)
    /\ square_to_coordinates name = Ok (row, col)
    /\ on_board row col = true.
Proof.
  intros H. destruct (valid_square_shape _ H) as (f & r & sq & -> & P).
  destruct (parse_square_coordinates _ _ _ P) as (L & Hf & Hr & _ & _ & _).
  pose proof (valid_square_coordinates (String f (String r "")) sq P)
    as (_ & C).
  exists (7 - Z.of_nat (square_rank sq)), (Z.of_nat (square_file sq)).
  pose proof (lower_rank_same r Hr) as Er. rewrite Er in Hr, P.
  assert (U : upper_char r = r) by now apply upper_rank_same.
  destruct (lower_file_cases f Hf) as (g & Hg & [-> | ->]).
  - assert (E : lower_char g = g)
      by (apply file_letter_cases in Hg;
          repeat (destruct Hg as [Hg|Hg]); subst; reflexivity).
    rewrite E in P.
    destruct (parse_square_coordinates _ _ _ P) as (_ & _ & Hr' & _ & _ & C2).
    split; [|split; [|split]].
    + unfold str_upper. cbn [all_chars].
      now rewrite (capital_of_file _ Hg), (capital_of_rank _ Hr').
    + cbn [upper]. now rewrite U.
    + exact C.
    + unfold on_board, square_rank, square_file.
      pose proof (Nat.Div0.div_lt_upper_bound sq 8 8).
      pose proof (Nat.mod_upper_bound sq 8).
      apply andb_true_intro; split; [apply andb_true_intro; split;
        [apply andb_true_intro; split|]|];
        first [apply Z.leb_le | apply Z.ltb_lt]; lia.
  - assert (E : lower_char (upper_char g) = g)
      by (apply file_letter_cases in Hg;
          repeat (destruct Hg as [Hg|Hg]); subst; reflexivity).
    rewrite E in P.
    destruct (parse_square_coordinates _ _ _ P) as (_ & _ & Hr' & _ & _ & C2).
    assert (UU : upper_char (upper_char g) = upper_char g)
      by (apply file_letter_cases in Hg;
          repeat (destruct Hg as [Hg|Hg]); subst; reflexivity).
    assert (K : capital_in_range (upper_char g) = true)
      by (apply file_letter_cases in Hg;
          repeat (destruct Hg as [Hg|Hg]); subst; reflexivity).
    split; [|split; [|split]].
    + unfold str_upper. cbn [all_chars].
      now rewrite K, (capital_of_rank _ Hr').
    + cbn [upper]. now rewrite U, UU.
    + exact C.
    + unfold on_board, square_rank, square_file.
      pose proof (Nat.Div0.div_lt_upper_bound sq 8 8).
      pose proof (Nat.mod_upper_bound sq 8).
      apply andb_true_intro; split; [apply andb_true_intro; split;
        [apply andb_true_intro; split|]|];
        first [apply Z.leb_le | apply Z.ltb_lt]; lia.
Qed.

Lemma valid_move_format_destination move :
  GameValidator.is_valid_move_format move = true ->
  (4 <=? String.length move)%nat = true
  /\ GameValidator.is_valid_square (slice move 2 4) = true.
Proof.
  unfold GameValidator.is_valid_move_format.
  destruct (String.length move <? 4)%nat eqn:L; [discriminate|].
  intros H. apply andb_prop in H. destruct H as [_ H]. split; [|exact H].
  apply Nat.ltb_ge in L. now apply Nat.leb_le.
Qed.

Lemma ord_range c : 0 <= ord c < 256.
Proof. unfold ord. pose proof (N_ascii_bounded c). lia. Qed.

Lemma upper_point_ord c : upper_point (ord c) = ord_upper c.
Proof.
  unfold upper_point. pose proof (ord_range c) as B.
  destruct (Z.leb_spec 0 (ord c)); [|lia].
  destruct (Z.ltb_spec (ord c) 256); [|lia].
  cbn [andb]. unfold ord at 1. now rewrite N2Z.id, ascii_N_embedding.
Qed.

Lemma int_of_point_ord c : int_of_point (ord c) = int_of_char c.
Proof.
  unfold int_of_point, int_of_char, in_range. pose proof (ord_range c) as B.
  destruct ((48 <=? ord c) && (ord c <=? 57)); [reflexivity|].
  destruct (Z.leb_spec 0 (ord c)); [|lia].
  destruct (Z.ltb_spec (ord c) 1632); [|lia].
  reflexivity.
Qed.

(** On the code points of two characters [square_to_coordinates_of_points]
    is [square_to_coordinates]. *)
Lemma square_to_coordinates_of_two a b :
  square_to_coordinates_of_points [ord a; ord b]
  = square_to_coordinates (String a (String b "")).
Proof.
  unfold square_to_coordinates_of_points, square_to_coordinates.
  change (item [ord a; ord b] 0) with (Ok (ord a)).
  change (item [ord a; ord b] 1) with (Ok (ord b)).
  change (index (String a (String b "")) 0) with (Ok a).
  change (index (String a (String b "")) 1) with (Ok b).
  cbn [Py.bind]. rewrite upper_point_ord.
  destruct (ord_upper a) as [u|e]; cbn [Py.bind]; [|reflexivity].
  now rewrite int_of_point_ord.
Qed.

Lemma capital_one c : capital_in_range c = true -> capital c = [ord (upper_char c)].
Proof.
  unfold capital_in_range, capital.
  destruct (ord c =? 223), (ord c =? 181), (ord c =? 255);
    cbn [negb orb]; try discriminate; reflexivity.
Qed.

Lemma upper_points_of_two f r :
  capital_in_range f = true -> capital_in_range r = true ->
  upper_points (String f (String r "")) = [ord (upper_char f); ord (upper_char r)].
Proof.
  intros Hf Hr. cbn [upper_points].
  now rewrite (capital_one _ Hf), (capital_one _ Hr).
Qed.

(** What [light] does with a well-formed move text. *)
Lemma light_valid self move color :
  GameValidator.is_valid_move_format move = true ->
  exists row col,
    destination move = Ok (row, col) /\ on_board row col = true
    /\ LEDController.light self move color
       = (LEDController.set_led self row col color, None).
Proof.
  intros H. destruct (valid_move_format_destination _ H) as [L V].
  destruct (valid_square_upper _ V) as (row & col & U & C & D & B).
  exists row, col. split; [exact D|]. split; [exact B|].
  unfold LEDController.light. rewrite L.
  destruct (valid_square_two _ V) as (f & r & E). rewrite E in U, C |- *.
  unfold str_upper in U. cbn [all_chars] in U.
  destruct (capital_in_range f) eqn:Kf; cbn [andb] in U; [|discriminate U].
  destruct (capital_in_range r) eqn:Kr; cbn [andb] in U; [|discriminate U].
  rewrite (upper_points_of_two _ _ Kf Kr), square_to_coordinates_of_two.
  cbn [upper] in C. now rewrite C.
Qed.

Lemma led_light_valid self move color r c :
  GameValidator.is_valid_move_format move = true ->
  exists self',
    LEDController.light self move color = (self', None)
    /\ led self' r c = if ends_at r c move then Some color else led self r c.
Proof.
  intros H. destruct (light_valid self move color H) as (row & col & D & B & E).
  eexists. split; [exact E|].
  rewrite led_set_led.
  unfold ends_at. now rewrite D, B.
Qed.

Lemma led_light_each alternatives r c :
  Forall (fun a => GameValidator.is_valid_move_format a = true) alternatives ->
  forall self,
    exists self',
      LEDController.light_each self alternatives = (self', None)
      /\ led self' r c
         = if existsb (ends_at r c) alternatives then Some "yellow" else led self r c.
Proof.
  induction 1 as [|a alternatives Ha Hrest IH]; intros self.
  - exists self. now split.
  - cbn [LEDController.light_each existsb].
    destruct (led_light_valid self a "yellow" r c Ha) as (self1 & E1 & L1).
    rewrite E1. destruct (IH self1) as (self2 & E2 & L2).
    exists self2. split; [exact E2|]. rewrite L2, L1.
    now destruct (existsb (ends_at r c) alternatives), (ends_at r c a).
Qed.

(** [X18] [show_move_options] on move texts of ASCII characters that pass
    [is_valid_move_format] raises nothing, and afterwards each LED of the
    board is yellow when an alternative ends on its square, green when the
    best move does and no alternative, and off otherwise. *)
Theorem show_move_options_lights :
  forall (self : LEDController.t) (best_move : string) (alternatives : list string),
    is_ascii best_move = true ->
    Forall (fun a => is_ascii a = true) alternatives ->
    GameValidator.is_valid_move_format best_move = true ->
    Forall (fun a => GameValidator.is_valid_move_format a = true) alternatives ->
    exists self',
      LEDController.show_move_options self best_move alternatives = (self', None)
      /\ forall row col,
           on_board row col = true ->
           led self' row col
           = Some (if existsb (ends_at row col) alternatives then "yellow"
                   else if ends_at row col best_move then "green"
                   else "off").
Proof.
  intros self best_move alternatives _ _ Hb Ha.
  unfold LEDController.show_move_options.
  destruct (light_valid (LEDController.clear_all self) best_move "green" Hb)
    as (brow & bcol & D & B & E).
  rewrite E.
  assert (Hall : forall row col, exists self',
             LEDController.light_each
               (LEDController.set_led (LEDController.clear_all self) brow bcol "green")
               alternatives = (self', None)
             /\ led self' row col
                = if existsb (ends_at row col) alternatives then Some "yellow"
                  else led (LEDController.set_led (LEDController.clear_all self)
                              brow bcol "green") row col).
  { intros row col. now apply led_light_each. }
  destruct (Hall 0 0) as (self' & E' & _). exists self'. split; [exact E'|].
  intros row col Hrc. destruct (Hall row col) as (self'' & E'' & L'').
  assert (self'' = self') by congruence. subst self''.
  rewrite L''. destruct (existsb (ends_at row col) alternatives); [reflexivity|].
  rewrite led_set_led, led_clear_all, Hrc.
  unfold ends_at. rewrite D, B. cbn [andb].
  now destruct ((brow =? row) && (bcol =? col)).
Qed.

Lemma show_move_options_lights_witness :
  exists self',
    LEDController.show_move_options LEDController.init "e2e4" ["e2e3"; "d2d4"]
    = (self', None)
    /\ led self' 4 4 = Some "green"
    /\ led self' 5 4 = Some "yellow"
    /\ led self' 4 3 = Some "yellow"
    /\ led self' 6 4 = Some "off".
Proof.
  destruct (show_move_options_lights LEDController.init "e2e4" ["e2e3"; "d2d4"])
    as (self' & E & L).
  - reflexivity.
  - repeat constructor.
  - reflexivity.
  - repeat constructor.
  - exists self'. split; [exact E|].
    split; [exact (L 4 4 eq_refl)|]. split; [exact (L 5 4 eq_refl)|].
    split; [exact (L 4 3 eq_refl) | exact (L 6 4 eq_refl)].
Defined.

Lemma light_colours self move color r c :
  led (fst (LEDController.light self move color)) r c = led self r c
  \/ led (fst (LEDController.light self move color)) r c = Some color.
Proof.
  unfold LEDController.light.
  destruct (4 <=? String.length move)%nat; [|now left].
  destruct (square_to_coordinates_of_points (upper_points (slice move 2 4)))
    as [[row col]|e]; [|now left].
  cbn [fst]. rewrite led_set_led.
  destruct (on_board row col && (row =? r) && (col =? c)); [now right | now left].
Qed.

Lemma light_each_colours alternatives r c :
  forall self,
    led (fst (LEDController.light_each self alternatives)) r c = led self r c
    \/ led (fst (LEDController.light_each self alternatives)) r c = Some "yellow".
Proof.
  induction alternatives as [|a alternatives IH]; intros self; [now left|].
  cbn [LEDController.light_each].
  pose proof (light_colours self a "yellow" r c) as K.
  destruct (LEDController.light self a "yellow") as [self' [e|]]; [exact K|].
  cbn [fst] in K. destruct (IH self') as [E|E]; [|now right].
  rewrite E. exact K.
Qed.

(** [X19] Whatever the texts, and whether or not it raises,
    [show_move_options] leaves every LED of the board off, green or
    yellow: nothing of what was shown before is left. *)
Theorem show_move_options_colours :
  forall (self : LEDController.t) (best_move : string) (alternatives : list string)
         (row col : Z),
    on_board row col = true ->
    let shown := fst (LEDController.show_move_options self best_move alternatives) in
    led shown row col = Some "off"
    \/ led shown row col = Some "green"
    \/ led shown row col = Some "yellow".
Proof.
  intros self best_move alternatives row col H. cbv zeta.
  unfold LEDController.show_move_options.
  pose proof (light_colours (LEDController.clear_all self) best_move "green" row col) as K.
  rewrite led_clear_all, H in K.
  destruct (LEDController.light (LEDController.clear_all self) best_move "green")
    as [self' [e|]]; cbn [fst] in K |- *; [tauto|].
  destruct (light_each_colours alternatives row col self') as [E|E]; rewrite E; tauto.
Qed.

Lemma show_move_options_colours_witness :
  let shown := fst (LEDController.show_move_options LEDController.init "e2ez" ["e2e3"]) in
  led shown 5 4 = Some "off" \/ led shown 5 4 = Some "green"
  \/ led shown 5 4 = Some "yellow".
Proof.
  apply (show_move_options_colours LEDController.init "e2ez" ["e2e3"] 5 4).
  reflexivity.
Defined.

(** [X20] [show_ai_move] changes no LED when it raises.  On two valid
    squares whose names are made of ASCII characters it raises nothing,
    and afterwards the LED of the destination is [blue_blink], that of the
    origin is [blue_solid] unless it is the destination, and every other
    LED is as it was. *)
Theorem show_ai_move_lights :
  forall (self : LEDController.t) (from_square to_square : string),
    (forall self' e,
       LEDController.show_ai_move self from_square to_square = (self', Some e) ->
       self' = self)
    /\ (is_ascii from_square = true -> is_ascii to_square = true ->
        GameValidator.is_valid_square from_square = true ->
        GameValidator.is_valid_square to_square = true ->
        exists from_row from_col to_row to_col self',
          square_to_coordinates from_square = Ok (from_row, from_col)
          /\ square_to_coordinates to_square = Ok (to_row, to_col)
          /\ LEDController.show_ai_move self from_square to_square = (self', None)
          /\ forall row col,
               led self' row col
               = if (to_row =? row) && (to_col =? col) then Some "blue_blink"
                 else if (from_row =? row) && (from_col =? col) then Some "blue_solid"
                 else led self row col).
Proof.
  intros self from_square to_square. split.
  - intros self' e. unfold LEDController.show_ai_move.
    destruct (square_to_coordinates from_square) as [[fr fc]|];
      [|now intros [= <- _]].
    destruct (square_to_coordinates to_square) as [[tr tc]|];
      [discriminate | now intros [= <- _]].
  - intros _ _ Hf Ht.
    destruct (valid_square_upper _ Hf) as (fr & fc & _ & _ & Cf & Bf).
    destruct (valid_square_upper _ Ht) as (tr & tc & _ & _ & Ct & Bt).
    exists fr, fc, tr, tc. eexists.
    split; [exact Cf|]. split; [exact Ct|].
    unfold LEDController.show_ai_move. rewrite Cf, Ct.
    split; [reflexivity|].
    intros row col.
    rewrite !led_set_led, Bt, Bf.
    reflexivity.
Qed.

Lemma show_ai_move_lights_witness :
  exists self',
    LEDController.show_ai_move LEDController.init "E7" "E5" = (self', None)
    /\ led self' 1 4 = Some "blue_solid"
    /\ led self' 3 4 = Some "blue_blink".
Proof.
  destruct (proj2 (show_ai_move_lights LEDController.init "E7" "E5")
              eq_refl eq_refl eq_refl eq_refl)
    as (fr & fc & tr & tc & self' & F & T & E & L).
  injection F as <- <-. injection T as <- <-.
  exists self'. split; [exact E|].
  split; [exact (L 1 4) | exact (L 3 4)].
Defined.

(** ** The two encoders *)

Lemma rstrip_space s c : isspace c = true -> rstrip (s ++ String c "") = rstrip s.
Proof.
  intros H. induction s as [|a s IH]; cbn [append rstrip].
  - now rewrite H.
  - now rewrite IH.
Qed.

Lemma strip_frame d : strip (ChessAIServer.frame d) = dumps (JDict d).
Proof.
  assert (L : forall rest, lstrip (dumps (JDict d) ++ rest) = dumps (JDict d) ++ rest).
  { intros rest. unfold dumps. cbn [encode]. reflexivity. }
  pose proof (strip_dumps_dict d) as Hs. unfold strip in Hs.
  pose proof (L "") as L0. rewrite append_nil_r in L0. rewrite L0 in Hs.
  unfold ChessAIServer.frame, ChessAIServer.newline, strip.
  rewrite L, rstrip_space; [exact Hs | reflexivity].
Qed.

Lemma well_formed_ints l : forallb well_formed (map JInt l) = true.
Proof. induction l as [|x l IH]; [reflexivity | exact IH]. Qed.

Lemma well_formed_strs l : forallb well_formed (map JStr l) = true.
Proof. induction l as [|x l IH]; [reflexivity | exact IH]. Qed.

Lemma parse_message_dumps d :
  well_formed (JDict d) = true -> parse_message (dumps (JDict d)) = Ok (Some (JDict d)).
Proof.
  intros H. unfold parse_message. now rewrite strip_dumps_dict, (loads_dumps _ H).
Qed.

Lemma parse_message_frame d :
  well_formed (JDict d) = true ->
  parse_message (ChessAIServer.frame d) = Ok (Some (JDict d)).
Proof.
  intros H. unfold parse_message. now rewrite strip_frame, (loads_dumps _ H).
Qed.

Section Frames.

Variable self : ChessAIServer.t.
Hypothesis connected : ChessAIServer.serial_open self = true.

Lemma send_json_message_open message :
  ChessAIServer.send_json_message self message
  = ChessAIServer.write self (ChessAIServer.frame message).
Proof. unfold ChessAIServer.send_json_message. now rewrite connected. Qed.

End Frames.

(** [X21] [parse_message] reads back every frame the server writes, line
    feed included, as the dictionary that was sent.  The frames of
    [send_board_matrix], [send_ai_move] and [send_move_options] and the
    messages [create_board_matrix_message], [create_ai_move_message] and
    [create_move_options_message] build from the same values decode to
    the same fields in the same order, but for the time stamp, which only
    [CommunicationProtocol] adds. *)
Theorem protocol_reads_server_frames :
  forall (self : ChessAIServer.t) (now : Z),
    ChessAIServer.serial_open self = true ->
    (forall message,
       well_formed (JDict message) = true ->
       ChessAIServer.written (ChessAIServer.send_json_message self message)
       = (ChessAIServer.written self ++ [ChessAIServer.frame message])%list
       /\ parse_message (ChessAIServer.frame message) = Ok (Some (JDict message)))
    /\ (forall matrix,
          exists plain stamped,
            ChessAIServer.written (ChessAIServer.send_board_matrix self matrix)
            = (ChessAIServer.written self ++ [ChessAIServer.frame plain])%list
            /\ parse_message (ChessAIServer.frame plain) = Ok (Some (JDict plain))
            /\ parse_message (create_board_matrix_message now matrix)
               = Ok (Some (JDict stamped))
            /\ stamped_with now plain stamped)
    /\ (forall from_square to_square,
          exists plain stamped,
            ChessAIServer.written (ChessAIServer.send_ai_move self from_square to_square)
            = (ChessAIServer.written self ++ [ChessAIServer.frame plain])%list
            /\ parse_message (ChessAIServer.frame plain) = Ok (Some (JDict plain))
            /\ parse_message (create_ai_move_message now from_square to_square)
               = Ok (Some (JDict stamped))
            /\ stamped_with now plain stamped)
    /\ (forall best_move alternatives best_move_str alternatives_str,
          ChessAIServer.wire_form best_move = Ok best_move_str ->
          ChessAIServer.map_result ChessAIServer.wire_form (firstn 4 alternatives)
          = Ok alternatives_str ->
          exists self' plain stamped,
            ChessAIServer.send_move_options self best_move alternatives = Ok self'
            /\ ChessAIServer.written self'
               = (ChessAIServer.written self ++ [ChessAIServer.frame plain])%list
            /\ parse_message (ChessAIServer.frame plain) = Ok (Some (JDict plain))
            /\ parse_message
                 (create_move_options_message now best_move_str alternatives_str)
               = Ok (Some (JDict stamped))
            /\ stamped_with now plain stamped).
Proof.
  intros self now Hopen.
  split; [|split; [|split]].
  - intros message H. rewrite (send_json_message_open self Hopen).
    split; [reflexivity | now apply parse_message_frame].
  - intros matrix. eexists. eexists.
    unfold ChessAIServer.send_board_matrix.
    rewrite (send_json_message_open self Hopen).
    split; [reflexivity|].
    assert (W : forall l, forallb well_formed (map JInt l) = true)
      by apply well_formed_ints.
    split; [apply parse_message_frame; cbn; now rewrite W|].
    split; [apply parse_message_dumps; cbn; now rewrite W|].
    now split.
  - intros from_square to_square. eexists. eexists.
    unfold ChessAIServer.send_ai_move.
    rewrite (send_json_message_open self Hopen).
    split; [reflexivity|].
    split; [now apply parse_message_frame|].
    split; [now apply parse_message_dumps|].
    now split.
  - intros best_move alternatives best_move_str alternatives_str Hb Ha.
    eexists. eexists. eexists.
    unfold ChessAIServer.send_move_options. rewrite Hb, Ha. cbn [Py.bind].
    rewrite (send_json_message_open self Hopen).
    split; [reflexivity|]. split; [reflexivity|].
    assert (W : forall l, forallb well_formed (map JStr l) = true)
      by apply well_formed_strs.
    split; [apply parse_message_frame; cbn; now rewrite W|].
    split; [apply parse_message_dumps; cbn; now rewrite W|].
    now split.
Qed.

Lemma protocol_reads_server_frames_witness :
  parse_message
    (ChessAIServer.frame [("type", JStr "ai_move"); ("from", JStr "E7"); ("to", JStr "E5")])
  = Ok (Some (JDict [("type", JStr "ai_move"); ("from", JStr "E7"); ("to", JStr "E5")])).
Proof.
  apply (proj1 (protocol_reads_server_frames idle_server 0 eq_refl)). reflexivity.
Defined.

(** ** Frames in, frames out *)

Lemma wrote_refl n self : wrote n self self.
Proof.
  split; [reflexivity|]. exists []. rewrite List.app_nil_r.
  split; [reflexivity|]. split; [cbn; lia | reflexivity].
Qed.

Lemma wrote_trans n m a b c : wrote n a b -> wrote m b c -> wrote (n + m) a c.
Proof.
  intros (O1 & f1 & W1 & L1 & C1) (O2 & f2 & W2 & L2 & C2).
  split; [congruence|]. exists (f1 ++ f2)%list.
  split; [now rewrite W2, W1, List.app_assoc|].
  split; [rewrite List.length_app; lia|].
  intros H. rewrite (C1 H), C2; [reflexivity | congruence].
Qed.

Lemma wrote_more n m a b : (n <= m)%nat -> wrote n a b -> wrote m a b.
Proof.
  intros H (O & f & W & L & C). split; [exact O|]. exists f.
  split; [exact W|]. split; [lia | exact C].
Qed.

(** A step that touches neither the connection nor what was written. *)
Lemma wrote_nothing self self' :
  ChessAIServer.serial_open self' = ChessAIServer.serial_open self -> ChessAIServer.written self' = ChessAIServer.written self ->
  wrote 0 self self'.
Proof.
  intros O W. split; [exact O|]. exists []. rewrite List.app_nil_r.
  split; [exact W|]. split; [cbn; lia | reflexivity].
Qed.

Lemma send_json_message_wrote self message :
  wrote 1 self (ChessAIServer.send_json_message self message).
Proof.
  unfold ChessAIServer.send_json_message.
  destruct (ChessAIServer.serial_open self) eqn:O; [|apply wrote_refl].
  split; [reflexivity|]. exists [ChessAIServer.frame message].
  split; [reflexivity|]. split; [cbn; lia | congruence].
Qed.

Lemma Move_eqb_refl move : Move_eqb move move = true.
Proof.
  unfold Move_eqb. rewrite !Nat.eqb_refl. cbn [andb].
  assert (R : forall o, option_eqb PieceType_eqb o o = true)
    by (intros [[]|]; reflexivity).
  now rewrite !R.
Qed.

Lemma wire_form_on_board move :
  on_the_board move -> exists text, ChessAIServer.wire_form move = Ok text.
Proof.
  intros [Hf Ht]. unfold ChessAIServer.wire_form, uci.
  destruct (square_name_parse _ Hf) as (f1 & r1 & N1 & _).
  destruct (square_name_parse _ Ht) as (f2 & r2 & N2 & _).
  rewrite N1, N2.
  destruct (drop move); [eexists; reflexivity|].
  destruct (promotion move); [eexists; reflexivity|].
  destruct (Move_bool move); eexists; reflexivity.
Qed.

Lemma map_result_total {A B} (f : A -> result B) l :
  Forall (fun x => exists y, f x = Ok y) l ->
  exists ys, ChessAIServer.map_result f l = Ok ys.
Proof.
  induction 1 as [|x l [y Hy] Hl [ys IH]]; [now exists []|].
  exists (y :: ys). cbn [ChessAIServer.map_result]. now rewrite Hy, IH.
Qed.

Lemma firstn_In {A} (x : A) n :
  forall l, In x (firstn n l) -> In x l.
Proof.
  induction n as [|n IH]; intros [|y l]; cbn [firstn In]; try tauto.
  intros [H|H]; [now left | right; now apply IH].
Qed.

Lemma firstn_firstn_le {A} (l : list A) n m :
  (n <= m)%nat -> firstn m (firstn n l) = firstn n l.
Proof.
  intros H. rewrite firstn_firstn. f_equal. lia.
Qed.

Lemma starting_board_far_squares sq :
  (16 <= sq)%nat ->
  piece_at starting_board sq = None
  \/ exists piece, piece_at starting_board sq = Some piece /\ color piece = BLACK.
Proof.
  intros H.
  do 16 (destruct sq as [|sq]; [lia|]).
  do 32 (destruct sq as [|sq]; [now left|]).
  do 16 (destruct sq as [|sq]; [right; eexists; split; reflexivity|]).
  left. now destruct sq.
Qed.

Section Answers.
Context {rules : Rules} {engine : Engine}.

Lemma best_move_wrote self moves :
  wrote 0 self (fst (ChessAIServer.get_best_move_from_options self moves)).
Proof.
  unfold ChessAIServer.get_best_move_from_options. destruct moves as [|first rest];
    [apply wrote_refl|].
  destruct (ChessAIServer.evaluate (ChessAIServer.board self) (first :: rest) first ChessAIServer.NegInf) as [b [m|e]];
    now apply wrote_nothing.
Qed.

Lemma game_start_wrote self : wrote 1 self (ChessAIServer.handle_game_start self).
Proof.
  unfold ChessAIServer.handle_game_start, ChessAIServer.send_board_matrix.
  match goal with
  | |- wrote 1 self (ChessAIServer.send_json_message ?s ?m) =>
      apply (wrote_trans 0 1 self s); [now apply wrote_nothing|];
      apply send_json_message_wrote
  end.
Qed.

Lemma ai_move_confirmed_wrote self : wrote 0 self (ChessAIServer.handle_ai_move_confirmed self).
Proof.
  unfold ChessAIServer.handle_ai_move_confirmed. cbn [ChessAIServer.board ChessAIServer.set_waiting_for_move].
  destruct (is_game_over (ChessAIServer.board self)); now apply wrote_nothing.
Qed.

Lemma player_move_origin_wrote self d :
  wrote 1 self (fst (ChessAIServer.handle_player_move_origin self d)).
Proof.
  unfold ChessAIServer.handle_player_move_origin.
  destruct (negb (truthy (get d "from" (JStr "")))); [apply wrote_refl|].
  destruct (get d "from" (JStr "")) as [| | |from_sq| |]; try apply wrote_refl.
  destruct (parse_square (lower from_sq)) as [sq|e]; [|apply wrote_refl].
  destruct (piece_at (ChessAIServer.board self) sq) as [piece|]; [|apply wrote_refl].
  destruct (color piece), (turn (ChessAIServer.board self)); try apply wrote_refl.
  destruct (ChessAIServer.get_possible_moves_from_square self sq) as [|m possible] eqn:P;
    [apply wrote_refl|].
  pose proof (best_move_wrote self (m :: possible)) as B.
  destruct (ChessAIServer.get_best_move_from_options self (m :: possible)) as [self1 [best|]];
    cbn [fst] in B; [|apply (wrote_more 0 1); [lia | assumption]].
  unfold ChessAIServer.send_move_options.
  destruct (ChessAIServer.wire_form best) as [bs|e]; cbn [Py.bind];
    [|apply (wrote_more 0 1); [lia | assumption]].
  destruct (ChessAIServer.map_result ChessAIServer.wire_form _) as [als|e]; cbn [Py.bind];
    [|apply (wrote_more 0 1); [lia | assumption]].
  cbn [fst]. apply (wrote_trans 0 1 _ _ _ B).
  match goal with
  | |- wrote 1 self1 (ChessAIServer.set_waiting_for_move (ChessAIServer.set_current_player_move ?s _) _) =>
      apply (wrote_trans 1 0 self1 s); [apply send_json_message_wrote|];
      now apply wrote_nothing
  end.
Qed.

Lemma player_move_complete_wrote self d :
  wrote 1 self (fst (ChessAIServer.handle_player_move_complete self d)).
Proof.
  unfold ChessAIServer.handle_player_move_complete.
  destruct (negb (truthy (get d "from" (JStr "")))
            || negb (truthy (get d "to" (JStr "")))); [apply wrote_refl|].
  destruct (get d "from" (JStr "")) as [| | |from_sq| |]; try apply wrote_refl.
  destruct (get d "to" (JStr "")) as [| | |to_sq| |]; try apply wrote_refl.
  destruct (from_uci (lower from_sq ++ lower to_sq)) as [move|e].
  - destruct (is_legal (ChessAIServer.board self) move);
      [|apply (wrote_more 0 1); [lia | now apply wrote_nothing]].
    set (pushed := ChessAIServer.set_board self (push (ChessAIServer.board self) move)).
    assert (P : wrote 0 self pushed) by now apply wrote_nothing.
    destruct (is_game_over (ChessAIServer.board pushed)); cbn [fst].
    + apply (wrote_more 0 1); [lia|].
      apply (wrote_trans 0 0 _ _ _ P). now apply wrote_nothing.
    + apply (wrote_more 0 1); [lia | exact P].
  - destruct (is_ValueError e); cbn [fst];
      [apply (wrote_more 0 1); [lia | now apply wrote_nothing] | apply wrote_refl].
Qed.

Lemma dispatch_wrote self data : wrote 1 self (ChessAIServer.dispatch self data).
Proof.
  unfold ChessAIServer.dispatch. destruct data as [| | | | |d]; try apply wrote_refl.
  destruct (is_str _ "game_start"); [apply game_start_wrote|].
  destruct (is_str _ "player_move"); [apply player_move_origin_wrote|].
  destruct (is_str _ "player_move_complete"); [apply player_move_complete_wrote|].
  destruct (is_str _ "ai_move_confirmed"); [|apply wrote_refl].
  apply (wrote_more 0 1); [lia | apply ai_move_confirmed_wrote].
Qed.

Lemma listener_turn_wrote self raw self' :
  ChessAIServer.serial_listener_turn self raw = Ok self' -> wrote 1 self self'.
Proof.
  unfold ChessAIServer.serial_listener_turn.
  destruct (strip raw) as [|c line]; [intros [= <-]; apply wrote_refl|].
  unfold ChessAIServer.process_received_message.
  destruct (loads (String c line)) as [data|e].
  - intros [= <-]. apply dispatch_wrote.
  - destruct e; try discriminate. intros [= <-]. apply wrote_refl.
Qed.

Lemma listener_turn_raises self raw e :
  ChessAIServer.serial_listener_turn self raw = Raise e -> e = Unmodelled.
Proof.
  unfold ChessAIServer.serial_listener_turn.
  destruct (strip raw) as [|c line]; [discriminate|].
  unfold ChessAIServer.process_received_message.
  destruct (loads (String c line)) as [data|e'] eqn:E; [discriminate|].
  apply loads_raises in E. destruct E as [-> | ->]; [discriminate|].
  now intros [= <-].
Qed.

(** [X22] [process_received_message] answers a message with one frame at
    most: what was written before stays, at most one frame comes after it,
    none when the connection is closed, and the connection is left as it
    was.  It raises nothing: it ends for every text [json.loads] is
    modelled on. *)
Theorem one_frame_per_message :
  forall (self : ChessAIServer.t) (message : string),
    (forall self',
       ChessAIServer.process_received_message self message = Ok self' ->
       wrote 1 self self')
    /\ (loads message <> Raise Unmodelled ->
        exists self', ChessAIServer.process_received_message self message = Ok self')
    /\ (forall e,
          ChessAIServer.process_received_message self message = Raise e ->
          e = Unmodelled).
Proof.
  intros self message. unfold ChessAIServer.process_received_message.
  destruct (loads message) as [data|e] eqn:E.
  - split; [|split].
    + intros self' [= <-]. apply dispatch_wrote.
    + intros _. now eexists.
    + discriminate.
  - apply loads_raises in E. destruct E as [-> | ->].
    + split; [|split].
      * intros self' [= <-]. apply wrote_refl.
      * intros _. now exists self.
      * discriminate.
    + split; [|split].
      * discriminate.
      * intros H. now elim H.
      * now intros e' [= <-].
Qed.

(** [X23] [serial_listener] writes no more frames than it read lines,
    blank lines and lines that are not JSON included, and none on a closed
    connection; no line makes it raise. *)
Theorem listener_answers_each_line_once :
  forall (lines : list string) (self : ChessAIServer.t),
    (forall self',
       ChessAIServer.serial_listener self lines = Ok self' ->
       wrote (List.length lines) self self')
    /\ (forall e, ChessAIServer.serial_listener self lines = Raise e -> e = Unmodelled).
Proof.
  induction lines as [|raw lines IH]; intros self.
  - split; [|discriminate]. intros self' [= <-]. apply wrote_refl.
  - cbn [ChessAIServer.serial_listener].
    destruct (ChessAIServer.serial_listener_turn self raw) as [self1|e1] eqn:T;
      cbn [Py.bind].
    + apply listener_turn_wrote in T. destruct (IH self1) as [IH1 IH2].
      split; [|exact IH2].
      intros self' H. apply (wrote_trans 1 _ _ _ _ T). now apply IH1.
    + apply listener_turn_raises in T. subst e1.
      split; [discriminate | now intros e [= <-]].
Qed.

(** [X24] A [player_move] from a square that holds a white piece with
    legal moves, White to move, the engine answering for every candidate:
    the handler writes one [move_options] frame, whose best move is the one
    [get_best_move_from_options] chose and whose alternatives are the first
    three of the other legal moves from that square, never the best move
    itself; the board is as it was, [waiting_for_move] is set and
    [current_player_move] is the text received.  [parse_message] reads the
    frame back as the message with these three entries. *)
Theorem player_move_offers_options :
  forall (self : ChessAIServer.t) (d : dict) (from_sq : string) (sq : Square)
         (piece : Piece) (scores : list Z),
    get d "from" (JStr "") = JStr from_sq ->
    parse_square (lower from_sq) = Ok sq ->
    piece_at (ChessAIServer.board self) sq = Some piece ->
    color piece = WHITE ->
    turn (ChessAIServer.board self) = WHITE ->
    let possible_moves := ChessAIServer.get_possible_moves_from_square self sq in
    possible_moves <> [] ->
    candidate_scores (ChessAIServer.board self) possible_moves = Ok scores ->
    Forall on_the_board (legal_moves (ChessAIServer.board self)) ->
    ChessAIServer.serial_open self = true ->
    exists best_move alternatives best_move_str alternatives_str,
      ChessAIServer.get_best_move_from_options self possible_moves
      = (self, Some best_move)
      /\ In best_move possible_moves
      /\ alternatives
         = firstn 3 (filter (fun move => negb (Move_eqb move best_move)) possible_moves)
      /\ ~ In best_move alternatives
      /\ (List.length alternatives <= 3)%nat
      /\ (forall move, In move alternatives -> In move possible_moves)
      /\ ChessAIServer.wire_form best_move = Ok best_move_str
      /\ ChessAIServer.map_result ChessAIServer.wire_form alternatives
         = Ok alternatives_str
      /\ ChessAIServer.handle_player_move_origin self d
         = (ChessAIServer.mk true
              (ChessAIServer.written self
               ++ [ChessAIServer.frame
                     [("type", JStr "move_options");
                      ("best_move", JStr best_move_str);
                      ("alternatives", JList (map JStr alternatives_str))]])%list
              (ChessAIServer.board self) (ChessAIServer.game_started self)
              true (Some from_sq),
            None)
      /\ parse_message
           (ChessAIServer.frame
              [("type", JStr "move_options");
               ("best_move", JStr best_move_str);
               ("alternatives", JList (map JStr alternatives_str))])
         = Ok (Some (JDict [("type", JStr "move_options");
                            ("best_move", JStr best_move_str);
                            ("alternatives", JList (map JStr alternatives_str))])).
Proof.
  intros self d from_sq sq piece scores Hf Hsq Hp Hc Ht possible_moves Hne Hs Hon Hopen.
  assert (Hsub : forall move, In move possible_moves -> on_the_board move).
  { intros move Hin. rewrite Forall_forall in Hon. apply Hon.
    unfold possible_moves, ChessAIServer.get_possible_moves_from_square in Hin.
    now apply filter_In in Hin. }
  destruct possible_moves as [|first rest] eqn:P; [contradiction|].
  destruct (evaluate_first_maximum _ _ scores first ChessAIServer.NegInf Hs) as (best & E & R).
  assert (Hbest : In best (first :: rest)).
  { destruct R as [[-> _] | (i & s & Hi & _)]; [now left|].
    now apply nth_error_In in Hi. }
  set (alternatives :=
         firstn 3 (filter (fun move => negb (Move_eqb move best)) (first :: rest))).
  assert (Hin : forall move, In move alternatives -> In move (first :: rest)).
  { intros move H. unfold alternatives in H. apply firstn_In in H.
    now apply filter_In in H. }
  destruct (wire_form_on_board best (Hsub _ Hbest)) as (bs & Hbs).
  destruct (map_result_total ChessAIServer.wire_form alternatives) as (als & Hals).
  { apply Forall_forall. intros move H. apply wire_form_on_board, Hsub, Hin, H. }
  assert (G : ChessAIServer.get_best_move_from_options self (first :: rest) = (self, Some best)).
  { unfold ChessAIServer.get_best_move_from_options. now rewrite E, set_board_same. }
  exists best, alternatives, bs, als.
  split; [exact G|]. split; [exact Hbest|]. split; [reflexivity|].
  split.
  { intros H. unfold alternatives in H. apply firstn_In in H.
    apply filter_In in H. destruct H as [_ H].
    now rewrite Move_eqb_refl in H. }
  split; [apply List.firstn_le_length|].
  split; [exact Hin|]. split; [exact Hbs|]. split; [exact Hals|].
  split; [|apply parse_message_frame; cbn; now rewrite well_formed_strs].
  unfold ChessAIServer.handle_player_move_origin. rewrite Hf.
  assert (T : truthy (JStr from_sq) = true).
  { destruct from_sq; [discriminate Hsq | reflexivity]. }
  rewrite T. cbn [negb]. rewrite Hsq, Hp, Hc, Ht.
  fold possible_moves. rewrite P, G.
  unfold ChessAIServer.send_move_options. rewrite Hbs. cbn [Py.bind].
  fold alternatives. unfold alternatives at 1.
  rewrite firstn_firstn_le by lia. fold alternatives. rewrite Hals. cbn [Py.bind].
  unfold ChessAIServer.send_json_message. rewrite Hopen.
  unfold ChessAIServer.set_waiting_for_move, ChessAIServer.set_current_player_move, ChessAIServer.write.
  cbn [ChessAIServer.serial_open ChessAIServer.written ChessAIServer.board ChessAIServer.game_started ChessAIServer.waiting_for_move
         ChessAIServer.current_player_move].
  now rewrite Hopen.
Qed.

(** [X25] When the engine raises on one of the candidates, the handler of
    [player_move] still writes a [move_options] frame, with the first
    legal move from the square as the best move; and the board the server
    keeps is no longer the position of the game: the candidate that was
    under analysis stays pushed on it.  [parse_message] reads the frame
    back as the message with its three entries. *)
Theorem player_move_with_failing_engine :
  forall (self : ChessAIServer.t) (d : dict) (from_sq : string) (sq : Square)
         (piece : Piece) (e : exn),
    get d "from" (JStr "") = JStr from_sq ->
    parse_square (lower from_sq) = Ok sq ->
    piece_at (ChessAIServer.board self) sq = Some piece ->
    color piece = WHITE ->
    turn (ChessAIServer.board self) = WHITE ->
    let possible_moves := ChessAIServer.get_possible_moves_from_square self sq in
    candidate_scores (ChessAIServer.board self) possible_moves = Raise e ->
    Forall on_the_board (legal_moves (ChessAIServer.board self)) ->
    ChessAIServer.serial_open self = true ->
    exists first failing alternatives best_move_str alternatives_str,
      nth_error possible_moves 0 = Some first
      /\ In failing possible_moves
      /\ analyse (push (ChessAIServer.board self) failing) = Raise e
      /\ alternatives
         = firstn 3 (filter (fun move => negb (Move_eqb move first)) possible_moves)
      /\ ChessAIServer.wire_form first = Ok best_move_str
      /\ ChessAIServer.map_result ChessAIServer.wire_form alternatives
         = Ok alternatives_str
      /\ ChessAIServer.handle_player_move_origin self d
         = (ChessAIServer.mk true
              (ChessAIServer.written self
               ++ [ChessAIServer.frame
                     [("type", JStr "move_options");
                      ("best_move", JStr best_move_str);
                      ("alternatives", JList (map JStr alternatives_str))]])%list
              (push (ChessAIServer.board self) failing)
              (ChessAIServer.game_started self) true (Some from_sq),
            None)
      /\ parse_message
           (ChessAIServer.frame
              [("type", JStr "move_options");
               ("best_move", JStr best_move_str);
               ("alternatives", JList (map JStr alternatives_str))])
         = Ok (Some (JDict [("type", JStr "move_options");
                            ("best_move", JStr best_move_str);
                            ("alternatives", JList (map JStr alternatives_str))])).
Proof.
  intros self d from_sq sq piece e Hf Hsq Hp Hc Ht possible_moves Hs Hon Hopen.
  assert (Hsub : forall move, In move possible_moves -> on_the_board move).
  { intros move Hin. rewrite Forall_forall in Hon. apply Hon.
    unfold possible_moves, ChessAIServer.get_possible_moves_from_square in Hin.
    now apply filter_In in Hin. }
  destruct possible_moves as [|first rest] eqn:P; [discriminate Hs|].
  destruct (evaluate_raises _ _ first ChessAIServer.NegInf e Hs)
    as (failing & Hin & Hfail & E).
  set (alternatives :=
         firstn 3 (filter (fun move => negb (Move_eqb move first)) (first :: rest))).
  assert (Halt : forall move, In move alternatives -> In move (first :: rest)).
  { intros move H. unfold alternatives in H. apply firstn_In in H.
    now apply filter_In in H. }
  destruct (wire_form_on_board first (Hsub _ (or_introl eq_refl))) as (bs & Hbs).
  destruct (map_result_total ChessAIServer.wire_form alternatives) as (als & Hals).
  { apply Forall_forall. intros move H. apply wire_form_on_board, Hsub, Halt, H. }
  exists first, failing, alternatives, bs, als.
  split; [reflexivity|]. split; [exact Hin|]. split; [exact Hfail|].
  split; [reflexivity|]. split; [exact Hbs|]. split; [exact Hals|].
  split; [|apply parse_message_frame; cbn; now rewrite well_formed_strs].
  unfold ChessAIServer.handle_player_move_origin. rewrite Hf.
  assert (T : truthy (JStr from_sq) = true).
  { destruct from_sq; [discriminate Hsq | reflexivity]. }
  rewrite T. cbn [negb]. rewrite Hsq, Hp, Hc, Ht.
  fold possible_moves. rewrite P.
  unfold ChessAIServer.get_best_move_from_options. rewrite E.
  unfold ChessAIServer.send_move_options. rewrite Hbs. cbn [Py.bind].
  fold alternatives. unfold alternatives at 1.
  rewrite firstn_firstn_le by lia. fold alternatives. rewrite Hals. cbn [Py.bind].
  unfold ChessAIServer.send_json_message, ChessAIServer.set_waiting_for_move,
    ChessAIServer.set_current_player_move, ChessAIServer.write,
    ChessAIServer.set_board.
  cbn [ChessAIServer.serial_open ChessAIServer.written ChessAIServer.board
         ChessAIServer.game_started ChessAIServer.waiting_for_move
         ChessAIServer.current_player_move].
  rewrite Hopen.
  cbn [ChessAIServer.serial_open ChessAIServer.written ChessAIServer.board
         ChessAIServer.game_started ChessAIServer.waiting_for_move
         ChessAIServer.current_player_move].
  rewrite ?Hopen. reflexivity.
Qed.

(** [X26] Right after a [game_start], a [player_move] from a square of
    ranks 3 to 8 is answered by nothing and changes nothing, whatever the
    rules and the engine: those squares are empty or hold a black piece. *)
Theorem after_game_start_origin_squares :
  forall (self : ChessAIServer.t) (d : dict) (from_sq : string) (sq : Square),
    get d "from" (JStr "") = JStr from_sq ->
    parse_square (lower from_sq) = Ok sq ->
    (16 <= sq)%nat ->
    let started := ChessAIServer.handle_game_start self in
    ChessAIServer.handle_player_move_origin started d = (started, None).
Proof.
  intros self d from_sq sq Hf Hsq Hfar started.
  unfold ChessAIServer.handle_player_move_origin. rewrite Hf.
  destruct (negb (truthy (JStr from_sq))); [reflexivity|].
  rewrite Hsq. unfold started. rewrite handle_game_start_board.
  destruct (starting_board_far_squares sq Hfar) as [-> | (piece & -> & ->)];
    reflexivity.
Qed.

(** [X27] A [player_move_complete] with a legal move that does not end
    the game: the handler pushes the move and then raises an
    [AttributeError], at its call of [calculate_and_send_ai_move], which
    is no method of the class.  Nothing is written and no flag changes.
    [process_received_message] catches the exception: what is left of the
    frame is the move on the board. *)
Theorem legal_move_raises_attribute_error :
  forall (self : ChessAIServer.t) (d : dict) (from_sq to_sq : string) (move : Move),
    get d "from" (JStr "") = JStr from_sq -> from_sq <> "" ->
    get d "to" (JStr "") = JStr to_sq -> to_sq <> "" ->
    from_uci (lower from_sq ++ lower to_sq) = Ok move ->
    is_legal (ChessAIServer.board self) move = true ->
    is_game_over (push (ChessAIServer.board self) move) = false ->
    let pushed :=
      ChessAIServer.mk (ChessAIServer.serial_open self) (ChessAIServer.written self)
        (push (ChessAIServer.board self) move) (ChessAIServer.game_started self)
        (ChessAIServer.waiting_for_move self) (ChessAIServer.current_player_move self) in
    ChessAIServer.handle_player_move_complete self d = (pushed, Some AttributeError)
    /\ (lookup d "type" = Some (JStr "player_move_complete") ->
        ChessAIServer.dispatch self (JDict d) = pushed).
Proof.
  intros self d from_sq to_sq move Hf Hfne Ht Htne Hmove Hlegal Hover. cbv zeta.
  assert (T : forall s, s <> "" -> truthy (JStr s) = true).
  { intros s Hs. destruct s; [contradiction | reflexivity]. }
  assert (E : ChessAIServer.handle_player_move_complete self d
              = (ChessAIServer.mk (ChessAIServer.serial_open self)
                   (ChessAIServer.written self)
                   (push (ChessAIServer.board self) move)
                   (ChessAIServer.game_started self)
                   (ChessAIServer.waiting_for_move self)
                   (ChessAIServer.current_player_move self),
                 Some AttributeError)).
  { unfold ChessAIServer.handle_player_move_complete. rewrite Hf, Ht.
    rewrite (T _ Hfne), (T _ Htne). cbn [negb orb].
    rewrite Hmove, Hlegal. cbn [ChessAIServer.board ChessAIServer.set_board].
    now rewrite Hover. }
  split; [exact E|].
  intros Htype. now rewrite (dispatch_player_move_complete self d Htype), E.
Qed.

(** [X28] The flags after a [player_move_complete] with both squares given.
    When the move is legal and ends the game, [game_started] is cleared
    and [waiting_for_move] is left as it was.  When the move is legal and
    does not end the game, both flags are left as they were and the
    handler raises.  When the texts are no legal move, the board and
    [game_started] are left as they were and [waiting_for_move] is
    cleared.  In no case is a frame written or [current_player_move]
    touched. *)
Theorem player_move_complete_flags :
  forall (self : ChessAIServer.t) (d : dict) (from_sq to_sq : string),
    get d "from" (JStr "") = JStr from_sq -> from_sq <> "" ->
    get d "to" (JStr "") = JStr to_sq -> to_sq <> "" ->
    let self' := fst (ChessAIServer.handle_player_move_complete self d) in
    let raised := snd (ChessAIServer.handle_player_move_complete self d) in
    let legal :=
      match from_uci (lower from_sq ++ lower to_sq) with
      | Ok move => is_legal (ChessAIServer.board self) move
      | Raise _ => false
      end in
    let ends_game :=
      match from_uci (lower from_sq ++ lower to_sq) with
      | Ok move =>
          is_legal (ChessAIServer.board self) move
          && is_game_over (push (ChessAIServer.board self) move)
      | Raise _ => false
      end in
    ChessAIServer.current_player_move self' = ChessAIServer.current_player_move self
    /\ ChessAIServer.written self' = ChessAIServer.written self
    /\ (ends_game = true ->
        ChessAIServer.game_started self' = false
        /\ ChessAIServer.waiting_for_move self' = ChessAIServer.waiting_for_move self
        /\ raised = None)
    /\ (legal = true -> ends_game = false ->
        ChessAIServer.game_started self' = ChessAIServer.game_started self
        /\ ChessAIServer.waiting_for_move self' = ChessAIServer.waiting_for_move self
        /\ raised = Some AttributeError)
    /\ (legal = false ->
        ChessAIServer.game_started self' = ChessAIServer.game_started self
        /\ ChessAIServer.waiting_for_move self' = false
        /\ ChessAIServer.board self' = ChessAIServer.board self
        /\ raised = None).
Proof.
  intros self d from_sq to_sq Hf Hfne Ht Htne. cbv zeta.
  unfold ChessAIServer.handle_player_move_complete. rewrite Hf, Ht.
  assert (T : forall s, s <> "" -> truthy (JStr s) = true).
  { intros s Hs. destruct s; [contradiction | reflexivity]. }
  rewrite (T _ Hfne), (T _ Htne). cbn [negb orb].
  destruct (from_uci (lower from_sq ++ lower to_sq)) as [move|e] eqn:E.
  - destruct (is_legal (ChessAIServer.board self) move); cbn [andb].
    + cbn [ChessAIServer.board ChessAIServer.set_board].
      destruct (is_game_over (push (ChessAIServer.board self) move)); cbn [fst snd].
      * split; [reflexivity|]. split; [reflexivity|].
        split; [now repeat split|]. split; discriminate.
      * split; [reflexivity|]. split; [reflexivity|].
        split; [discriminate|]. split; [now repeat split | discriminate].
    + cbn [fst snd]. split; [reflexivity|]. split; [reflexivity|].
      split; [discriminate|]. split; [discriminate | now repeat split].
  - rewrite (from_uci_raises _ _ E). cbn [is_ValueError fst snd].
    split; [reflexivity|]. split; [reflexivity|].
    split; [discriminate|]. split; [discriminate | now repeat split].
Qed.

(** [X29] A frame of the wrong type changes nothing: a JSON text that is
    not an object, a [player_move] whose [from] is not a string, a
    [player_move_complete] whose [from] or [to] is not a string. *)
Theorem ill_typed_frames_change_nothing :
  forall (self : ChessAIServer.t),
    (forall message data,
       loads message = Ok data -> (forall d, data <> JDict d) ->
       ChessAIServer.process_received_message self message = Ok self)
    /\ (forall d,
          lookup d "type" = Some (JStr "player_move") ->
          is_string (get d "from" (JStr "")) = false ->
          ChessAIServer.dispatch self (JDict d) = self)
    /\ (forall d,
          lookup d "type" = Some (JStr "player_move_complete") ->
          is_string (get d "from" (JStr "")) = false
          \/ is_string (get d "to" (JStr "")) = false ->
          ChessAIServer.dispatch self (JDict d) = self).
Proof.
  intros self. split; [|split].
  - intros message data Hl Hd. unfold ChessAIServer.process_received_message. rewrite Hl.
    destruct data as [| | | | |d]; try reflexivity. now elim (Hd d).
  - intros d Ht Hs. rewrite (dispatch_player_move self d Ht).
    unfold ChessAIServer.handle_player_move_origin.
    destruct (negb (truthy (get d "from" (JStr "")))); [reflexivity|].
    now destruct (get d "from" (JStr "")).
  - intros d Ht Hs. rewrite (dispatch_player_move_complete self d Ht).
    unfold ChessAIServer.handle_player_move_complete.
    destruct (negb (truthy (get d "from" (JStr "")))
              || negb (truthy (get d "to" (JStr "")))); [reflexivity|].
    destruct (get d "from" (JStr "")), (get d "to" (JStr ""));
      try reflexivity.
    destruct Hs as [Hs|Hs]; discriminate Hs.
Qed.

End Answers.

Lemma one_frame_per_message_witness :
  exists self',
    ChessAIServer.process_received_message (rules := Demo.rules) (engine := Demo.engine)
      idle_server game_start_line = Ok self'
    /\ wrote 1 idle_server self'.
Proof.
  eexists. split; [vm_compute; reflexivity|].
  apply (proj1 (one_frame_per_message (rules := Demo.rules) (engine := Demo.engine)
                  idle_server game_start_line)).
  vm_compute. reflexivity.
Defined.

Lemma listener_answers_each_line_once_witness :
  exists self',
    ChessAIServer.serial_listener (rules := Demo.rules) (engine := Demo.engine)
      idle_server [game_start_line ++ ChessAIServer.newline; "  "; "not json"] = Ok self'
    /\ wrote 3 idle_server self'.
Proof.
  eexists. split; [vm_compute; reflexivity|].
  apply (proj1 (listener_answers_each_line_once
                  (rules := Demo.rules) (engine := Demo.engine)
                  [game_start_line ++ ChessAIServer.newline; "  "; "not json"]
                  idle_server)).
  vm_compute. reflexivity.
Defined.

Lemma player_move_offers_options_witness :
  ChessAIServer.handle_player_move_origin (rules := Demo.rules) (engine := Demo.engine)
    idle_server [("type", JStr "player_move"); ("from", JStr "E2")]
  = (ChessAIServer.mk true
       ["{" ++ quoted "type" ++ ": " ++ quoted "move_options" ++ ", "
        ++ quoted "best_move" ++ ": " ++ quoted "E2E3" ++ ", "
        ++ quoted "alternatives" ++ ": [" ++ quoted "E2E4" ++ "]}"
        ++ String line_feed ""]
       starting_board false true (Some "E2"),
     None).
Proof.
  pose proof (player_move_offers_options (rules := Demo.rules) (engine := Demo.engine)
                idle_server [("type", JStr "player_move"); ("from", JStr "E2")]
                "E2" Demo.e2 (mkPiece PAWN WHITE) [0; 0]
                eq_refl eq_refl eq_refl eq_refl eq_refl) as H.
  cbv zeta in H.
  destruct H as (best & alternatives & bs & als & G & _ & A & _ & _ & _ & B & C & H & _).
  - discriminate.
  - reflexivity.
  - vm_compute. repeat constructor.
  - reflexivity.
  - vm_compute in G. injection G as <-. subst alternatives.
    vm_compute in B. injection B as <-. vm_compute in C. injection C as <-.
    rewrite H. vm_compute. reflexivity.
Defined.

Lemma player_move_with_failing_engine_witness :
  exists failing,
    ChessAIServer.board
      (fst (ChessAIServer.handle_player_move_origin
              (rules := Demo.rules) (engine := Demo.no_engine)
              idle_server [("type", JStr "player_move"); ("from", JStr "E2")]))
    = push (Rules := Demo.rules) starting_board failing.
Proof.
  pose proof (player_move_with_failing_engine
                (rules := Demo.rules) (engine := Demo.no_engine)
                idle_server [("type", JStr "player_move"); ("from", JStr "E2")]
                "E2" Demo.e2 (mkPiece PAWN WHITE) EngineError
                eq_refl eq_refl eq_refl eq_refl eq_refl) as H.
  cbv zeta in H.
  destruct H
    as (first & failing & alternatives & bs & als & _ & _ & _ & _ & _ & _ & H & _).
  - reflexivity.
  - vm_compute. repeat constructor.
  - reflexivity.
  - exists failing. now rewrite H.
Defined.

Lemma after_game_start_origin_squares_witness :
  ChessAIServer.handle_player_move_origin (rules := Demo.rules) (engine := Demo.engine)
    (ChessAIServer.handle_game_start idle_server)
    [("type", JStr "player_move"); ("from", JStr "E7")]
  = (ChessAIServer.handle_game_start idle_server, None).
Proof.
  apply (after_game_start_origin_squares (rules := Demo.rules) (engine := Demo.engine)
           idle_server [("type", JStr "player_move"); ("from", JStr "E7")]
           "E7" Demo.e7 eq_refl eq_refl).
  vm_compute. lia.
Defined.

Lemma legal_move_raises_attribute_error_witness :
  ChessAIServer.handle_player_move_complete (rules := Demo.rules)
    idle_server (move_complete_message "E2" "E4")
  = (ChessAIServer.mk true [] (push (Rules := Demo.rules) starting_board Demo.e2e4)
       false false None,
     Some AttributeError).
Proof.
  destruct (legal_move_raises_attribute_error (rules := Demo.rules) (engine := Demo.engine)
              idle_server (move_complete_message "E2" "E4") "E2" "E4" Demo.e2e4)
    as [H _].
  - reflexivity.
  - discriminate.
  - reflexivity.
  - discriminate.
  - reflexivity.
  - reflexivity.
  - reflexivity.
  - exact H.
Defined.

Lemma player_move_complete_flags_witness :
  ChessAIServer.waiting_for_move
    (fst (ChessAIServer.handle_player_move_complete (rules := Demo.rules)
            (ChessAIServer.mk true [] starting_board true true (Some "E2"))
            (move_complete_message "E2" "E5")))
  = false
  /\ ChessAIServer.waiting_for_move
       (fst (ChessAIServer.handle_player_move_complete (rules := Demo.rules)
               (ChessAIServer.mk true [] starting_board true true (Some "E2"))
               (move_complete_message "E2" "E4")))
     = true.
Proof.
  assert (N : "E2" <> "" /\ "E4" <> "" /\ "E5" <> "") by (repeat split; discriminate).
  destruct N as (N2 & N4 & N5).
  destruct (player_move_complete_flags (rules := Demo.rules)
              (ChessAIServer.mk true [] starting_board true true (Some "E2"))
              (move_complete_message "E2" "E5") "E2" "E5" eq_refl N2 eq_refl N5)
    as (_ & _ & _ & _ & A).
  destruct (player_move_complete_flags (rules := Demo.rules)
              (ChessAIServer.mk true [] starting_board true true (Some "E2"))
              (move_complete_message "E2" "E4") "E2" "E4" eq_refl N2 eq_refl N4)
    as (_ & _ & _ & B & _).
  destruct (A eq_refl) as (_ & A1 & _).
  destruct (B eq_refl eq_refl) as (_ & B1 & _).
  split; [exact A1 | exact B1].
Defined.

Lemma ill_typed_frames_change_nothing_witness :
  ChessAIServer.dispatch (rules := Demo.rules) (engine := Demo.engine)
    idle_server (JDict [("type", JStr "player_move"); ("from", JInt 5)])
  = idle_server.
Proof.
  destruct (ill_typed_frames_change_nothing (rules := Demo.rules) (engine := Demo.engine)
              idle_server) as (_ & B & _).
  apply B; reflexivity.
Defined.
